(** * UltimateBot and its run supervisor: a shallow embedding

    The development follows [ultimate_bot_tor.py] (the dual-mode
    navigation engine and its command line) and [run_bot_loop.py] (the
    identity-rotating supervisor).  Everything the two scripts reach
    through imported packages (the HTTP client, the markup parser and its
    selector engine, the browser driver, the operating system) is kept
    behind an explicit interface; the control flow, the state of the
    [UltimateBot] object and the pure computations are transcribed. *)

From Stdlib Require Import ZArith Ascii String List.
From stdpp Require Import base option list gmap strings pretty.

Open Scope Z_scope.

(* ===================================================================== *)
(** * Python values and exceptions *)
(* ===================================================================== *)

(** The outcome of a Python expression: a value, or a raised exception
    (kept as its message, which is all the sources ever format). *)
Inductive Fallible (A : Type) : Type :=
| Ok (a : A)
| Raise (e : string).
Arguments Ok {A} a.
Arguments Raise {A} e.

#[global] Instance fallible_ret : MRet Fallible := fun _ a => Ok a.
#[global] Instance fallible_bind : MBind Fallible := fun _ _ k m =>
  match m with
  | Ok a => k a
  | Raise e => Raise e
  end.

(** Truthiness of a [str]: only the empty string is falsy. *)
Definition truthy (s : string) : bool :=
  match s with
  | EmptyString => false
  | String _ _ => true
  end.

(* ===================================================================== *)
(** * The [str] methods the sources use *)
(* ===================================================================== *)

Module Str.

Definition code (c : ascii) : nat := nat_of_ascii c.

Definition between (lo hi : nat) (c : ascii) : bool :=
  (Nat.leb lo (code c) && Nat.leb (code c) hi)%bool.

Definition is_upper := between 65 90.
Definition is_lower := between 97 122.
Definition is_digit := between 48 57.
Definition is_alpha (c : ascii) : bool := (is_upper c || is_lower c)%bool.

(** [str.isspace] on the ASCII range. *)
Definition is_space (c : ascii) : bool :=
  (between 9 13 c || between 28 32 c)%bool.

Definition lower_char (c : ascii) : ascii :=
  if is_upper c then ascii_of_nat (code c + 32) else c.

Fixpoint lower (s : string) : string :=
  match s with
  | EmptyString => EmptyString
  | String c r => String (lower_char c) (lower r)
  end.

Fixpoint mem (c : ascii) (s : string) : bool :=
  match s with
  | EmptyString => false
  | String a r => (Ascii.eqb a c || mem c r)%bool
  end.

Fixpoint all_chars (p : ascii -> bool) (s : string) : bool :=
  match s with
  | EmptyString => true
  | String a r => (p a && all_chars p r)%bool
  end.

(** [s.find(c)] for a one-character needle. *)
Fixpoint find (c : ascii) (s : string) : option nat :=
  match s with
  | EmptyString => None
  | String a r => if Ascii.eqb a c then Some O else S <$> find c r
  end.

Fixpoint drop (n : nat) (s : string) : string :=
  match n, s with
  | O, _ => s
  | S _, EmptyString => EmptyString
  | S m, String _ r => drop m r
  end.

Fixpoint take (n : nat) (s : string) : string :=
  match n, s with
  | O, _ => EmptyString
  | S _, EmptyString => EmptyString
  | S m, String a r => String a (take m r)
  end.

(** [s.find(c, start)]. *)
Definition find_from (c : ascii) (start : nat) (s : string) : option nat :=
  (fun i => (start + i)%nat) <$> find c (drop start s).

(** [s.rfind(c)]. *)
Fixpoint rfind (c : ascii) (s : string) : option nat :=
  match s with
  | EmptyString => None
  | String a r =>
      match rfind c r with
      | Some i => Some (S i)
      | None => if Ascii.eqb a c then Some O else None
      end
  end.

(** [s.split(c)]: never empty, one more piece than separators. *)
Fixpoint split (c : ascii) (s : string) : list string :=
  match s with
  | EmptyString => [EmptyString]
  | String a r =>
      if Ascii.eqb a c then EmptyString :: split c r
      else match split c r with
           | h :: t => String a h :: t
           | [] => [String a EmptyString]
           end
  end.

(** [s.split(c, 1)] when [c in s]: the text before and after the first
    separator. *)
Definition cut (c : ascii) (s : string) : option (string * string) :=
  (fun i => (take i s, drop (S i) s)) <$> find c s.

(** [sep.join(parts)]. *)
Fixpoint join (sep : string) (parts : list string) : string :=
  match parts with
  | [] => EmptyString
  | [p] => p
  | p :: rest => p +:+ sep +:+ join sep rest
  end.

Fixpoint lstrip_by (p : ascii -> bool) (s : string) : string :=
  match s with
  | EmptyString => EmptyString
  | String a r => if p a then lstrip_by p r else s
  end.

Fixpoint rstrip_by (p : ascii -> bool) (s : string) : string :=
  match s with
  | EmptyString => EmptyString
  | String a r =>
      match rstrip_by p r with
      | EmptyString => if p a then EmptyString else String a EmptyString
      | r' => String a r'
      end
  end.

Definition strip_by (p : ascii -> bool) (s : string) : string :=
  rstrip_by p (lstrip_by p s).

(** [s.strip()]. *)
Definition strip : string -> string := strip_by is_space.

Fixpoint remove_chars (p : ascii -> bool) (s : string) : string :=
  match s with
  | EmptyString => EmptyString
  | String a r => if p a then remove_chars p r else String a (remove_chars p r)
  end.

Definition startswith (p s : string) : bool := String.prefix p s.

(** [needle in s] for a substring. *)
Fixpoint contains (needle s : string) : bool :=
  (String.prefix needle s ||
   match s with
   | EmptyString => false
   | String _ r => contains needle r
   end)%bool.

(** [x in [a, b, ...]] for strings. *)
Definition among (x : string) (l : list string) : bool :=
  bool_decide (x ∈ l).

End Str.

(* ===================================================================== *)
(** * [urllib.parse]: the resolution behind [urljoin]

  [ultimate_bot_tor.py] imports [urljoin]; the definitions below follow
  the standard library module function by function, on [str] inputs.
  Only the validation of bracketed (IPv6) hosts and of non-ASCII hosts,
  which lives in the [ipaddress] and [unicodedata] modules, stays a
  parameter. *)
(* ===================================================================== *)

Module urllib_parse.
Section urllib_parse.

(** [_check_bracketed_netloc] and the non-ASCII part of [_checknetloc]. *)
Variable check_host : string -> Fallible unit.

Definition uses_relative : list string :=
  [EmptyString; "ftp"; "http"; "gopher"; "nntp"; "imap"; "wais"; "file"; "https";
   "shttp"; "mms"; "prospero"; "rtsp"; "rtspu"; "sftp"; "svn"; "svn+ssh";
   "ws"; "wss"].

Definition uses_netloc : list string :=
  [EmptyString; "ftp"; "http"; "gopher"; "nntp"; "telnet"; "imap"; "wais"; "file";
   "mms"; "https"; "shttp"; "snews"; "prospero"; "rtsp"; "rtspu"; "rsync";
   "svn"; "svn+ssh"; "sftp"; "nfs"; "git"; "git+ssh"; "ws"; "wss";
   "itms-services"].

Definition uses_params : list string :=
  [EmptyString; "ftp"; "hdl"; "prospero"; "http"; "imap"; "https"; "shttp"; "rtsp";
   "rtspu"; "sip"; "sips"; "mms"; "sftp"; "tel"].

Definition scheme_char (c : ascii) : bool :=
  (Str.is_alpha c || Str.is_digit c || Str.mem c "+-.")%bool.

(** [_WHATWG_C0_CONTROL_OR_SPACE]. *)
Definition c0_control_or_space (c : ascii) : bool := Nat.leb (Str.code c) 32.

(** [_UNSAFE_URL_BYTES_TO_REMOVE]: tab, carriage return, line feed. *)
Definition unsafe_url_byte (c : ascii) : bool :=
  (Nat.eqb (Str.code c) 9 || Nat.eqb (Str.code c) 13 || Nat.eqb (Str.code c) 10)%bool.

Definition is_ascii (s : string) : bool :=
  Str.all_chars (fun c => Nat.ltb (Str.code c) 128) s.

Definition min_opt (a : nat) (b : option nat) : nat :=
  match b with
  | Some i => Nat.min a i
  | None => a
  end.

(** [_splitnetloc(url, start)]. *)
Definition _splitnetloc (url : string) (start : nat) : string * string :=
  let delim := String.length url in
  let delim := min_opt delim (Str.find_from "/" start url) in
  let delim := min_opt delim (Str.find_from "?" start url) in
  let delim := min_opt delim (Str.find_from "#" start url) in
  (Str.drop start (Str.take delim url), Str.drop delim url).

Record SplitResult : Type := mkSplit {
  sr_scheme : string; sr_netloc : string; sr_path : string;
  sr_query : string; sr_fragment : string }.

Record ParseResult : Type := mkParse {
  pr_scheme : string; pr_netloc : string; pr_path : string;
  pr_params : string; pr_query : string; pr_fragment : string }.

(** [urlsplit(url, scheme, allow_fragments=True)]. *)
Definition urlsplit (url scheme : string) : Fallible SplitResult :=
  let url := Str.lstrip_by c0_control_or_space url in
  let scheme := Str.strip_by c0_control_or_space scheme in
  let url := Str.remove_chars unsafe_url_byte url in
  let scheme := Str.remove_chars unsafe_url_byte scheme in
  let '(scheme, url) :=
    match Str.find ":" url, url with
    | Some (S i), String c0 _ =>
        if (Str.is_alpha c0 && Str.all_chars scheme_char (Str.take (S i) url))%bool
        then (Str.lower (Str.take (S i) url), Str.drop (S (S i)) url)
        else (scheme, url)
    | _, _ => (scheme, url)
    end in
  ('(netloc, url) ←
     (if Str.startswith "//" url then
        let '(netloc, rest) := _splitnetloc url 2 in
        let lb := Str.mem "[" netloc in
        let rb := Str.mem "]" netloc in
        if ((lb && negb rb) || (rb && negb lb))%bool
        then Raise "Invalid IPv6 URL"
        else if (lb && rb)%bool
             then _ ← check_host netloc; Ok (netloc, rest)
             else Ok (netloc, rest)
      else Ok (EmptyString, url));
   let '(url, fragment) :=
     match Str.cut "#" url with
     | Some (u, f) => (u, f)
     | None => (url, EmptyString)
     end in
   let '(url, query) :=
     match Str.cut "?" url with
     | Some (u, q) => (u, q)
     | None => (url, EmptyString)
     end in
   _ ← (if (negb (truthy netloc) || is_ascii netloc)%bool
            then Ok tt else check_host netloc);
   Ok (mkSplit scheme netloc url query fragment)).

(** [_splitparams(url)], called only when [';' in url]. *)
Definition _splitparams (url : string) : string * string :=
  let cut_at (i : nat) := (Str.take i url, Str.drop (S i) url) in
  match Str.rfind "/" url with
  | Some slash =>
      match Str.find_from ";" slash url with
      | Some i => cut_at i
      | None => (url, EmptyString)
      end
  | None =>
      match Str.find ";" url with
      | Some i => cut_at i
      | None => (url, EmptyString)
      end
  end.

(** [urlparse(url, scheme, allow_fragments=True)]. *)
Definition urlparse (url scheme : string) : Fallible ParseResult :=
  (r ← urlsplit url scheme;
   let '(path, params) :=
     if (Str.among (sr_scheme r) uses_params && Str.mem ";" (sr_path r))%bool
     then _splitparams (sr_path r)
     else (sr_path r, EmptyString) in
   Ok (mkParse (sr_scheme r) (sr_netloc r) path params
               (sr_query r) (sr_fragment r))).

(** [urlunsplit((scheme, netloc, url, query, fragment))]. *)
Definition urlunsplit (scheme netloc url query fragment : string) : string :=
  let url :=
    if (truthy netloc ||
        (truthy scheme && Str.among scheme uses_netloc
         && negb (Str.startswith "//" url)))%bool
    then
      let url :=
        if (truthy url && negb (Str.startswith "/" url))%bool
        then "/" +:+ url else url in
      "//" +:+ netloc +:+ url
    else url in
  let url := if truthy scheme then scheme +:+ ":" +:+ url else url in
  let url := if truthy query then url +:+ "?" +:+ query else url in
  if truthy fragment then url +:+ "#" +:+ fragment else url.

(** [urlunparse((scheme, netloc, url, params, query, fragment))]. *)
Definition urlunparse (scheme netloc url params query fragment : string) : string :=
  let url := if truthy params then url +:+ ";" +:+ params else url in
  urlunsplit scheme netloc url query fragment.

(** [del base_parts[-1]] when the last item is not the empty string. *)
Definition drop_last_unless_empty (parts : list string) : list string :=
  match last parts with
  | Some EmptyString => parts
  | Some _ => removelast parts
  | None => parts
  end.

(** [segments[1:-1] = filter(None, segments[1:-1])]. *)
Definition filter_inner (segments : list string) : list string :=
  match segments with
  | [] => []
  | [a] => [a]
  | a :: rest =>
      a :: List.filter truthy (removelast rest) ++
        match last rest with
        | Some z => [z]
        | None => []
        end
  end.

(** The loop over [segments] that applies ".." and "." . *)
Fixpoint resolve_segments (segments resolved : list string) : list string :=
  match segments with
  | [] => resolved
  | seg :: rest =>
      if String.eqb seg ".." then resolve_segments rest (removelast resolved)
      else if String.eqb seg "." then resolve_segments rest resolved
      else resolve_segments rest (resolved ++ [seg])
  end.

(** [urljoin(base, url, allow_fragments=True)]. *)
Definition urljoin (base url : string) : Fallible string :=
  if negb (truthy base) then Ok url
  else if negb (truthy url) then Ok base
  else
    (b ← urlparse base EmptyString;
     u ← urlparse url (pr_scheme b);
     let scheme := pr_scheme u in
     if (negb (String.eqb scheme (pr_scheme b))
         || negb (Str.among scheme uses_relative))%bool
     then Ok url
     else if (Str.among scheme uses_netloc && truthy (pr_netloc u))%bool
     then Ok (urlunparse scheme (pr_netloc u) (pr_path u) (pr_params u)
                         (pr_query u) (pr_fragment u))
     else
       let netloc :=
         if Str.among scheme uses_netloc then pr_netloc b else pr_netloc u in
       if (negb (truthy (pr_path u)) && negb (truthy (pr_params u)))%bool
       then
         let query := if truthy (pr_query u) then pr_query u else pr_query b in
         Ok (urlunparse scheme netloc (pr_path b) (pr_params b) query
                        (pr_fragment u))
       else
         let base_parts := drop_last_unless_empty (Str.split "/" (pr_path b)) in
         let segments :=
           if Str.startswith "/" (pr_path u)
           then Str.split "/" (pr_path u)
           else filter_inner (base_parts ++ Str.split "/" (pr_path u)) in
         let resolved_path := resolve_segments segments [] in
         let resolved_path :=
           match last segments with
           | Some seg =>
               if (String.eqb seg "." || String.eqb seg "..")%bool
               then resolved_path ++ [EmptyString] else resolved_path
           | None => resolved_path
           end in
         let path := Str.join "/" resolved_path in
         Ok (urlunparse scheme netloc (if truthy path then path else "/")
                        (pr_params u) (pr_query u) (pr_fragment u))).

End urllib_parse.
End urllib_parse.

(* ===================================================================== *)
(** * Parsed markup: the [bs4] object tree *)
(* ===================================================================== *)

(** A [BeautifulSoup] document is itself a [Tag] (named "[document]")
  whose contents are the top-level nodes. *)
#[warnings="-register-all"] Inductive PageElement : Type :=
| NavigableString (s : string)
| Comment (s : string)
| Tag (name : string) (attrs : gmap string string) (contents : list PageElement).

Module bs4.

(** [tag.descendants]: every node below the tag, in document order. *)
Fixpoint descendants (e : PageElement) : list PageElement :=
  match e with
  | Tag _ _ cs => flat_map (fun c => c :: descendants c) cs
  | _ => []
  end.

Definition tag_name (e : PageElement) : option string :=
  match e with
  | Tag n _ _ => Some n
  | _ => None
  end.

(** [tag.get(key)]. *)
Definition get (key : string) (e : PageElement) : option string :=
  match e with
  | Tag _ attrs _ => attrs !! key
  | _ => None
  end.

(** [tag.get(key, default)]. *)
Definition get_default (key fallback : string) (e : PageElement) : string :=
  default fallback (get key e).

(** The strings [_all_strings] yields: plain text nodes only (comments
    are not of the default types); with [strip] each one is stripped and
    dropped when nothing is left. *)
Definition text_piece (strip : bool) (e : PageElement) : option string :=
  match e with
  | NavigableString s =>
      if strip
      then let s' := Str.strip s in if truthy s' then Some s' else None
      else Some s
  | _ => None
  end.

(** [tag.get_text(strip=...)] with the default empty separator. *)
Definition get_text (strip : bool) (e : PageElement) : string :=
  Str.join EmptyString (omap (text_piece strip) (descendants e)).

Definition named (names : list string) (e : PageElement) : bool :=
  match e with
  | Tag n _ _ => Str.among n names
  | _ => false
  end.

(** [tag.find_all([name, ...])]. *)
Definition find_all (names : list string) (e : PageElement) : list PageElement :=
  List.filter (named names) (descendants e).

(** [tag.find(name)]. *)
Definition find (name : string) (e : PageElement) : option PageElement :=
  head (find_all [name] e).

(** [tag.find(name, attrs={key: value})]. *)
Definition find_with_attr (name key value : string) (e : PageElement)
  : option PageElement :=
  head (List.filter (fun t => bool_decide (get key t = Some value))
                    (find_all [name] e)).

(** [tag.clear()] on the node reached from the root by [path], the
    positions of the children to follow: the contents of that tag are
    removed.  A path that leads nowhere, or to a node that is not a tag,
    changes nothing. *)
Fixpoint clear_at (path : list nat) (e : PageElement) {struct e} : PageElement :=
  match e with
  | Tag n attrs cs =>
      match path with
      | [] => Tag n attrs []
      | i :: rest =>
          Tag n attrs
            ((fix at_child (k : nat) (cs : list PageElement) {struct cs}
                : list PageElement :=
                match cs with
                | [] => []
                | c :: cs' =>
                    match k with
                    | O => clear_at rest c :: cs'
                    | S k' => c :: at_child k' cs'
                    end
                end) i cs)
      end
  | _ => e
  end.

End bs4.

(* ===================================================================== *)
(** * The interface to the outside *)
(* ===================================================================== *)

Inductive Method : Type := GET | POST.

(** A call [session.get(url, params=fields, timeout=t)] or
    [session.post(url, data=fields, timeout=t)]. *)
Record Request : Type := mkRequest {
  req_method : Method;
  req_url : string;
  req_fields : gmap string string;
  req_timeout : Z }.

(** The attributes of a [requests.Response] the bot reads. *)
Record Response : Type := mkResponse {
  status_code : Z;
  response_url : string;
  response_text : string;
  response_content : string }.

(** The configuration the bot puts on its [requests.Session]. *)
Record Session : Type := mkSession {
  headers : gmap string string;
  proxies : gmap string string }.

(** A cookie as [get_cookies] reports it. *)
Record Cookie : Type := mkCookie {
  cookie_name : string;
  cookie_value : string;
  cookie_domain : string;
  cookie_path : string }.

Inductive Level : Type := INFO | WARNING | ERROR.

(** What the imported packages do.  [Ext] is the state of everything
    outside the process (network, browser, clock, console); an action
    takes it and returns the next one, a reading only looks at it. *)
Class World : Type := {
  Ext : Type;
  Driver : Type;
  WebElement : Type;
  JsValue : Type;
  (* bs4 and its selector engine *)
  BeautifulSoup : string -> Fallible PageElement;
  soup_select : PageElement -> string -> Fallible (list PageElement);
  soup_str : PageElement -> string;
  (* object identity, which the values do not carry: where in the given
     Document the given node object sits, if it is one of its nodes *)
  node_path : Ext -> PageElement -> PageElement -> option (list nat);
  (* urllib.parse: host validation *)
  check_host : string -> Fallible unit;
  (* requests *)
  session_request : Ext -> Session -> Request -> Ext * Fallible Response;
  session_cookies : Ext -> Session -> Fallible (list Cookie);
  session_close : Ext -> Session -> Ext * Fallible unit;
  (* undetected_chromedriver and selenium *)
  uc_Chrome : Ext -> list string -> Ext * Fallible Driver;
  webdriver_Chrome : Ext -> list string -> Ext * Fallible Driver;
  driver_execute_script : Ext -> Driver -> string -> option WebElement -> Ext * Fallible JsValue;
  driver_get_cookies : Ext -> Driver -> Fallible (list Cookie);
  driver_get : Ext -> Driver -> string -> Ext * Fallible unit;
  driver_current_url : Ext -> Driver -> Fallible string;
  driver_page_source : Ext -> Driver -> Fallible string;
  driver_title : Ext -> Driver -> Fallible string;
  driver_find_elements : Ext -> Driver -> string -> Fallible (list WebElement);
  driver_save_screenshot : Ext -> Driver -> string -> Ext * Fallible unit;
  driver_quit : Ext -> Driver -> Ext * Fallible unit;
  wait_presence : Ext -> Driver -> Z -> string -> Ext * Fallible WebElement;
  element_click : Ext -> WebElement -> Ext * Fallible unit;
  element_clear : Ext -> WebElement -> Ext * Fallible unit;
  element_send_keys : Ext -> WebElement -> string -> Ext * Fallible unit;
  element_submit : Ext -> WebElement -> Ext * Fallible unit;
  element_text : Ext -> WebElement -> Fallible string;
  element_get_attribute : Ext -> WebElement -> string -> Fallible (option string);
  (* time, random, console, files *)
  strftime : Ext -> string -> string;
  sleep_uniform : Ext -> Z -> Z -> Ext;
  print : Ext -> string -> Ext;
  write_file : Ext -> string -> string -> Ext * Fallible unit }.

Section Engine.
Context {W : World}.

(** What [find] hands out: a live browser element or a parsed node. *)
Inductive Element : Type :=
| BrowserElement (e : WebElement)
| SoupElement (e : PageElement).

(** The [element_or_selector] argument ([isinstance(..., str)]). *)
Inductive Target : Type :=
| BySelector (selector : string)
| ByElement (element : Element).

(** The object state of [UltimateBot].  [logger] holds the records that
    pass the INFO threshold set in [setup_logging]; [exchanges] is the
    history of the calls made on the [requests] session with what each
    one answered, kept only to state what was sent and received; [world]
    is the outside as the process last left it. *)
Record UltimateBot : Type := mkBot {
  use_browser : bool;
  headless : bool;
  stealth : bool;
  use_tor : bool;
  driver : option Driver;
  session : Session;
  current_url : string;
  current_soup : option PageElement;
  logger : list (Level * string);
  activity_log : list string;
  exchanges : list (Request * Fallible Response);
  world : Ext }.

Definition with_use_browser (v : bool) (s : UltimateBot) : UltimateBot :=
  mkBot v (headless s) (stealth s) (use_tor s) (driver s) (session s)
        (current_url s) (current_soup s) (logger s) (activity_log s) (exchanges s) (world s).

Definition with_driver (v : option Driver) (s : UltimateBot) : UltimateBot :=
  mkBot (use_browser s) (headless s) (stealth s) (use_tor s) v (session s)
        (current_url s) (current_soup s) (logger s) (activity_log s) (exchanges s) (world s).

Definition with_session (v : Session) (s : UltimateBot) : UltimateBot :=
  mkBot (use_browser s) (headless s) (stealth s) (use_tor s) (driver s) v
        (current_url s) (current_soup s) (logger s) (activity_log s) (exchanges s) (world s).

Definition with_current_url (v : string) (s : UltimateBot) : UltimateBot :=
  mkBot (use_browser s) (headless s) (stealth s) (use_tor s) (driver s) (session s)
        v (current_soup s) (logger s) (activity_log s) (exchanges s) (world s).

Definition with_current_soup (v : option PageElement) (s : UltimateBot) : UltimateBot :=
  mkBot (use_browser s) (headless s) (stealth s) (use_tor s) (driver s) (session s)
        (current_url s) v (logger s) (activity_log s) (exchanges s) (world s).

Definition with_logger (v : list (Level * string)) (s : UltimateBot) : UltimateBot :=
  mkBot (use_browser s) (headless s) (stealth s) (use_tor s) (driver s) (session s)
        (current_url s) (current_soup s) v (activity_log s) (exchanges s) (world s).

Definition with_activity_log (v : list string) (s : UltimateBot) : UltimateBot :=
  mkBot (use_browser s) (headless s) (stealth s) (use_tor s) (driver s) (session s)
        (current_url s) (current_soup s) (logger s) v (exchanges s) (world s).

Definition with_exchanges (v : list (Request * Fallible Response)) (s : UltimateBot)
  : UltimateBot :=
  mkBot (use_browser s) (headless s) (stealth s) (use_tor s) (driver s) (session s)
        (current_url s) (current_soup s) (logger s) (activity_log s) v (world s).

Definition with_world (v : Ext) (s : UltimateBot) : UltimateBot :=
  mkBot (use_browser s) (headless s) (stealth s) (use_tor s) (driver s) (session s)
        (current_url s) (current_soup s) (logger s) (activity_log s) (exchanges s) v.

(** ** Methods as state transformers that may raise

    A raise keeps the assignments made before it, as in Python. *)
Definition Bot (A : Type) : Type := UltimateBot -> UltimateBot * Fallible A.

(** [return a]. *)
Definition ret {A} (a : A) : Bot A := fun s => (s, Ok a).

#[global] Instance bot_ret : MRet Bot := @ret.

#[global] Instance bot_bind : MBind Bot := fun _ _ k m s =>
  match m s with
  | (s', Ok a) => k a s'
  | (s', Raise e) => (s', Raise e)
  end.

Definition self : Bot UltimateBot := fun s => (s, Ok s).

Definition assign (f : UltimateBot -> UltimateBot) : Bot unit :=
  fun s => (f s, Ok tt).

Definition lift {A} (r : Fallible A) : Bot A := fun s => (s, r).

(** [try: body except Exception as e: handler]. *)
Definition try_except {A} (body : Bot A) (handler : string -> Bot A) : Bot A :=
  fun s =>
    match body s with
    | (s', Ok a) => (s', Ok a)
    | (s', Raise e) => handler e s'
    end.

(** An action of the outside. *)
Definition act {A} (f : Ext -> Ext * Fallible A) : Bot A :=
  fun s => let '(w, r) := f (world s) in (with_world w s, r).

(** A reading of the outside. *)
Definition observe {A} (f : Ext -> Fallible A) : Bot A :=
  fun s => (s, f (world s)).

Definition advance (f : Ext -> Ext) : Bot unit :=
  fun s => (with_world (f (world s)) s, Ok tt).

Definition when (b : bool) (m : Bot unit) : Bot unit :=
  if b then m else ret tt.

(** [self.logger.info / warning / error]. *)
Definition logger_emit (lvl : Level) (msg : string) : Bot unit :=
  assign (fun s => with_logger (logger s ++ [(lvl, msg)]) s).
Definition logger_info := logger_emit INFO.
Definition logger_warning := logger_emit WARNING.
Definition logger_error := logger_emit ERROR.

Definition _log_activity (action : string) : Bot unit :=
  s ← self;
  let timestamp := strftime (world s) "%H:%M:%S" in
  let activity := "[" +:+ timestamp +:+ "] " +:+ action in
  assign (fun s => with_activity_log (activity_log s ++ [activity]) s);;
  when (existsb (fun word => Str.contains word action)
                ["SUCCESS"; "COMPLETE"; "FAILED"; "ERROR"])
       (advance (fun w => print w ("📋 " +:+ activity))).

(** [self.use_browser and self.driver]: the driver when in browser mode. *)
Definition browser_mode (s : UltimateBot) : option Driver :=
  if use_browser s then driver s else None.

Definition stealth_headers : gmap string string :=
  list_to_map
    [("User-Agent", "Mozilla/5.0 (Windows NT 10.0; Win64; x64) AppleWebKit/537.36 (KHTML, like Gecko) Chrome/120.0.0.0 Safari/537.36");
     ("Accept", "text/html,application/xhtml+xml,application/xml;q=0.9,image/webp,*/*;q=0.8");
     ("Accept-Language", "en-US,en;q=0.5");
     ("Accept-Encoding", "gzip, deflate");
     ("Connection", "keep-alive");
     ("Upgrade-Insecure-Requests", "1");
     ("DNT", "1");
     ("Sec-Fetch-Dest", "document");
     ("Sec-Fetch-Mode", "navigate");
     ("Sec-Fetch-Site", "none")].

Definition tor_proxies : gmap string string :=
  list_to_map [("http", "socks5h://127.0.0.1:9050");
               ("https", "socks5h://127.0.0.1:9050")].

Definition setup_session : Bot unit :=
  assign (fun s => with_session
            (mkSession (stealth_headers ∪ headers (session s)) (proxies (session s))) s);;
  s ← self;
  when (use_tor s)
    (logger_info "Using TOR proxy for requests session.";;
     assign (fun s => with_session
               (mkSession (headers (session s)) (tor_proxies ∪ proxies (session s))) s)).

(** [UltimateBot(use_browser, headless, stealth, use_tor)] started in the
    outside state [w]: the fields are set, [setup_logging] starts with no
    record and an empty [activity_log] (the log file it creates is not
    followed), then [setup_session] runs. *)
Definition __init__ (w : Ext) (use_browser headless stealth use_tor : bool)
  : UltimateBot :=
  fst (setup_session
         (mkBot use_browser headless stealth use_tor None (mkSession ∅ ∅)
                EmptyString None [] [] [] w)).

Definition _random_delay : Bot unit :=
  advance (fun w => sleep_uniform w 500 2000).

(** ** Starting the browser *)

Definition chrome_options (extra : list string) (headless : bool) : list string :=
  ["--no-sandbox"; "--disable-dev-shm-usage"] ++ extra
    ++ (if headless then ["--headless"] else []).

Definition _init_undetected_chrome : Bot bool :=
  s ← self;
  d ← act (fun w => uc_Chrome w (chrome_options [] (headless s)));
  assign (with_driver (Some d));;
  ret true.

Definition _init_standard_chrome : Bot bool :=
  s ← self;
  d ← act (fun w => webdriver_Chrome w (chrome_options ["--disable-gpu"] (headless s)));
  assign (with_driver (Some d));;
  ret true.

Definition stealth_js : string :=
  "
            Object.defineProperty(navigator, 'webdriver', {get: () => undefined});
            window.chrome = {runtime: {onConnect: undefined, onMessage: undefined}};
            Object.defineProperty(navigator, 'plugins', {get: () => [1, 2, 3, 4, 5]});
            Object.defineProperty(navigator, 'languages', {get: () => ['en-US', 'en']});
            ".

(** [self.driver.<method>] raises [AttributeError] when the driver is
    [None]. *)
Definition the_driver : Bot Driver :=
  s ← self;
  match driver s with
  | Some d => ret d
  | None => lift (Raise "'NoneType' object has no attribute")
  end.

Definition _apply_stealth : Bot unit :=
  try_except
    (d ← the_driver;
     act (fun w => driver_execute_script w d stealth_js None);;
     logger_info "Stealth measures applied")
    (fun e => logger_warning ("Stealth application failed: " +:+ e)).

(** The loop [for method in methods] of [start_browser]; [true] stands
    for the [return True] taken inside the loop. *)
Fixpoint try_methods (methods : list (Bot bool)) : Bot bool :=
  match methods with
  | [] => ret false
  | method :: rest =>
      started ←
        try_except
          (ok ← method;
           if (ok : bool) then
             s ← self;
             when (stealth s) _apply_stealth;;
             logger_info "Browser started successfully";;
             ret true
           else ret false)
          (fun e => logger_warning ("Browser method failed: " +:+ e);; ret false);
      if (started : bool) then ret true else try_methods rest
  end.

Definition start_browser : Bot bool :=
  s ← self;
  if (negb (use_browser s) || bool_decide (is_Some (driver s)))%bool then ret true
  else
    try_except
      (logger_info "Starting browser...";;
       started ← try_methods [_init_undetected_chrome; _init_standard_chrome];
       if (started : bool) then ret true
       else
         logger_warning "Browser initialization failed, using requests mode";;
         assign (with_use_browser false);;
         ret true)
      (fun e =>
         logger_error ("Browser start failed: " +:+ e);;
         assign (with_use_browser false);;
         ret true).

(** ** Navigation and lookup *)

Definition get_title : Bot string :=
  try_except
    (s ← self;
     match browser_mode s with
     | Some d => observe (fun w => driver_title w d)
     | None =>
         match current_soup s with
         | Some soup =>
             match bs4.find "title" soup with
             | Some title_elem => ret (bs4.get_text true title_elem)
             | None => ret EmptyString
             end
         | None => ret EmptyString
         end
     end)
    (fun _ => ret EmptyString).

(** [self.session.get / post], recorded in [exchanges]. *)
Definition session_send (r : Request) : Bot Response :=
  fun s =>
    let '(w, answer) := session_request (world s) (session s) r in
    (with_exchanges (exchanges s ++ [(r, answer)]) (with_world w s), answer).

Definition goto (url : string) : Bot bool :=
  try_except
    (logger_info ("🌐 NAVIGATING TO: " +:+ url);;
     _log_activity ("GOTO: " +:+ url);;
     let loaded (html : string) : Bot bool :=
       soup ← lift (BeautifulSoup html);
       assign (with_current_soup (Some soup));;
       title ← get_title;
       s ← self;
       logger_info ("✅ PAGE LOADED: " +:+ current_url s);;
       logger_info ("📄 PAGE TITLE: " +:+ title);;
       _random_delay;;
       _log_activity ("SUCCESS: Loaded " +:+ current_url s +:+ " - Title: " +:+ title);;
       ret true in
     s ← self;
     match browser_mode s with
     | Some d =>
         act (fun w => driver_get w d url);;
         u ← observe (fun w => driver_current_url w d);
         assign (with_current_url u);;
         html ← observe (fun w => driver_page_source w d);
         loaded html
     | None =>
         response ← session_send (mkRequest GET url ∅ 30);
         if negb (status_code response =? 200) then
           logger_error ("❌ HTTP ERROR " +:+ pretty (status_code response) +:+ ": " +:+ url);;
           ret false
         else
           assign (with_current_url (response_url response));;
           loaded (response_text response)
     end)
    (fun e =>
       let error_msg := "❌ NAVIGATION FAILED: " +:+ e in
       logger_error error_msg;;
       _log_activity ("ERROR: " +:+ error_msg);;
       ret false).

Definition find (selector : string) (timeout : Z) : Bot (option Element) :=
  try_except
    (s ← self;
     match browser_mode s with
     | Some d =>
         element ← act (fun w => wait_presence w d timeout selector);
         ret (Some (BrowserElement element))
     | None =>
         match current_soup s with
         | Some soup =>
             found ← lift (soup_select soup selector);
             ret (SoupElement <$> head found)
         | None => ret None
         end
     end)
    (fun _ => ret None).

Definition find_all (selector : string) : Bot (list Element) :=
  try_except
    (s ← self;
     match browser_mode s with
     | Some d =>
         found ← observe (fun w => driver_find_elements w d selector);
         ret (BrowserElement <$> found)
     | None =>
         match current_soup s with
         | Some soup =>
             found ← lift (soup_select soup selector);
             ret (SoupElement <$> found)
         | None => ret []
         end
     end)
    (fun _ => ret []).

(** A parsed node answers an unknown attribute with [None]; calling it
    raises [TypeError]. *)
Definition not_callable {A} : Bot A :=
  lift (Raise "'NoneType' object is not callable").

(** A [WebElement] has none of the [bs4] methods. *)
Definition no_attribute {A} (name : string) : Bot A :=
  lift (Raise ("'WebElement' object has no attribute '" +:+ name +:+ "'")).

(** [element_or_selector] resolved as [click] and [type_text] do; [None]
    stands for their [return False]. *)
Definition resolve (target : Target) : Bot (option Element) :=
  match target with
  | BySelector selector => find selector 10
  | ByElement element => ret (Some element)
  end.

Definition click (target : Target) (use_js : bool) : Bot bool :=
  s ← self;
  match browser_mode s with
  | None => logger_warning "Click requires browser mode";; ret false
  | Some d =>
      try_except
        (found ← resolve target;
         match found with
         | None => ret false
         | Some element =>
             (if use_js then
                match element with
                | BrowserElement e =>
                    act (fun w => driver_execute_script w d "arguments[0].click();" (Some e));;
                    ret tt
                | SoupElement _ =>
                    lift (Raise "Object of type Tag is not JSON serializable")
                end
              else
                match element with
                | BrowserElement e => act (fun w => element_click w e)
                | SoupElement _ => not_callable
                end);;
             _random_delay;;
             ret true
         end)
        (fun e => logger_error ("Click failed: " +:+ e);; ret false)
  end.

(** The loop [for char in text] of [type_text]. *)
Fixpoint send_each (e : WebElement) (text : string) : Bot unit :=
  match text with
  | EmptyString => ret tt
  | String char rest =>
      act (fun w => element_send_keys w e (String char EmptyString));;
      advance (fun w => sleep_uniform w 50 150);;
      send_each e rest
  end.

(** Calling a method that [bs4] does not define on a parsed node: a tag
    answers the unknown attribute with [None], which cannot be called; a
    string or a comment has no such attribute. *)
Definition soup_missing_method {A} (t : PageElement) (name : string) : Bot A :=
  match t with
  | Tag _ _ _ => not_callable
  | NavigableString _ =>
      lift (Raise ("'NavigableString' object has no attribute '" +:+ name +:+ "'"))
  | Comment _ =>
      lift (Raise ("'Comment' object has no attribute '" +:+ name +:+ "'"))
  end.

(** [element.clear()] on a parsed node.  [Tag.clear()] removes the
    contents of the tag; when the tag is a node of the current Document,
    which holds the same object, the Document loses them too. *)
Definition soup_clear (t : PageElement) : Bot unit :=
  match t with
  | Tag _ _ _ =>
      assign (fun s =>
                match current_soup s with
                | Some soup =>
                    match node_path (world s) soup t with
                    | Some path => with_current_soup (Some (bs4.clear_at path soup)) s
                    | None => s
                    end
                | None => s
                end)
  | _ => soup_missing_method t "clear"
  end.

Definition type_text (target : Target) (text : string) (clear : bool) : Bot bool :=
  s ← self;
  match browser_mode s with
  | None => logger_warning "Type requires browser mode";; ret false
  | Some _ =>
      try_except
        (found ← resolve target;
         match found with
         | None => ret false
         | Some (BrowserElement e) =>
             when clear (act (fun w => element_clear w e));;
             send_each e text;;
             _random_delay;;
             ret true
         | Some (SoupElement t) =>
             (* [Tag.clear()] exists; [send_keys] does not, so the first
                character raises. *)
             when clear (soup_clear t);;
             match text with
             | EmptyString => ret tt
             | String _ _ => soup_missing_method t "send_keys"
             end;;
             _random_delay;;
             ret true
         end)
        (fun e => logger_error ("Type failed: " +:+ e);; ret false)
  end.

Definition get_text (target : Target) : Bot string :=
  try_except
    (element ← match target with
               | BySelector selector => find selector 10
               | ByElement element => ret (Some element)
               end;
     match element with
     | None => ret EmptyString
     | Some element =>
         s ← self;
         match browser_mode s, element with
         | Some _, BrowserElement e => observe (fun w => element_text w e)
         | Some _, SoupElement t => ret (bs4.get_text false t)
         | None, SoupElement t => ret (bs4.get_text true t)
         | None, BrowserElement _ => no_attribute "get_text"
         end
     end)
    (fun _ => ret EmptyString).

Definition get_attribute (target : Target) (attr : string) : Bot string :=
  try_except
    (element ← match target with
               | BySelector selector => find selector 10
               | ByElement element => ret (Some element)
               end;
     match element with
     | None => ret EmptyString
     | Some element =>
         s ← self;
         match browser_mode s, element with
         | Some _, BrowserElement e =>
             v ← observe (fun w => element_get_attribute w e attr);
             ret (match v with
                   | Some v => if truthy v then v else EmptyString
                   | None => EmptyString
                   end)
         | Some _, SoupElement _ => not_callable
         | None, SoupElement t => ret (bs4.get_default attr EmptyString t)
         | None, BrowserElement _ => no_attribute "get"
         end
     end)
    (fun _ => ret EmptyString).

(** ** Form submission *)

(** The double-quote character, for selectors that quote a value. *)
Definition dq : string := String (ascii_of_nat 34) EmptyString.

Definition field_selector (field_name : string) : string :=
  "input[name=" +:+ dq +:+ field_name +:+ dq +:+ "], textarea[name=" +:+ dq
    +:+ field_name +:+ dq +:+ "], select[name=" +:+ dq +:+ field_name +:+ dq +:+ "]".

(** One turn of the loop over [form.find_all(['input', 'select',
    'textarea'])]. *)
Definition seed_field (form_fields : gmap string string) (input_elem : PageElement)
  : gmap string string :=
  match bs4.get "name" input_elem with
  | Some name =>
      if truthy name then
        if bool_decide (bs4.tag_name input_elem = Some "input") then
          let input_type := bs4.get_default "type" "text" input_elem in
          if Str.among input_type ["text"; "email"; "password"; "hidden"]
          then <[name := bs4.get_default "value" EmptyString input_elem]> form_fields
          else form_fields
        else if bool_decide (bs4.tag_name input_elem = Some "textarea") then
          <[name := bs4.get_text false input_elem]> form_fields
        else form_fields
      else form_fields
  | None => form_fields
  end.

Definition seed_fields (form : PageElement) : gmap string string :=
  fold_left seed_field (bs4.find_all ["input"; "select"; "textarea"] form) ∅.

(** The request the transport-only branch of [submit_form] builds from
    the form, the current URL and the caller's values. *)
Definition form_request (current_url : string) (form : PageElement)
    (form_data : gmap string string) : Fallible Request :=
  let action := bs4.get_default "action" EmptyString form in
  let method := Str.lower (bs4.get_default "method" "get" form) in
  submit_url ← (if truthy action
                then urllib_parse.urljoin check_host current_url action
                else Ok current_url);
  let form_fields := form_data ∪ seed_fields form in
  Ok (mkRequest (if String.eqb method "post" then POST else GET)
                submit_url form_fields 30).

(** The loop [for field_name, value in form_data.items()] of the browser
    branch. *)
Fixpoint type_fields (items : list (string * string)) : Bot unit :=
  match items with
  | [] => ret tt
  | (field_name, value) :: rest =>
      field ← find (field_selector field_name) 10;
      match field with
      | Some field => type_text (ByElement field) value true;; ret tt
      | None => ret tt
      end;;
      type_fields rest
  end.

Definition submit_form (form_data : gmap string string) (form_selector : string)
  : Bot bool :=
  try_except
    (s ← self;
     match browser_mode s with
     | Some _ =>
         form ← find form_selector 10;
         match form with
         | None => ret false
         | Some form =>
             type_fields (map_to_list form_data);;
             submit_btn ← find ("input[type=" +:+ dq +:+ "submit" +:+ dq
                                 +:+ "], button[type=" +:+ dq +:+ "submit" +:+ dq +:+ "]") 10;
             match submit_btn with
             | Some submit_btn => click (ByElement submit_btn) false
             | None =>
                 match form with
                 | BrowserElement e => act (fun w => element_submit w e)
                 | SoupElement _ => not_callable
                 end;;
                 ret true
             end
         end
     | None =>
         match current_soup s with
         | None => ret false
         | Some soup =>
             found ← lift (soup_select soup form_selector);
             match head found with
             | None => ret false
             | Some form =>
                 request ← lift (form_request (current_url s) form form_data);
                 response ← session_send request;
                 if status_code response =? 200 then
                   assign (with_current_url (response_url response));;
                   soup' ← lift (BeautifulSoup (response_content response));
                   assign (with_current_soup (Some soup'));;
                   _random_delay;;
                   ret true
                 else ret false
             end
         end
     end)
    (fun e => logger_error ("Form submission failed: " +:+ e);; ret false).

(** [Keys.RETURN], U+E006. *)
Definition Keys_RETURN : string :=
  String (ascii_of_nat 238) (String (ascii_of_nat 128) (String (ascii_of_nat 134) EmptyString)).

Definition search_form_selector : string :=
  "form[action=" +:+ dq +:+ "/search" +:+ dq +:+ "]".

(** The part [search_google] and [search_bing] share once the start page
    is loaded: type into the box in browser mode, submit the form
    otherwise. *)
Definition run_search (box_selector query : string) : Bot bool :=
  s ← self;
  match browser_mode s with
  | Some _ =>
      search_box ← find box_selector 10;
      match search_box with
      | Some search_box =>
          type_text (ByElement search_box) query true;;
          match search_box with
          | BrowserElement e => act (fun w => element_send_keys w e Keys_RETURN)
          | SoupElement _ => not_callable
          end;;
          ret true
      | None => ret false
      end
  | None => submit_form {[ "q" := query ]} search_form_selector
  end.

Definition search_google (query : string) : Bot bool :=
  try_except
    (logger_info ("Searching Google for: " +:+ query);;
     loaded ← goto "https://www.google.com";
     if negb loaded then ret false
     else
       consent_btn ← find ("button[id*=" +:+ dq +:+ "accept" +:+ dq
                            +:+ "], button[id*=" +:+ dq +:+ "agree" +:+ dq +:+ "]") 3;
       s ← self;
       match consent_btn with
       | Some consent_btn =>
           if use_browser s then click (ByElement consent_btn) false;; ret tt
           else ret tt
       | None => ret tt
       end;;
       run_search ("input[name=" +:+ dq +:+ "q" +:+ dq +:+ "], textarea[name="
                   +:+ dq +:+ "q" +:+ dq +:+ "]") query)
    (fun e => logger_error ("Google search failed: " +:+ e);; ret false).

Definition search_bing (query : string) : Bot bool :=
  try_except
    (logger_info ("Searching Bing for: " +:+ query);;
     loaded ← goto "https://www.bing.com";
     if negb loaded then ret false
     else run_search ("input[name=" +:+ dq +:+ "q" +:+ dq +:+ "]") query)
    (fun e => logger_error ("Bing search failed: " +:+ e);; ret false).

(** ** Extraction *)

Record LinkRecord : Type := mkLink {
  link_url : string; link_text : string; link_title : string }.

Record ImageRecord : Type := mkImage {
  image_url : string; image_alt : string; image_title : string }.

(** [elem.get(attr, '')] as written in the transport-only branches. *)
Definition soup_get (element : Element) (attr : string) : Bot string :=
  match element with
  | SoupElement t => ret (bs4.get_default attr EmptyString t)
  | BrowserElement _ => no_attribute "get"
  end.

Definition soup_get_text (element : Element) : Bot string :=
  match element with
  | SoupElement t => ret (bs4.get_text true t)
  | BrowserElement _ => no_attribute "get_text"
  end.

(** The loop [for i, link_elem in enumerate(link_elements)]; [i] counts
    from 0 and [links] is the list built so far. *)
Fixpoint each_link (link_elements : list Element) (i : nat) (links : list LinkRecord)
  : Bot (list LinkRecord) :=
  match link_elements with
  | [] => ret links
  | link_elem :: rest =>
      links ←
        try_except
          (s ← self;
           '(href, text, title) ←
             match browser_mode s with
             | Some _ =>
                 href ← get_attribute (ByElement link_elem) "href";
                 text ← get_text (ByElement link_elem);
                 title ← get_attribute (ByElement link_elem) "title";
                 ret (href, text, title)
             | None =>
                 href ← soup_get link_elem "href";
                 text ← soup_get_text link_elem;
                 title ← soup_get link_elem "title";
                 ret (href, text, title)
             end;
           if truthy href then
             full_url ← lift (urllib_parse.urljoin check_host (current_url s) href);
             ret (links ++ [mkLink full_url text title])
           else ret links)
          (fun e =>
             logger_warning ("Failed to process link " +:+ pretty (S i) +:+ ": " +:+ e);;
             ret links);
      each_link rest (S i) links
  end.

(** The outer [try] of [extract_links] and [extract_images] has nothing
    to catch: [find_all] and every turn of the loop handle their own
    exceptions, so the methods are written without it. *)
Definition extract_links : Bot (list LinkRecord) :=
  logger_info "🔗 EXTRACTING LINKS";;
  _log_activity "EXTRACTING ALL LINKS FROM PAGE";;
  link_elements ← find_all "a[href]";
  links ← each_link link_elements 0 [];
  logger_info ("✅ EXTRACTED " +:+ pretty (length links) +:+ " VALID LINKS");;
  _log_activity ("LINK EXTRACTION COMPLETE - Found " +:+ pretty (length links) +:+ " links");;
  ret links.

Fixpoint each_image (img_elements : list Element) (i : nat) (images : list ImageRecord)
  : Bot (list ImageRecord) :=
  match img_elements with
  | [] => ret images
  | img :: rest =>
      images ←
        try_except
          (s ← self;
           '(src, alt, title) ←
             match browser_mode s with
             | Some _ =>
                 src ← get_attribute (ByElement img) "src";
                 alt ← get_attribute (ByElement img) "alt";
                 title ← get_attribute (ByElement img) "title";
                 ret (src, alt, title)
             | None =>
                 src ← soup_get img "src";
                 alt ← soup_get img "alt";
                 title ← soup_get img "title";
                 ret (src, alt, title)
             end;
           if truthy src then
             full_url ← lift (urllib_parse.urljoin check_host (current_url s) src);
             ret (images ++ [mkImage full_url alt title])
           else ret images)
          (fun e =>
             logger_warning ("Failed to process image " +:+ pretty (S i) +:+ ": " +:+ e);;
             ret images);
      each_image rest (S i) images
  end.

Definition extract_images : Bot (list ImageRecord) :=
  logger_info "🖼️ EXTRACTING IMAGES";;
  _log_activity "EXTRACTING ALL IMAGES FROM PAGE";;
  img_elements ← find_all "img";
  images ← each_image img_elements 0 [];
  logger_info ("✅ EXTRACTED " +:+ pretty (length images) +:+ " VALID IMAGES");;
  _log_activity ("IMAGE EXTRACTION COMPLETE - Found " +:+ pretty (length images) +:+ " images");;
  ret images.

(** ** Page information *)

Record PageInfo : Type := mkInfo {
  info_url : string;
  info_title : string;
  info_description : string;
  info_keywords : string;
  links_count : nat;
  images_count : nat;
  forms_count : nat;
  text_length : nat;
  info_mode : string }.

Definition with_title (v : string) (i : PageInfo) : PageInfo :=
  mkInfo (info_url i) v (info_description i) (info_keywords i) (links_count i)
         (images_count i) (forms_count i) (text_length i) (info_mode i).

Definition with_description (v : string) (i : PageInfo) : PageInfo :=
  mkInfo (info_url i) (info_title i) v (info_keywords i) (links_count i)
         (images_count i) (forms_count i) (text_length i) (info_mode i).

Definition with_keywords (v : string) (i : PageInfo) : PageInfo :=
  mkInfo (info_url i) (info_title i) (info_description i) v (links_count i)
         (images_count i) (forms_count i) (text_length i) (info_mode i).

Definition with_counts (links images forms text : nat) (i : PageInfo) : PageInfo :=
  mkInfo (info_url i) (info_title i) (info_description i) (info_keywords i)
         links images forms text (info_mode i).

(** [desc_meta.get('content', '') if desc_meta else ''] for the [meta]
    tag of the given name. *)
Definition meta_content (name : string) (soup : PageElement) : string :=
  match bs4.find_with_attr "meta" "name" name soup with
  | Some meta => bs4.get_default "content" EmptyString meta
  | None => EmptyString
  end.

(** The assignments of [get_page_info] that cannot raise: title (kept
    when the browser already gave one), description, keywords. *)
Definition info_head (soup : PageElement) (info : PageInfo) : PageInfo :=
  let info :=
    match bs4.find "title" soup with
    | Some title_elem =>
        if truthy (info_title info) then info
        else with_title (bs4.get_text true title_elem) info
    | None => info
    end in
  let info := with_description (meta_content "description" soup) info in
  with_keywords (meta_content "keywords" soup) info.

(** The [except] clause of [get_page_info]: the dictionary is returned
    as far as it was filled. *)
Definition info_failed (info : PageInfo) (e : string) : Bot PageInfo :=
  let error_msg := "Page info extraction failed: " +:+ e in
  logger_error error_msg;;
  _log_activity ("ERROR: " +:+ error_msg);;
  ret info.

(** The block under [if soup:]. *)
Definition info_from_soup (soup : option PageElement) (info : PageInfo) : Bot PageInfo :=
  match soup with
  | None => ret info
  | Some soup =>
      let info := info_head soup info in
      match soup_select soup "a[href]" with
      | Raise e => info_failed info e
      | Ok links =>
          match soup_select soup "img" with
          | Raise e => info_failed info e
          | Ok images =>
              match soup_select soup "form" with
              | Raise e => info_failed info e
              | Ok forms =>
                  let text_content := bs4.get_text false soup in
                  let info := with_counts (length links) (length images) (length forms)
                                (String.length (Str.strip text_content)) info in
                  logger_info ("🔍 FOUND: " +:+ pretty (links_count info) +:+ " links, "
                               +:+ pretty (images_count info) +:+ " images, "
                               +:+ pretty (forms_count info) +:+ " forms");;
                  logger_info ("📝 TEXT LENGTH: " +:+ pretty (text_length info) +:+ " characters");;
                  _log_activity ("PAGE ANALYSIS COMPLETE - Links: " +:+ pretty (links_count info)
                                 +:+ ", Images: " +:+ pretty (images_count info));;
                  ret info
              end
          end
      end
  end.

Definition get_page_info : Bot PageInfo :=
  logger_info "📊 EXTRACTING PAGE INFORMATION";;
  _log_activity "ANALYZING PAGE DATA";;
  s ← self;
  let info :=
    mkInfo (current_url s) EmptyString EmptyString EmptyString 0 0 0 0
           (match browser_mode s with Some _ => "browser" | None => "requests" end) in
  match browser_mode s with
  | Some d =>
      match driver_title (world s) d with
      | Raise e => info_failed info e
      | Ok title =>
          let info := with_title title info in
          match driver_page_source (world s) d with
          | Raise e => info_failed info e
          | Ok html =>
              match BeautifulSoup html with
              | Raise e => info_failed info e
              | Ok soup => info_from_soup (Some soup) info
              end
          end
      end
  | None => info_from_soup (current_soup s) info
  end.

(** ** Saving, closing, the context manager *)

Definition save_page (filename : option string) : Bot string :=
  try_except
    (s ← self;
     let filename :=
       match filename with
       | Some f => if truthy f then f
                   else "page_" +:+ strftime (world s) "%Y%m%d_%H%M%S" +:+ ".html"
       | None => "page_" +:+ strftime (world s) "%Y%m%d_%H%M%S" +:+ ".html"
       end in
     html ← match browser_mode s with
            | Some d => observe (fun w => driver_page_source w d)
            | None => ret (match current_soup s with
                           | Some soup => soup_str soup
                           | None => EmptyString
                           end)
            end;
     act (fun w => write_file w filename html);;
     logger_info ("Page saved: " +:+ filename);;
     ret filename)
    (fun e => logger_error ("Save page failed: " +:+ e);; ret EmptyString).

Definition screenshot (filename : option string) : Bot string :=
  s ← self;
  match browser_mode s with
  | None => logger_warning "Screenshot requires browser mode";; ret EmptyString
  | Some d =>
      try_except
        (s ← self;
         let filename :=
           match filename with
           | Some f => if truthy f then f
                       else "screenshot_" +:+ strftime (world s) "%Y%m%d_%H%M%S" +:+ ".png"
           | None => "screenshot_" +:+ strftime (world s) "%Y%m%d_%H%M%S" +:+ ".png"
           end in
         act (fun w => driver_save_screenshot w d filename);;
         logger_info ("Screenshot saved: " +:+ filename);;
         ret filename)
        (fun e => logger_error ("Screenshot failed: " +:+ e);; ret EmptyString)
  end.

Definition close : Bot unit :=
  try_except
    (s ← self;
     match driver s with
     | Some d => act (fun w => driver_quit w d);; logger_info "Browser closed"
     | None => ret tt
     end;;
     act (fun w => session_close w (session s));;
     logger_info "Session closed")
    (fun e => logger_error ("Close failed: " +:+ e)).

(** [with UltimateBot(...) as bot: body]: [__enter__] starts the browser,
    [__exit__] closes whether or not the body raised, and a raise goes on
    to the caller. *)
Definition with_bot {A} (bot : UltimateBot) (body : Bot A) : UltimateBot * Fallible A :=
  match start_browser bot with
  | (s, Raise e) => (s, Raise e)
  | (s, Ok _) => let '(s', r) := body s in (fst (close s'), r)
  end.

(** ** The remaining public methods *)

Definition scroll (direction : string) (pixels : Z) : Bot unit :=
  s ← self;
  match browser_mode s with
  | None => ret tt
  | Some d =>
      try_except
        (let run (script : string) : Bot unit :=
           act (fun w => driver_execute_script w d script None);; ret tt in
         (if String.eqb direction "down" then
            run ("window.scrollBy(0, " +:+ pretty pixels +:+ ");")
          else if String.eqb direction "up" then
            run ("window.scrollBy(0, -" +:+ pretty pixels +:+ ");")
          else if String.eqb direction "top" then
            run "window.scrollTo(0, 0);"
          else if String.eqb direction "bottom" then
            run "window.scrollTo(0, document.body.scrollHeight);"
          else ret tt);;
         _random_delay)
        (fun e => logger_error ("Scroll failed: " +:+ e))
  end.

Definition wait_for (selector : string) (timeout : Z) : Bot bool :=
  s ← self;
  match browser_mode s with
  | Some d =>
      try_except
        (act (fun w => wait_presence w d timeout selector);; ret true)
        (fun _ => ret false)
  | None =>
      found ← find selector 10;
      ret (bool_decide (is_Some found))
  end.

Definition execute_js (script : string) : Bot (option JsValue) :=
  s ← self;
  match browser_mode s with
  | None => logger_warning "JavaScript execution requires browser mode";; ret None
  | Some d =>
      try_except
        (v ← act (fun w => driver_execute_script w d script None); ret (Some v))
        (fun e => logger_error ("JavaScript execution failed: " +:+ e);; ret None)
  end.

Definition get_cookies : Bot (list Cookie) :=
  try_except
    (s ← self;
     match browser_mode s with
     | Some d => observe (fun w => driver_get_cookies w d)
     | None => observe (fun w => session_cookies w (session s))
     end)
    (fun e => logger_error ("Get cookies failed: " +:+ e);; ret []).

Definition get_current_url : Bot string :=
  s ← self; ret (current_url s).

(** ** Content classification *)

Record Analysis : Type := mkAnalysis {
  platform : string;
  post_type : string;
  content_indicators : list string;
  meta_data : gmap string string;
  dynamic_content : bool }.

Definition detect_platform (url_lower : string) : string * string :=
  if (Str.contains "x.com" url_lower || Str.contains "twitter.com" url_lower)%bool then
    ("twitter/x", if Str.contains "/status/" url_lower then "tweet" else "unknown")
  else if Str.contains "facebook.com" url_lower then ("facebook", "unknown")
  else if Str.contains "instagram.com" url_lower then ("instagram", "unknown")
  else if Str.contains "linkedin.com" url_lower then ("linkedin", "unknown")
  else ("unknown", "unknown").

(** The loop over the [script] tags, left at the first framework found. *)
Definition framework_script (script : PageElement) : bool :=
  let src := bs4.get_default "src" EmptyString script in
  (truthy src &&
   existsb (fun framework => Str.contains framework src)
           ["react"; "vue"; "angular"; "client-web"])%bool.

(** One turn of the loop over the [meta] tags. *)
Definition harvest_meta (meta_data : gmap string string) (meta : PageElement)
  : gmap string string :=
  let property_val := bs4.get_default "property" EmptyString meta in
  let name_val := bs4.get_default "name" EmptyString meta in
  let content_val := bs4.get_default "content" EmptyString meta in
  if (Str.startswith "og:" property_val || Str.startswith "twitter:" property_val)%bool
  then <[property_val := content_val]> meta_data
  else if Str.among name_val ["description"; "keywords"; "author"]
       then <[name_val := content_val]> meta_data
       else meta_data.

Definition analyze_soup (soup : option PageElement) (a : Analysis) : Analysis :=
  match soup with
  | None => a
  | Some soup =>
      let dynamic := existsb framework_script (bs4.find_all ["script"] soup) in
      let indicators :=
        (if dynamic then ["JavaScript framework detected"] else [])
          ++ (if Nat.ltb (String.length (Str.strip (bs4.get_text false soup))) 1000
              then ["Minimal text content - likely requires JavaScript"] else []) in
      mkAnalysis (platform a) (post_type a) indicators
                 (fold_left harvest_meta (bs4.find_all ["meta"] soup) (meta_data a))
                 dynamic
  end.

(** Nothing inside the [try] of this method can raise; it is written
    without it. *)
Definition analyze_social_media_content : Bot Analysis :=
  logger_info "📱 ANALYZING SOCIAL MEDIA CONTENT";;
  _log_activity "ANALYZING SOCIAL MEDIA PATTERNS";;
  s ← self;
  let '(platform, post_type) := detect_platform (Str.lower (current_url s)) in
  let analysis :=
    analyze_soup (current_soup s) (mkAnalysis platform post_type [] ∅ false) in
  let dynamic := if dynamic_content analysis then "True" else "False" in
  logger_info ("🔍 PLATFORM: " +:+ platform +:+ ", TYPE: " +:+ post_type);;
  logger_info ("🎭 DYNAMIC CONTENT: " +:+ dynamic);;
  _log_activity ("SOCIAL MEDIA ANALYSIS - Platform: " +:+ platform
                 +:+ ", Dynamic: " +:+ dynamic);;
  ret analysis.

(** ** Batch processing and the command line *)

Definition nl : string := String (ascii_of_nat 10) EmptyString.

Definition say (line : string) : Bot unit := advance (fun w => print w line).

(** One entry of [results]. *)
Inductive Result : Type :=
| Loaded (url : string) (info : PageInfo) (links : list LinkRecord)
         (images : list ImageRecord) (saved_file : option string)
| Failed (url : string).

Definition result_url (r : Result) : string :=
  match r with
  | Loaded url _ _ _ _ => url
  | Failed url => url
  end.

Definition result_success (r : Result) : bool :=
  match r with
  | Loaded _ _ _ _ _ => true
  | Failed _ => false
  end.

(** The loop [for i, url in enumerate(urls_list, 1)]; [total] is
    [len(urls_list)]. *)
Fixpoint each_url (urls : list string) (i total : nat)
    (want_links want_images save_pages : bool) (results : list Result)
  : Bot (list Result) :=
  match urls with
  | [] => ret results
  | url :: rest =>
      say (nl +:+ "[" +:+ pretty i +:+ "/" +:+ pretty total +:+ "] Processing: " +:+ url);;
      loaded ← goto url;
      result ←
        (if (loaded : bool) then
           info ← get_page_info;
           links ← (if want_links then extract_links else ret []);
           images ← (if want_images then extract_images else ret []);
           saved_file ← (if save_pages then f ← save_page None; ret (Some f) else ret None);
           say ("  Title: " +:+ info_title info);;
           say ("  Links: " +:+ pretty (links_count info));;
           say ("  Images: " +:+ pretty (images_count info));;
           ret (Loaded url info links images saved_file)
         else
           say ("  Failed to load: " +:+ url);;
           ret (Failed url));
      each_url rest (S i) total want_links want_images save_pages (results ++ [result])
  end.

(** [process_multiple_urls] run from the outside state [w]; the bot is
    given back as it was when the [with] block was left. *)
Definition process_multiple_urls (urls_list : list string)
    (browser_mode want_links want_images save_pages use_tor : bool) (w : Ext)
  : UltimateBot * Fallible (list Result) :=
  with_bot (__init__ w browser_mode false true use_tor)
           (each_url urls_list 1 (length urls_list) want_links want_images save_pages []).

(** The [argparse] namespace. *)
Record Args : Type := mkArgs {
  args_url : option string;
  args_urls : option (list string);
  args_search : option string;
  args_bing : option string;
  args_browser : bool;
  args_headless : bool;
  args_screenshot : bool;
  args_info : bool;
  args_save : bool;
  args_links : bool;
  args_images : bool;
  args_interactive : bool;
  args_batch : bool;
  args_tor : bool }.

(** Truthiness of an optional string argument: given and not empty. *)
Definition given (o : option string) : option string :=
  match o with
  | Some v => if truthy v then Some v else None
  | None => None
  end.

(** The list [main] ships with. *)
Definition default_urls_to_process : list string :=
  ["https://x.com/Hitansh54/status/1931754193489957133";
   "https://x.com/Hitansh54/status/1931410374139777334";
   "https://x.com/Hitansh54/status/1931399970139296013";
   "https://x.com/Hitansh54/status/1930697596261060654"].

(** The chain [if args.search ... elif args.bing ... elif args.url ...
    else ...] of the single-URL path. *)
Definition navigate (urls_to_process : list string) (args : Args) : Bot unit :=
  match given (args_search args) with
  | Some query => search_google query;; ret tt
  | None =>
      match given (args_bing args) with
      | Some query => search_bing query;; ret tt
      | None =>
          match given (args_url args) with
          | Some url => goto url;; ret tt
          | None =>
              goto (match urls_to_process with
                    | first :: _ => first
                    | [] => "https://www.google.com"
                    end);;
              ret tt
          end
      end
  end.

Fixpoint say_each {A} (line : A -> string) (items : list A) : Bot unit :=
  match items with
  | [] => ret tt
  | x :: rest => say (line x);; say_each line rest
  end.

Definition info_items (info : PageInfo) : list (string * string) :=
  [("url", info_url info); ("title", info_title info);
   ("description", info_description info); ("keywords", info_keywords info);
   ("links_count", pretty (links_count info));
   ("images_count", pretty (images_count info));
   ("forms_count", pretty (forms_count info));
   ("text_length", pretty (text_length info)); ("mode", info_mode info)].

(** The body of the [with] block of the single-URL path. *)
Definition single_run (urls_to_process : list string) (args : Args) : Bot unit :=
  navigate urls_to_process args;;
  when (args_info args)
    (info ← get_page_info;
     say (nl +:+ "Page Information:");;
     say_each (fun kv => "  " +:+ kv.1 +:+ ": " +:+ kv.2) (info_items info));;
  when (args_links args)
    (links ← extract_links;
     say (nl +:+ "Found " +:+ pretty (length links) +:+ " links:");;
     say_each (fun link => "  " +:+ Str.take 60 (link_text link) +:+ " -> " +:+ link_url link)
              (take 20 links));;
  when (args_images args)
    (images ← extract_images;
     say (nl +:+ "Found " +:+ pretty (length images) +:+ " images:");;
     say_each (fun img => "  " +:+ Str.take 40 (image_alt img) +:+ " -> " +:+ image_url img)
              (take 20 images));;
  when (args_save args)
    (filename ← save_page None;
     say ("Page saved: " +:+ filename));;
  when (args_screenshot args)
    (filename ← screenshot None;
     say ("Screenshot: " +:+ filename)).

(** What a call of [main] came to.  The interactive shell reads the
    console and is not part of this development: [main] only records that
    it was entered. *)
Inductive Ran : Type :=
| RanInteractive
| RanMultiple (bot : UltimateBot) (results : Fallible (list Result))
| RanSingle (bot : UltimateBot).

Definition main (urls_to_process : list string) (args : Args) (w : Ext) : Ran :=
  if args_interactive args then RanInteractive
  else if args_batch args then
    let w := print w ("Processing " +:+ pretty (length urls_to_process)
                      +:+ " URLs in batch mode...") in
    let '(bot, results) :=
      process_multiple_urls urls_to_process (args_browser args) (args_links args)
        (args_images args) (args_save args) (args_tor args) w in
    RanMultiple bot results
  else
    match args_urls args with
    | Some (u :: us) =>
        let w := print w ("Processing " +:+ pretty (length (u :: us)) +:+ " URLs...") in
        let '(bot, results) :=
          process_multiple_urls (u :: us) (args_browser args) (args_links args)
            (args_images args) (args_save args) false w in
        RanMultiple bot results
    | _ =>
        let '(bot, r) :=
          with_bot (__init__ w (args_browser args) (args_headless args) true false)
                   (single_run urls_to_process args) in
        match r with
        | Ok _ => RanSingle bot
        | Raise e => RanSingle (with_world (print (world bot) ("Error: " +:+ e)) bot)
        end
    end.

End Engine.

(* ===================================================================== *)
(** * The run supervisor ([run_bot_loop.py]) *)
(* ===================================================================== *)

Module Supervisor.

(** What the script does to the outside, in order. *)
Inductive Effect : Type :=
| LogOpen (path mode : string)
| Print (text ending : string)
| LogWrite (text : string)
| LogFlush
| System (command : string)
| Sleep (seconds : Z)
| Popen (command : string)
| Spawn (argv : list string)
| StdoutClose
| Wait (returncode : Z)
| LogClose.

(** A worker that was spawned and ran to its exit: the lines read from
    its merged output until end of file, and its exit status. *)
Record Child : Type := mkChild {
  output : list string;
  returncode : Z }.

(** What the outside answers during one turn of the loop: the status of
    the restart command, what [curl] wrote, and the worker (or the
    exception of [subprocess.Popen] when it cannot be spawned). *)
Record Turn : Type := mkTurn {
  restart_status : Z;
  curl_stdout : string;
  worker : Fallible Child }.

Definition budget : nat := 200.

Definition line (text : string) : string := text +:+ nl.

Definition announce (text : string) : list Effect :=
  [Print text nl; LogWrite (line text); LogFlush].

(** The head of a turn up to the restart of the proxy and its settle
    time. *)
Definition rotate (i : nat) : list Effect :=
  let header := nl +:+ "--- Run " +:+ pretty (i + 1)%nat +:+ "/200 ---" +:+ nl in
  [Print header nl; LogWrite header; LogFlush]
    ++ announce "🔄 Restarting Tor service..."
    ++ [System "sudo service tor restart"; Sleep 10].

Definition probe (curl_stdout : string) : list Effect :=
  announce "🌐 Fetching new Tor IP..."
    ++ [Popen "curl --socks5 127.0.0.1:9050 https://api.ipify.org"]
    ++ announce ("✅ New Tor IP: " +:+ Str.strip curl_stdout).

Definition launch : list Effect :=
  [Print (line "🤖 Launching ultimate_bot.py via Tor...") nl;
   LogWrite (line "🤖 Launching ultimate_bot.py via Tor...");
   LogFlush;
   Spawn ["python3"; "-u"; "ultimate_bot_tor.py"; "--batch"; "--headless";
          "--browser"; "--tor"]].

(** The copying loop over [process.stdout.readline] up to end of file. *)
Definition copy_output (lines : list string) : list Effect :=
  flat_map (fun l => [Print l EmptyString; LogWrite l; LogFlush]) lines.

Definition cooldown : list Effect :=
  [Print (line "⏳ Waiting 300 seconds before next run...") nl;
   LogWrite (line (line "⏳ Waiting 300 seconds before next run..."));
   LogFlush;
   Sleep 300].

(** The body of the loop for index [i]. *)
Definition turn (i : nat) (t : Turn) : list Effect * Fallible unit :=
  let upto_spawn := rotate i ++ probe (curl_stdout t) ++ launch in
  match worker t with
  | Raise e => (upto_spawn, Raise e)
  | Ok child =>
      (upto_spawn ++ copy_output (output child)
         ++ [StdoutClose; Wait (returncode child)] ++ cooldown, Ok tt)
  end.

(** [for i in ...]: an exception leaves the loop, nothing else does. *)
Fixpoint loop (indices : list nat) (outside : nat -> Turn) : list Effect * Fallible unit :=
  match indices with
  | [] => ([], Ok tt)
  | i :: rest =>
      match turn i (outside i) with
      | (effects, Raise e) => (effects, Raise e)
      | (effects, Ok _) =>
          let '(later, r) := loop rest outside in (effects ++ later, r)
      end
  end.

(** The whole script. *)
Definition run_bot_loop (outside : nat -> Turn) : list Effect * Fallible unit :=
  match loop (seq 0 budget) outside with
  | (effects, Ok _) => (LogOpen "full_run_log.txt" "a" :: effects ++ [LogClose], Ok tt)
  | (effects, Raise e) => (LogOpen "full_run_log.txt" "a" :: effects, Raise e)
  end.

(** The restarts of the proxy in a trace. *)
Definition is_restart (e : Effect) : bool :=
  match e with
  | System command => String.eqb command "sudo service tor restart"
  | _ => false
  end.

Definition restarts (effects : list Effect) : nat :=
  length (List.filter is_restart effects).

(** Every write to the log is followed at once by a flush. *)
Fixpoint flushed (effects : list Effect) : bool :=
  match effects with
  | [] => true
  | LogWrite _ :: rest =>
      match rest with
      | LogFlush :: _ => flushed rest
      | _ => false
      end
  | _ :: rest => flushed rest
  end.

(** The seconds a trace spends sleeping. *)
Fixpoint slept (effects : list Effect) : Z :=
  match effects with
  | [] => 0
  | Sleep seconds :: rest => seconds + slept rest
  | _ :: rest => slept rest
  end.



End Supervisor.

(* ===================================================================== *)
(** * A laboratory outside, for running the definitions *)
(* ===================================================================== *)

Module Lab.

Definition is_word (s : string) : bool :=
  (truthy s && Str.all_chars (fun c => (Str.is_alpha c || Str.is_digit c)%bool) s)%bool.

(** The two selector shapes the bot passes without quoting: a tag name
    ([img], [form]) and a tag name with a required attribute
    ([a[href]]). *)
Definition parse_selector (selector : string) : option (string * option string) :=
  match Str.cut "[" selector with
  | None => if is_word selector then Some (selector, None) else None
  | Some (name, rest) =>
      match Str.cut "]" rest with
      | Some (attr, EmptyString) =>
          if (is_word name && is_word attr)%bool then Some (name, Some attr) else None
      | _ => None
      end
  end.

(** A selector engine for those shapes; every other selector is refused
    the way the real engine refuses a malformed one. *)
Definition select (soup : PageElement) (selector : string) : Fallible (list PageElement) :=
  match parse_selector selector with
  | Some (name, None) => Ok (bs4.find_all [name] soup)
  | Some (name, Some attr) =>
      Ok (List.filter (fun t => bool_decide (is_Some (bs4.get attr t)))
                      (bs4.find_all [name] soup))
  | None => Raise ("Invalid selector: " +:+ selector)
  end.

(** An outside without state: [fetch] answers the HTTP requests, [parse]
    is the markup parser, [chrome] tells whether a browser can be
    started, and [present] which selectors the browser's page matches
    (an element is named by the selector that located it).  The only
    node of the Document a caller holds there is the Document itself. *)
Definition outside (fetch : Request -> Fallible Response)
    (parse : string -> Fallible PageElement) (chrome : bool)
    (present : string -> bool) : World :=
  {| Ext := unit;
     Driver := unit;
     WebElement := string;
     BeautifulSoup := parse;
     soup_select := select;
     soup_str := fun _ => EmptyString;
     node_path := fun _ _ t =>
       if bool_decide (bs4.tag_name t = Some "[document]") then Some [] else None;
     check_host := fun _ => Ok tt;
     session_request := fun w _ r => (w, fetch r);
     session_close := fun w _ => (w, Ok tt);
     uc_Chrome := fun w _ => (w, if chrome then Ok tt else Raise "cannot connect to chrome");
     webdriver_Chrome := fun w _ => (w, if chrome then Ok tt else Raise "chromedriver not found");
     JsValue := unit;
     driver_execute_script := fun w _ _ _ => (w, Ok tt);
     driver_get_cookies := fun _ _ => Ok [];
     session_cookies := fun _ _ => Ok [];
     driver_get := fun w _ _ => (w, Ok tt);
     driver_current_url := fun _ _ => Ok "data:,";
     driver_page_source := fun _ _ => Ok EmptyString;
     driver_title := fun _ _ => Ok EmptyString;
     driver_find_elements := fun _ _ sel => Ok (if present sel then [sel] else []);
     driver_save_screenshot := fun w _ _ => (w, Ok tt);
     driver_quit := fun w _ => (w, Ok tt);
     wait_presence := fun w _ _ sel =>
       (w, if present sel then Ok sel else Raise "TimeoutException");
     element_click := fun w _ => (w, Ok tt);
     element_clear := fun w _ => (w, Ok tt);
     element_send_keys := fun w _ _ => (w, Ok tt);
     element_submit := fun w _ => (w, Ok tt);
     element_text := fun _ _ => Ok EmptyString;
     element_get_attribute := fun _ _ _ => Ok None;
     strftime := fun _ _ => "00:00:00";
     sleep_uniform := fun w _ _ => w;
     print := fun w _ => w;
     write_file := fun w _ _ => (w, Ok tt) |}.

Definition no_page (_ : Request) : Fallible Response := Raise "ConnectionError".
Definition no_parse (_ : string) : Fallible PageElement := Raise "ParserRejectedMarkup".

(** A server that answers every request with the given status and body. *)
Definition answers (status : Z) (body : string) (r : Request) : Fallible Response :=
  Ok (mkResponse status (req_url r) body body).

(** A parser that knows one document. *)
Definition parses (soup : PageElement) (_ : string) : Fallible PageElement := Ok soup.

Definition document (contents : list PageElement) : PageElement :=
  Tag "[document]" ∅ contents.

(** The page of the link scenario. *)
Definition two_links : PageElement :=
  document
    [Tag "html" ∅
       [Tag "body" ∅
          [Tag "a" {[ "href" := "/a" ]} [NavigableString "X"];
           Tag "a" {[ "href" := "http://ext/b" ]} [NavigableString "Y"]]]].

(** A form with a text field, a numeric field, a select and a textarea. *)
Definition numeric_input : PageElement :=
  Tag "input" (<[ "name" := "n" ]> (<[ "type" := "number" ]> {[ "value" := "5" ]})) [].

Definition order_form_tag : PageElement :=
  Tag "form" (<[ "action" := "/order" ]> {[ "method" := "post" ]})
    [Tag "input" (<[ "name" := "q" ]> (<[ "type" := "text" ]> {[ "value" := "tea" ]})) [];
     numeric_input;
     Tag "select" {[ "name" := "size" ]}
       [Tag "option" (<[ "value" := "l" ]> {[ "selected" := EmptyString ]})
          [NavigableString "Large"]];
     Tag "textarea" {[ "name" := "note" ]} [NavigableString "none"]].

Definition order_form : PageElement := document [order_form_tag].

(** What the shop is sent, and answers, when the order form is submitted
    with [q] set to [cats]. *)
Definition order_request : Request :=
  mkRequest POST "https://shop/order" (<[ "q" := "cats" ]> {[ "note" := "none" ]}) 30.

Definition order_answer : Fallible Response :=
  Ok (mkResponse 200 "https://shop/order"
        "<form action='/order' method='post'>...</form>"
        "<form action='/order' method='post'>...</form>").

(** A page with text only. *)
Definition plain_page : PageElement :=
  document [Tag "html" ∅ [Tag "body" ∅ [Tag "p" ∅ [NavigableString "hello"]]]].

Definition nothing (_ : string) : bool := false.

(** Outsides without a browser: a server that answers 201, one that
    answers 404, the site of the link scenario, a shop with the order
    form, a site with a plain page, and no network at all. *)
Definition created : World :=
  outside (answers 201 "<html></html>") (parses (document [])) false nothing.
Definition missing : World :=
  outside (answers 404 EmptyString) no_parse false nothing.
Definition site : World :=
  outside (answers 200 "<a href='/a'>X</a><a href='http://ext/b'>Y</a>")
          (parses two_links) false nothing.
Definition shop : World :=
  outside (answers 200 "<form action='/order' method='post'>...</form>")
          (parses order_form) false nothing.
Definition plain : World :=
  outside (answers 200 "<p>hello</p>") (parses plain_page) false nothing.
Definition offline : World := outside no_page no_parse false nothing.

(** An outside with a browser whose blank start page has its root
    element and nothing else. *)
Definition blank_browser : World :=
  outside no_page no_parse true (String.eqb "html").

(** A new bot in each of them: transport-only by choice, except the
    last two, which ask for a browser. *)
Definition created_bot : @UltimateBot created := @__init__ created tt false false true false.
Definition missing_bot : @UltimateBot missing := @__init__ missing tt false false true false.
Definition site_bot : @UltimateBot site := @__init__ site tt false false true false.
Definition shop_bot : @UltimateBot shop := @__init__ shop tt false false true false.
Definition plain_bot : @UltimateBot plain := @__init__ plain tt false false true false.
Definition offline_bot : @UltimateBot offline := @__init__ offline tt false false true false.
Definition hopeful_bot : @UltimateBot offline := @__init__ offline tt true false true false.
Definition browser_bot : @UltimateBot blank_browser :=
  (@start_browser blank_browser (@__init__ blank_browser tt true false true false)).1.

(** The bots of the site, the shop and the plain page once the page is
    loaded. *)
Definition site_loaded : @UltimateBot site := (@goto site "https://site/p" site_bot).1.
Definition shop_loaded : @UltimateBot shop := (@goto shop "https://shop/p" shop_bot).1.
Definition plain_loaded : @UltimateBot plain := (@goto plain "https://plain/" plain_bot).1.

(** A command line with [--batch] and [--urls] together. *)
Definition batch_and_urls : Args :=
  mkArgs None (Some ["https://example.org/"]) None None
         false false false false false false false false true false.

(** A supervisor's outside where every worker prints a line and exits
    with status 1. *)
Definition crashing (_ : nat) : Supervisor.Turn :=
  Supervisor.mkTurn 0 "203.0.113.7" (Ok (Supervisor.mkChild ["Traceback"] 1)).

(** A server whose pages the parser rejects. *)
Definition garbled : World :=
  outside (answers 200 "<<<") no_parse false nothing.
Definition garbled_bot : @UltimateBot garbled := @__init__ garbled tt false false true false.

(** A shop that answers a submission with a body the parser rejects. *)
Definition garbage : string := "%PDF-1.4".

Definition shop_then_garbage (r : Request) : Fallible Response :=
  match req_method r with
  | GET => answers 200 "<form action='/order' method='post'>...</form>" r
  | POST => answers 200 garbage r
  end.

Definition parses_but (rejected : string) (soup : PageElement) (body : string)
  : Fallible PageElement :=
  if String.eqb body rejected then Raise "ParserRejectedMarkup" else Ok soup.

Definition broken_shop : World :=
  outside shop_then_garbage (parses_but garbage order_form) false nothing.
Definition broken_shop_bot : @UltimateBot broken_shop :=
  @__init__ broken_shop tt false false true false.
Definition broken_shop_loaded : @UltimateBot broken_shop :=
  (@goto broken_shop "https://shop/p" broken_shop_bot).1.

(** A supervisor's outside where no worker can be spawned. *)
Definition unlaunchable (_ : nat) : Supervisor.Turn :=
  Supervisor.mkTurn 0 "203.0.113.7"
    (Raise "[Errno 2] No such file or directory: 'python3'").

(** A supervisor's outside where the first worker prints a line and
    exits with status 1, and no later worker can be spawned. *)
Definition flaky (i : nat) : Supervisor.Turn :=
  Supervisor.mkTurn 0 "203.0.113.7"
    match i with
    | O => Ok (Supervisor.mkChild ["Traceback"] 1)
    | S _ => Raise "[Errno 11] Resource temporarily unavailable"
    end.

(** An outside with a browser whose page parses to the plain page, and
    a bot there that has started the browser and loaded the page. *)
Definition plain_browser : World :=
  outside no_page (parses plain_page) true (String.eqb "html").
Definition plain_browser_loaded : @UltimateBot plain_browser :=
  (@goto plain_browser "https://plain/"
     (@start_browser plain_browser (@__init__ plain_browser tt true false true false)).1).1.

(** A command line with [--search], [--bing] and [--url] together. *)
Definition search_bing_and_url : Args :=
  mkArgs (Some "https://example.org/") None (Some "cats") (Some "dogs")
         false false false false false false false false false false.

End Lab.

(* ===================================================================== *)
(** * Vocabulary for the statements *)
(* ===================================================================== *)

(** The spec's reading of a successful status. *)
Definition is_2xx (status : Z) : bool := (200 <=? status) && (status <? 300).

Section Vocabulary.
Context {W : World}.
Implicit Types (s : UltimateBot).

(** [keeps f m]: running [m] leaves the component [f] of the object as
    it was, whether or not [m] raises. *)
Definition keeps {A B} (f : UltimateBot -> B) (m : Bot A) : Prop :=
  forall s, f (m s).1 = f s.

(** [total m]: [m] returns a value, it never raises. *)
Definition total {A} (m : Bot A) : Prop :=
  forall s, exists a, (m s).2 = Ok a.

(** [f] does not read the logs or the outside. *)
Definition core {B} (f : UltimateBot -> B) : Prop :=
  (forall v s, f (with_logger v s) = f s) /\
  (forall v s, f (with_activity_log v s) = f s) /\
  (forall v s, f (with_world v s) = f s).

(** [f] is a part of the object that navigation does not write: it reads
    neither the logs and the outside, nor the current page, nor the
    history of exchanges. *)
Definition settled {B} (f : UltimateBot -> B) : Prop :=
  core f /\
  (forall v s, f (with_current_url v s) = f s) /\
  (forall v s, f (with_current_soup v s) = f s) /\
  (forall v s, f (with_exchanges v s) = f s).

(** [f] reads neither the logs and the outside nor the Document. *)
Definition apart {B} (f : UltimateBot -> B) : Prop :=
  core f /\ (forall v s, f (with_current_soup v s) = f s).

(** [after m s Q]: the state and the outcome of running [m] from [s]
    satisfy [Q]. *)
Definition after {A} (m : Bot A) (s : UltimateBot)
    (Q : UltimateBot -> Fallible A -> Prop) : Prop :=
  Q (m s).1 (m s).2.

(** Everything of the object but the logs and the outside. *)
Definition essence (s : UltimateBot) :=
  (use_browser s, headless s, stealth s, use_tor s, driver s, session s,
   current_url s, current_soup s, exchanges s).

(** [s'] differs from [s] in the logs and the outside at most. *)
Definition agree (s s' : UltimateBot) : Prop := essence s' = essence s.

(** ** The current Document as data *)

(** The nodes of the Document a selector matches: none when no Document
    is held or when the engine refuses the selector. *)
Definition document_select (soup : option PageElement) (selector : string)
  : list PageElement :=
  match soup with
  | Some soup =>
      match soup_select soup selector with
      | Ok found => found
      | Raise _ => []
      end
  | None => []
  end.

(** The record a parsed anchor yields, if any: it needs a non-empty
    [href] that resolves against the base. *)
Definition link_record (base : string) (t : PageElement) : option LinkRecord :=
  let href := bs4.get_default "href" EmptyString t in
  if truthy href then
    match urllib_parse.urljoin check_host base href with
    | Ok full_url =>
        Some (mkLink full_url (bs4.get_text true t) (bs4.get_default "title" EmptyString t))
    | Raise _ => None
    end
  else None.

Definition image_record (base : string) (t : PageElement) : option ImageRecord :=
  let src := bs4.get_default "src" EmptyString t in
  if truthy src then
    match urllib_parse.urljoin check_host base src with
    | Ok full_url =>
        Some (mkImage full_url (bs4.get_default "alt" EmptyString t)
                      (bs4.get_default "title" EmptyString t))
    | Raise _ => None
    end
  else None.

Definition document_links (base : string) (soup : option PageElement) : list LinkRecord :=
  omap (link_record base) (document_select soup "a[href]").

Definition document_images (base : string) (soup : option PageElement) : list ImageRecord :=
  omap (image_record base) (document_select soup "img").

(** The page information read off a Document, given what the three
    counting selectors match in it. *)
Definition document_info (url : string) (soup : PageElement)
    (links images forms : list PageElement) : PageInfo :=
  mkInfo url
         match bs4.find "title" soup with
         | Some title_elem => bs4.get_text true title_elem
         | None => EmptyString
         end
         (meta_content "description" soup) (meta_content "keywords" soup)
         (length links) (length images) (length forms)
         (String.length (Str.strip (bs4.get_text false soup)))
         "requests".

(** The selector matches nothing in what the session looks at: the
    Document in transport-only mode, the browser's page otherwise. *)
Definition no_match (s : UltimateBot) (selector : string) : Prop :=
  match browser_mode s with
  | Some d => forall w, driver_find_elements w d selector = Ok []
  | None => exists soup, current_soup s = Some soup /\ soup_select soup selector = Ok []
  end.

(** ** Form fields *)

(** The name and default value a form element contributes to a
    transport-only submission: a named [input] of type text, email,
    password or hidden (text when the type is absent) gives its [value],
    a named [textarea] gives its text; every other element gives
    nothing. *)
Definition field_default (e : PageElement) : option (string * string) :=
  match bs4.get "name" e with
  | Some name =>
      if negb (truthy name) then None
      else if bool_decide (bs4.tag_name e = Some "input") then
        if Str.among (bs4.get_default "type" "text" e) ["text"; "email"; "password"; "hidden"]
        then Some (name, bs4.get_default "value" EmptyString e)
        else None
      else if bool_decide (bs4.tag_name e = Some "textarea") then
        Some (name, bs4.get_text false e)
      else None
  | None => None
  end.

(** The default of the last element, in document order, that contributes
    a field of the given name. *)
Definition last_default (name : string) (elements : list PageElement) : option string :=
  last (omap (fun e => match field_default e with
                       | Some (n, v) => if String.eqb n name then Some v else None
                       | None => None
                       end) elements).

(** The elements of a form that [submit_form] walks. *)
Definition form_controls (form : PageElement) : list PageElement :=
  bs4.find_all ["input"; "select"; "textarea"] form.

(** ** Sequences of calls *)

(** A call of a public method by the holder of the object. *)
Inductive Call : Type :=
| CallStartBrowser
| CallGoto (url : string)
| CallFind (selector : string) (timeout : Z)
| CallFindAll (selector : string)
| CallClick (target : Target) (use_js : bool)
| CallTypeText (target : Target) (text : string) (clear : bool)
| CallGetText (target : Target)
| CallGetAttribute (target : Target) (attr : string)
| CallSubmitForm (form_data : gmap string string) (form_selector : string)
| CallScroll (direction : string) (pixels : Z)
| CallScreenshot (filename : option string)
| CallSearchGoogle (query : string)
| CallSearchBing (query : string)
| CallExtractLinks
| CallExtractImages
| CallAnalyze
| CallGetPageInfo
| CallSavePage (filename : option string)
| CallWaitFor (selector : string) (timeout : Z)
| CallExecuteJs (script : string)
| CallGetCookies
| CallGetCurrentUrl
| CallGetTitle.

Definition perform (c : Call) : Bot unit :=
  match c with
  | CallStartBrowser => start_browser;; ret tt
  | CallGoto url => goto url;; ret tt
  | CallFind selector timeout => find selector timeout;; ret tt
  | CallFindAll selector => find_all selector;; ret tt
  | CallClick target use_js => click target use_js;; ret tt
  | CallTypeText target text clear => type_text target text clear;; ret tt
  | CallGetText target => get_text target;; ret tt
  | CallGetAttribute target attr => get_attribute target attr;; ret tt
  | CallSubmitForm form_data form_selector => submit_form form_data form_selector;; ret tt
  | CallScroll direction pixels => scroll direction pixels
  | CallScreenshot filename => screenshot filename;; ret tt
  | CallSearchGoogle query => search_google query;; ret tt
  | CallSearchBing query => search_bing query;; ret tt
  | CallExtractLinks => extract_links;; ret tt
  | CallExtractImages => extract_images;; ret tt
  | CallAnalyze => analyze_social_media_content;; ret tt
  | CallGetPageInfo => get_page_info;; ret tt
  | CallSavePage filename => save_page filename;; ret tt
  | CallWaitFor selector timeout => wait_for selector timeout;; ret tt
  | CallExecuteJs script => execute_js script;; ret tt
  | CallGetCookies => get_cookies;; ret tt
  | CallGetCurrentUrl => get_current_url;; ret tt
  | CallGetTitle => get_title;; ret tt
  end.

Fixpoint perform_all (calls : list Call) : Bot unit :=
  match calls with
  | [] => ret tt
  | c :: rest => perform c;; perform_all rest
  end.

(** ** What calls leave alone, and what only grows *)

(** [f] is a part of the object that [start_browser] does not write
    either: besides the logs and the outside it reads neither
    [use_browser] nor [driver]. *)
Definition unstarted {B} (f : UltimateBot -> B) : Prop :=
  core f /\
  (forall v s, f (with_use_browser v s) = f s) /\
  (forall v s, f (with_driver v s) = f s).

(** The calls that load a page. *)
Definition navigates (c : Call) : bool :=
  match c with
  | CallGoto _ | CallSubmitForm _ _ | CallSearchGoogle _ | CallSearchBing _ => true
  | _ => false
  end.

(** The page the session holds, with the history of its exchanges. *)
Definition page (s : UltimateBot) :=
  (current_url s, current_soup s, exchanges s).

(** What the constructor fixes. *)
Definition configuration (s : UltimateBot) :=
  (headless s, stealth s, use_tor s, session s).

(** [s'] has every record of [s], in the same order, and maybe more. *)
Definition older (s s' : UltimateBot) : Prop :=
  logger s `prefix_of` logger s' /\
  activity_log s `prefix_of` activity_log s' /\
  exchanges s `prefix_of` exchanges s'.

(** Running [m] only adds to the logs and to the history. *)
Definition grows {A} (m : Bot A) : Prop :=
  forall s, older s (m s).1.

(** What tells whether, and through what, the session talks to the
    network: the mode, the driver and the history of HTTP exchanges. *)
Definition traffic (s : UltimateBot) :=
  (use_browser s, driver s, exchanges s).

(** An initialiser that says it started a browser has set the driver. *)
Definition sets_driver (method : Bot bool) : Prop :=
  forall s, after method s (fun s' r => r = Ok true -> is_Some (driver s')).

(** What a search leaves in the history of exchanges: the GET for the
    start page of the engine and at most one more request, which carries
    the query as the field [q]. *)
Definition searched (start query : string) (s s' : UltimateBot) : Prop :=
  exists first_answer,
    exchanges s' = exchanges s ++ [(mkRequest GET start ∅ 30, first_answer)] \/
    exists request answer,
      exchanges s'
      = exchanges s ++ [(mkRequest GET start ∅ 30, first_answer); (request, answer)] /\
      req_fields request !! "q" = Some query.



(** The one call beside the loading ones that can touch the Document:
    [type_text] with [clear] on a parsed tag handed in by the caller. *)
Definition empties_a_node (c : Call) : bool :=
  match c with
  | CallTypeText (ByElement (SoupElement (Tag _ _ _))) _ true => true
  | _ => false
  end.

(** The URL of the page and the history of exchanges. *)
Definition address (s : UltimateBot) :=
  (current_url s, exchanges s).

End Vocabulary.

(* ===================================================================== *)
(** * Reasoning about methods *)
(* ===================================================================== *)

Section EngineFacts.
Context {W : World}.
Implicit Types (s : UltimateBot).

Lemma run_bind {A B} (m : Bot A) (k : A -> Bot B) s :
  (m ≫= k) s =
  match m s with
  | (s', Ok a) => k a s'
  | (s', Raise e) => (s', Raise e)
  end.
Proof. reflexivity. Qed.

Lemma run_try {A} (body : Bot A) (handler : string -> Bot A) s :
  try_except body handler s =
  match body s with
  | (s', Ok a) => (s', Ok a)
  | (s', Raise e) => handler e s'
  end.
Proof. reflexivity. Qed.

Lemma keeps_ret {A B} (f : UltimateBot -> B) (a : A) : keeps f (ret a).
Proof. intros s. reflexivity. Qed.

Lemma keeps_bind {A B C} (f : UltimateBot -> C) (m : Bot A) (k : A -> Bot B) :
  keeps f m -> (forall a, keeps f (k a)) -> keeps f (m ≫= k).
Proof.
  intros Hm Hk s. rewrite run_bind. specialize (Hm s).
  destruct (m s) as [s' [a|e]]; simpl in *.
  - rewrite Hk. exact Hm.
  - exact Hm.
Qed.

Lemma keeps_try {A B} (f : UltimateBot -> B) (body : Bot A) handler :
  keeps f body -> (forall e, keeps f (handler e)) -> keeps f (try_except body handler).
Proof.
  intros Hb Hh s. rewrite run_try. specialize (Hb s).
  destruct (body s) as [s' [a|e]]; simpl in *.
  - exact Hb.
  - rewrite Hh. exact Hb.
Qed.

Lemma keeps_self {B} (f : UltimateBot -> B) : keeps f self.
Proof. intros s. reflexivity. Qed.

Lemma keeps_lift {A B} (f : UltimateBot -> B) (r : Fallible A) : keeps f (lift r).
Proof. intros s. reflexivity. Qed.

Lemma keeps_observe {A B} (f : UltimateBot -> B) (g : Ext -> Fallible A) :
  keeps f (observe g).
Proof. intros s. reflexivity. Qed.

Lemma keeps_assign {B} (f : UltimateBot -> B) (g : UltimateBot -> UltimateBot) :
  (forall s, f (g s) = f s) -> keeps f (assign g).
Proof. intros H s. apply H. Qed.

Lemma keeps_act {A B} (f : UltimateBot -> B) (g : Ext -> Ext * Fallible A) :
  core f -> keeps f (act g).
Proof.
  intros (_ & _ & Hw) s. unfold act. destruct (g (world s)) as [w r]. apply Hw.
Qed.

Lemma keeps_advance {B} (f : UltimateBot -> B) (g : Ext -> Ext) :
  core f -> keeps f (advance g).
Proof. intros (_ & _ & Hw) s. apply Hw. Qed.

Lemma keeps_when {B} (f : UltimateBot -> B) (b : bool) (m : Bot unit) :
  keeps f m -> keeps f (when b m).
Proof. intros H. destruct b; [exact H | apply keeps_ret]. Qed.

Lemma keeps_logger_emit {B} (f : UltimateBot -> B) lvl msg :
  core f -> keeps f (logger_emit lvl msg).
Proof. intros (Hl & _ & _) s. apply Hl. Qed.

Lemma keeps__log_activity {B} (f : UltimateBot -> B) action :
  core f -> keeps f (_log_activity action).
Proof.
  intros Hc. pose proof Hc as (_ & Ha & _). unfold _log_activity.
  apply keeps_bind; [apply keeps_self | intros s0].
  apply keeps_bind; [apply keeps_assign; intros; apply Ha | intros _].
  apply keeps_when, keeps_advance, Hc.
Qed.

Lemma keeps__random_delay {B} (f : UltimateBot -> B) : core f -> keeps f _random_delay.
Proof. apply keeps_advance. Qed.

Lemma total_ret {A} (a : A) : total (ret a).
Proof. intros s. eauto. Qed.

Lemma total_bind {A B} (m : Bot A) (k : A -> Bot B) :
  total m -> (forall a, total (k a)) -> total (m ≫= k).
Proof.
  intros Hm Hk s. rewrite run_bind. destruct (Hm s) as [a Ha].
  destruct (m s) as [s' r]; simpl in Ha; subst r. apply Hk.
Qed.

Lemma total_try {A} (body : Bot A) handler :
  (forall e, total (handler e)) -> total (try_except body handler).
Proof.
  intros Hh s. rewrite run_try. destruct (body s) as [s' [a|e]]; [simpl; eauto | apply Hh].
Qed.

Lemma total_self : total self.
Proof. intros s. simpl. eauto. Qed.

Lemma total_assign g : total (assign g).
Proof. intros s. simpl. eauto. Qed.

Lemma total_advance g : total (advance g).
Proof. intros s. simpl. eauto. Qed.

Lemma total_when b m : total m -> total (when b m).
Proof. intros H. destruct b; [exact H | apply total_ret]. Qed.

Lemma total_logger_emit lvl msg : total (logger_emit lvl msg).
Proof. apply total_assign. Qed.

Lemma total__log_activity action : total (_log_activity action).
Proof.
  unfold _log_activity. apply total_bind; [apply total_self | intros s0].
  apply total_bind; [apply total_assign | intros _].
  apply total_when, total_advance.
Qed.

Lemma total__random_delay : total _random_delay.
Proof. apply total_advance. Qed.

Lemma core_use_browser : core use_browser.
Proof. repeat split. Qed.
Lemma core_driver : core driver.
Proof. repeat split. Qed.
Lemma core_session : core session.
Proof. repeat split. Qed.
Lemma core_current_url : core current_url.
Proof. repeat split. Qed.
Lemma core_current_soup : core current_soup.
Proof. repeat split. Qed.
Lemma core_exchanges : core exchanges.
Proof. repeat split. Qed.
Lemma core_browser_mode : core browser_mode.
Proof. repeat split. Qed.

Lemma apart_intro {B} (f : UltimateBot -> B) :
  core f -> (forall v s, f (with_current_soup v s) = f s) -> apart f.
Proof. by split. Qed.

Lemma apart_settled {B} (f : UltimateBot -> B) : settled f -> apart f.
Proof. intros (Hcore & _ & Hsoup & _). by split. Qed.

Lemma keeps_session_send {B} (f : UltimateBot -> B) r :
  core f -> (forall v s, f (with_exchanges v s) = f s) -> keeps f (session_send r).
Proof.
  intros (_ & _ & Hw) He s. unfold session_send.
  destruct (session_request (world s) (session s) r) as [w answer]; simpl.
  rewrite He. apply Hw.
Qed.

End EngineFacts.

Create HintDb bot.

#[export] Hint Resolve apart_intro apart_settled : bot.

#[export] Hint Resolve core_use_browser core_driver core_session core_current_url
  core_current_soup core_exchanges core_browser_mode : bot.
#[export] Hint Resolve keeps_ret keeps_self keeps_lift keeps_observe keeps_act
  keeps_advance keeps_when keeps_logger_emit keeps__log_activity
  keeps__random_delay : bot.
#[export] Hint Resolve total_ret total_self total_assign total_advance total_when
  total_logger_emit total__log_activity total__random_delay : bot.

(** One structural step on a [keeps] or [total] goal: split a bind or a
    [try], take a case on what a [match] looks at, or close a leaf. *)
Ltac method_step :=
  lazymatch goal with
  | |- keeps _ (mbind _ _) => apply keeps_bind; [| intros ?]
  | |- keeps _ (try_except _ _) => apply keeps_try; [| intros ?]
  | |- keeps _ (assign _) => apply keeps_assign; intros; first [reflexivity | solve [auto]]
  | |- keeps _ (session_send _) =>
      apply keeps_session_send; [auto with bot | intros; first [reflexivity | solve [auto]]]
  | |- total (mbind _ _) => apply total_bind; [| intros ?]
  | |- total (try_except _ _) => apply total_try; intros ?
  | |- _ (match ?x with _ => _ end) => destruct x
  | |- _ (let _ := _ in _) => cbv zeta
  | |- _ (logger_info _) => unfold logger_info
  | |- _ (logger_warning _) => unfold logger_warning
  | |- _ (logger_error _) => unfold logger_error
  | |- _ => solve [auto with bot]
  end.

Ltac methodical := repeat method_step.

Section MethodFacts.
Context {W : World}.
Implicit Types (s : UltimateBot).

Lemma settled_use_browser : settled use_browser.
Proof. repeat split. Qed.
Lemma settled_driver : settled driver.
Proof. repeat split. Qed.
Lemma settled_browser_mode : settled browser_mode.
Proof. repeat split. Qed.

Ltac with_settled H :=
  let Hc := fresh "Hcore" in
  let Hu := fresh "Hurl" in
  let Hs := fresh "Hsoup" in
  let He := fresh "Hexch" in
  destruct H as (Hc & Hu & Hs & He).

Lemma keeps_get_title {B} (f : UltimateBot -> B) : keeps f get_title.
Proof. unfold get_title. methodical. Qed.

Lemma total_get_title : total get_title.
Proof. unfold get_title. methodical. Qed.

#[local] Hint Resolve keeps_get_title total_get_title : bot.

Lemma keeps_goto {B} (f : UltimateBot -> B) url : settled f -> keeps f (goto url).
Proof. intros H. with_settled H. unfold goto. methodical. Qed.

Lemma total_goto url : total (goto url).
Proof. unfold goto. methodical. Qed.

Lemma keeps_find {B} (f : UltimateBot -> B) selector timeout :
  core f -> keeps f (find selector timeout).
Proof. intros H. unfold find. methodical. Qed.

Lemma total_find selector timeout : total (find selector timeout).
Proof. unfold find. methodical. Qed.

Lemma keeps_find_all {B} (f : UltimateBot -> B) selector : keeps f (find_all selector).
Proof. unfold find_all. methodical. Qed.

Lemma total_find_all selector : total (find_all selector).
Proof. unfold find_all. methodical. Qed.

#[local] Hint Resolve keeps_goto total_goto keeps_find total_find keeps_find_all
  total_find_all : bot.

Lemma keeps_click {B} (f : UltimateBot -> B) target use_js :
  core f -> keeps f (click target use_js).
Proof. intros H. unfold click, resolve, not_callable. methodical. Qed.

Lemma total_click target use_js : total (click target use_js).
Proof. unfold click. methodical. Qed.

Lemma keeps_send_each {B} (f : UltimateBot -> B) e text :
  core f -> keeps f (send_each e text).
Proof. intros H. induction text as [|c text IH]; simpl; methodical. Qed.

#[local] Hint Resolve keeps_send_each : bot.

Lemma keeps_soup_missing_method {A B} (f : UltimateBot -> B) t name :
  keeps f (@soup_missing_method W A t name).
Proof. unfold soup_missing_method, not_callable. methodical. Qed.

Lemma keeps_soup_clear {B} (f : UltimateBot -> B) t :
  apart f -> keeps f (soup_clear t).
Proof.
  intros (Hcore & Hsoup). destruct t; cbn [soup_clear];
    try apply keeps_soup_missing_method.
  apply keeps_assign. intros s. destruct (current_soup s) as [soup|]; [|reflexivity].
  destruct (node_path (world s) soup _); [apply Hsoup | reflexivity].
Qed.

#[local] Hint Resolve keeps_soup_missing_method keeps_soup_clear : bot.

Lemma keeps_type_text {B} (f : UltimateBot -> B) target text clear :
  apart f -> keeps f (type_text target text clear).
Proof.
  intros H. pose proof H as (Hcore & _). unfold type_text, resolve, not_callable.
  methodical.
Qed.

Lemma total_type_text target text clear : total (type_text target text clear).
Proof. unfold type_text. methodical. Qed.

Lemma keeps_get_text {B} (f : UltimateBot -> B) target : core f -> keeps f (get_text target).
Proof. intros H. unfold get_text, no_attribute. methodical. Qed.

Lemma total_get_text target : total (get_text target).
Proof. unfold get_text. methodical. Qed.

Lemma keeps_get_attribute {B} (f : UltimateBot -> B) target attr :
  core f -> keeps f (get_attribute target attr).
Proof. intros H. unfold get_attribute, no_attribute, not_callable. methodical. Qed.

Lemma total_get_attribute target attr : total (get_attribute target attr).
Proof. unfold get_attribute. methodical. Qed.

#[local] Hint Resolve keeps_click total_click keeps_type_text total_type_text
  keeps_get_text total_get_text keeps_get_attribute total_get_attribute : bot.

Lemma keeps_type_fields {B} (f : UltimateBot -> B) items :
  apart f -> keeps f (type_fields items).
Proof.
  intros H. pose proof H as (Hcore & _).
  induction items as [|[name value] items IH]; simpl; methodical.
Qed.

#[local] Hint Resolve keeps_type_fields : bot.

Lemma keeps_submit_form {B} (f : UltimateBot -> B) form_data form_selector :
  settled f -> keeps f (submit_form form_data form_selector).
Proof. intros H. with_settled H. unfold submit_form, not_callable. methodical. Qed.

Lemma total_submit_form form_data form_selector :
  total (submit_form form_data form_selector).
Proof. unfold submit_form. methodical. Qed.

#[local] Hint Resolve keeps_submit_form total_submit_form : bot.

Lemma keeps_run_search {B} (f : UltimateBot -> B) box_selector query :
  settled f -> keeps f (run_search box_selector query).
Proof.
  intros H. pose proof H as (Hc & _). unfold run_search, not_callable. methodical.
Qed.

#[local] Hint Resolve keeps_run_search : bot.

Lemma keeps_search_google {B} (f : UltimateBot -> B) query :
  settled f -> keeps f (search_google query).
Proof. intros H. pose proof H as (Hc & _). unfold search_google. methodical. Qed.

Lemma total_search_google query : total (search_google query).
Proof. unfold search_google. methodical. Qed.

Lemma keeps_search_bing {B} (f : UltimateBot -> B) query :
  settled f -> keeps f (search_bing query).
Proof. intros H. pose proof H as (Hc & _). unfold search_bing. methodical. Qed.

Lemma total_search_bing query : total (search_bing query).
Proof. unfold search_bing. methodical. Qed.

Lemma keeps_each_link {B} (f : UltimateBot -> B) link_elements i links :
  core f -> keeps f (each_link link_elements i links).
Proof.
  intros H. revert i links.
  induction link_elements as [|link_elem rest IH]; intros i links; simpl;
    unfold soup_get, soup_get_text, no_attribute; methodical.
Qed.

Lemma total_each_link link_elements i links : total (each_link link_elements i links).
Proof.
  revert i links.
  induction link_elements as [|link_elem rest IH]; intros i links; simpl; methodical.
Qed.

Lemma keeps_each_image {B} (f : UltimateBot -> B) img_elements i images :
  core f -> keeps f (each_image img_elements i images).
Proof.
  intros H. revert i images.
  induction img_elements as [|img rest IH]; intros i images; simpl;
    unfold soup_get, no_attribute; methodical.
Qed.

Lemma total_each_image img_elements i images : total (each_image img_elements i images).
Proof.
  revert i images.
  induction img_elements as [|img rest IH]; intros i images; simpl; methodical.
Qed.

#[local] Hint Resolve keeps_each_link total_each_link keeps_each_image
  total_each_image : bot.

Lemma keeps_extract_links {B} (f : UltimateBot -> B) : core f -> keeps f extract_links.
Proof. intros H. unfold extract_links. methodical. Qed.

Lemma total_extract_links : total extract_links.
Proof. unfold extract_links. methodical. Qed.

Lemma keeps_extract_images {B} (f : UltimateBot -> B) : core f -> keeps f extract_images.
Proof. intros H. unfold extract_images. methodical. Qed.

Lemma total_extract_images : total extract_images.
Proof. unfold extract_images. methodical. Qed.

Lemma keeps_info_failed {B} (f : UltimateBot -> B) info e :
  core f -> keeps f (info_failed info e).
Proof. intros H. unfold info_failed. methodical. Qed.

Lemma total_info_failed info e : total (info_failed info e).
Proof. unfold info_failed. methodical. Qed.

#[local] Hint Resolve keeps_info_failed total_info_failed : bot.

Lemma keeps_info_from_soup {B} (f : UltimateBot -> B) soup info :
  core f -> keeps f (info_from_soup soup info).
Proof. intros H. unfold info_from_soup. methodical. Qed.

Lemma total_info_from_soup soup info : total (info_from_soup soup info).
Proof. unfold info_from_soup. methodical. Qed.

#[local] Hint Resolve keeps_info_from_soup total_info_from_soup : bot.

Lemma keeps_get_page_info {B} (f : UltimateBot -> B) : core f -> keeps f get_page_info.
Proof. intros H. unfold get_page_info. methodical. Qed.

Lemma total_get_page_info : total get_page_info.
Proof. unfold get_page_info. methodical. Qed.

Lemma keeps_save_page {B} (f : UltimateBot -> B) filename :
  core f -> keeps f (save_page filename).
Proof. intros H. unfold save_page. methodical. Qed.

Lemma total_save_page filename : total (save_page filename).
Proof. unfold save_page. methodical. Qed.

Lemma keeps_screenshot {B} (f : UltimateBot -> B) filename :
  core f -> keeps f (screenshot filename).
Proof. intros H. unfold screenshot. methodical. Qed.

Lemma total_screenshot filename : total (screenshot filename).
Proof. unfold screenshot. methodical. Qed.

Lemma keeps_close {B} (f : UltimateBot -> B) : core f -> keeps f close.
Proof. intros H. unfold close. methodical. Qed.

Lemma total_close : total close.
Proof. unfold close. methodical. Qed.

Lemma total_start_browser : total start_browser.
Proof. unfold start_browser. methodical. Qed.

Lemma essence_fields s s' :
  essence s' = essence s ->
  use_browser s' = use_browser s /\ driver s' = driver s /\ session s' = session s /\
  current_url s' = current_url s /\ current_soup s' = current_soup s /\
  exchanges s' = exchanges s /\ browser_mode s' = browser_mode s /\ agree s s'.
Proof.
  unfold agree. intros E. pose proof E as E'. revert E'.
  unfold essence at 1 2, browser_mode. intros [= Eu _ _ _ Ed Es Ec Eso Eex].
  rewrite Eu, Ed. repeat split; assumption.
Qed.

Lemma after_ret {A} (a : A) s Q : Q s (Ok a) -> after (ret a) s Q.
Proof. exact id. Qed.

Lemma after_bind {A B} (m : Bot A) (k : A -> Bot B) s Q :
  after m s (fun s' r => match r with
                         | Ok a => after (k a) s' Q
                         | Raise e => Q s' (Raise e)
                         end) ->
  after (m ≫= k) s Q.
Proof.
  unfold after. rewrite run_bind. destruct (m s) as [s' [a|e]]; exact id.
Qed.

Lemma after_try {A} (body : Bot A) handler s Q :
  after body s (fun s' r => match r with
                            | Ok a => Q s' (Ok a)
                            | Raise e => after (handler e) s' Q
                            end) ->
  after (try_except body handler) s Q.
Proof.
  unfold after. rewrite run_try. destruct (body s) as [s' [a|e]]; exact id.
Qed.

Lemma after_self {B} (k : UltimateBot -> Bot B) s Q :
  after (k s) s Q -> after (self ≫= k) s Q.
Proof. exact id. Qed.

Lemma after_assign {B} g (k : unit -> Bot B) s Q :
  after (k tt) (g s) Q -> after (assign g ≫= k) s Q.
Proof. exact id. Qed.

Lemma after_lift {A B} (r : Fallible A) (k : A -> Bot B) s Q :
  match r with
  | Ok a => after (k a) s Q
  | Raise e => Q s (Raise e)
  end ->
  after (lift r ≫= k) s Q.
Proof. destruct r; exact id. Qed.

Lemma after_ret_bind {A B} (a : A) (k : A -> Bot B) s Q :
  after (k a) s Q -> after (ret a ≫= k) s Q.
Proof. exact id. Qed.

Lemma after_lift_last {A} (r : Fallible A) s (Q : UltimateBot -> Fallible A -> Prop) :
  Q s r -> after (lift r) s Q.
Proof. exact id. Qed.

(** A step that only logs, waits or reads: the essence is where it was. *)
Lemma after_quiet {A B} (m : Bot A) (k : A -> Bot B) s Q :
  total m -> keeps essence m ->
  (forall s' a, essence s' = essence s -> after (k a) s' Q) ->
  after (m ≫= k) s Q.
Proof.
  intros Ht Hk H. apply after_bind. unfold after.
  destruct (Ht s) as [a Ha]. specialize (Hk s).
  destruct (m s) as [s' r]; simpl in *; subst r. apply H, Hk.
Qed.

Lemma after_quiet_last {A} (m : Bot A) s (Q : UltimateBot -> Fallible A -> Prop) :
  total m -> keeps essence m ->
  (forall s' a, essence s' = essence s -> Q s' (Ok a)) ->
  after m s Q.
Proof.
  intros Ht Hk H. unfold after.
  destruct (Ht s) as [a Ha]. specialize (Hk s).
  destruct (m s) as [s' r]; simpl in *; subst r. apply H, Hk.
Qed.

Lemma after_send {B} r (k : Response -> Bot B) s Q :
  (forall w answer,
     let s' := with_exchanges (exchanges s ++ [(r, answer)]) (with_world w s) in
     match answer with
     | Ok response => after (k response) s' Q
     | Raise e => Q s' (Raise e)
     end) ->
  after (session_send r ≫= k) s Q.
Proof.
  intros H. apply after_bind. unfold after, session_send.
  destruct (session_request (world s) (session s) r) as [w answer]. apply H.
Qed.

Lemma keeps_scroll {B} (f : UltimateBot -> B) direction pixels :
  core f -> keeps f (scroll direction pixels).
Proof. intros H. unfold scroll. methodical. Qed.

Lemma total_scroll direction pixels : total (scroll direction pixels).
Proof. unfold scroll. methodical. Qed.

Lemma keeps_wait_for {B} (f : UltimateBot -> B) selector timeout :
  core f -> keeps f (wait_for selector timeout).
Proof. intros H. unfold wait_for. methodical. Qed.

Lemma total_wait_for selector timeout : total (wait_for selector timeout).
Proof. unfold wait_for. methodical. Qed.

Lemma keeps_execute_js {B} (f : UltimateBot -> B) script :
  core f -> keeps f (execute_js script).
Proof. intros H. unfold execute_js. methodical. Qed.

Lemma total_execute_js script : total (execute_js script).
Proof. unfold execute_js. methodical. Qed.

Lemma keeps_get_cookies {B} (f : UltimateBot -> B) : core f -> keeps f get_cookies.
Proof. intros H. unfold get_cookies. methodical. Qed.

Lemma total_get_cookies : total get_cookies.
Proof. unfold get_cookies. methodical. Qed.

Lemma keeps_get_current_url {B} (f : UltimateBot -> B) : keeps f get_current_url.
Proof. unfold get_current_url. methodical. Qed.

Lemma total_get_current_url : total get_current_url.
Proof. unfold get_current_url. methodical. Qed.

Lemma keeps_analyze {B} (f : UltimateBot -> B) :
  core f -> keeps f analyze_social_media_content.
Proof. intros H. unfold analyze_social_media_content. methodical. Qed.

Lemma total_analyze : total analyze_social_media_content.
Proof. unfold analyze_social_media_content. methodical. Qed.

#[local] Hint Resolve keeps_search_google total_search_google keeps_search_bing
  total_search_bing keeps_extract_links total_extract_links keeps_extract_images
  total_extract_images keeps_get_page_info total_get_page_info keeps_save_page
  total_save_page keeps_screenshot total_screenshot keeps_close total_close
  total_start_browser keeps_scroll total_scroll keeps_wait_for total_wait_for
  keeps_execute_js total_execute_js keeps_get_cookies total_get_cookies
  keeps_get_current_url total_get_current_url keeps_analyze total_analyze : bot.

(** ** Following one run *)

Lemma core_essence : core essence.
Proof. repeat split. Qed.

#[local] Hint Resolve core_essence : bot.

End MethodFacts.

#[export] Hint Resolve
  keeps_get_title total_get_title keeps_goto total_goto keeps_find total_find
  keeps_find_all total_find_all keeps_send_each keeps_click total_click
  keeps_type_text total_type_text keeps_get_text total_get_text
  keeps_get_attribute total_get_attribute keeps_type_fields keeps_submit_form
  total_submit_form keeps_run_search keeps_each_link total_each_link
  keeps_each_image total_each_image keeps_info_failed total_info_failed
  keeps_info_from_soup total_info_from_soup keeps_search_google
  total_search_google keeps_search_bing total_search_bing keeps_extract_links
  total_extract_links keeps_extract_images total_extract_images
  keeps_get_page_info total_get_page_info keeps_save_page total_save_page
  keeps_screenshot total_screenshot keeps_close total_close
  total_start_browser keeps_scroll total_scroll keeps_wait_for total_wait_for
  keeps_execute_js total_execute_js keeps_get_cookies total_get_cookies
  keeps_get_current_url total_get_current_url keeps_analyze total_analyze
  core_essence : bot.

(** One step of a run whose head is plain: a [try], a reading of the
    object, an assignment, a pure outcome, a return. *)
Ltac follow_step :=
  cbv beta iota zeta;
  lazymatch goal with
  | |- after (try_except _ _) _ _ => apply after_try
  | |- after (mbind _ self) _ _ => apply after_self
  | |- after (mbind _ (assign _)) _ _ => apply after_assign
  | |- after (mbind _ (lift _)) _ _ => apply after_lift
  | |- after (mbind _ (ret _)) _ _ => apply after_ret_bind
  | |- after (mbind _ (mbind _ _)) _ _ => apply after_bind
  | |- after (mbind _ (try_except _ _)) _ _ => apply after_bind
  | |- after (ret _) _ _ => apply after_ret
  | |- after (lift _) _ _ => apply after_lift_last
  end.

Ltac follow := repeat follow_step.

(** Close a goal that chains agreements between states. *)
Ltac agreed := unfold agree in *; congruence.

(** Step over a call that only logs, waits or reads. *)
Ltac pass :=
  cbv beta iota zeta;
  apply after_quiet; [solve [methodical] | solve [methodical] | intros ? ? ?].

(** Spell out what the equalities of essences in the context say. *)
Ltac essential :=
  repeat match goal with
         | H : essence _ = essence _ |- _ =>
             apply essence_fields in H;
             destruct H as (? & ? & ? & ? & ? & ? & ? & ?)
         end.

(* ===================================================================== *)
(** * The navigation engine: what the spec says of it *)
(* ===================================================================== *)

Section Claims.
Context {W : World}.
Implicit Types (s : UltimateBot).

Lemma last_exchange s (x y : Request * Fallible Response) :
  exchanges s ++ [x] = exchanges s ++ [y] -> x = y.
Proof. intros E. apply app_inv_head in E. congruence. Qed.

(** ** Loading a page over HTTP *)

Lemma goto_requests_after s url :
  browser_mode s = None ->
  after (goto url) s (fun s' r =>
    forall response,
      exchanges s' = exchanges s ++ [(mkRequest GET url ∅ 30, Ok response)] ->
      if status_code response =? 200 then
        match BeautifulSoup (response_text response) with
        | Ok soup =>
            r = Ok true /\ current_url s' = response_url response /\
            current_soup s' = Some soup
        | Raise _ => r = Ok false
        end
      else r = Ok false /\ current_url s' = current_url s /\
           current_soup s' = current_soup s).
Proof.
  intros Hmode. unfold goto. follow. pass. pass. follow.
  essential. replace (browser_mode s'0) with (@None Driver) by congruence.
  apply after_send. intros w [response|e]; cbv beta iota zeta.
  - destruct (status_code response =? 200) eqn:Hstatus; cbn [negb].
    + follow.
      destruct (BeautifulSoup (response_text response)) as [soup|e] eqn:Hparse.
      * follow. pass. follow. pass. pass. pass. pass. follow.
        intros response' Hex. essential. cbn in *.
        assert (response' = response) as ->.
        { assert (E : (mkRequest GET url ∅ 30, Ok response')
                      = (mkRequest GET url ∅ 30, Ok response))
            by (apply (last_exchange s); congruence).
          congruence. }
        rewrite Hstatus, Hparse. repeat split; congruence.
      * cbv beta iota. pass. pass. follow.
        intros response' Hex. essential. cbn in *.
        assert (response' = response) as ->.
        { assert (E : (mkRequest GET url ∅ 30, Ok response')
                      = (mkRequest GET url ∅ 30, Ok response))
            by (apply (last_exchange s); congruence).
          congruence. }
        rewrite Hstatus, Hparse. reflexivity.
    + pass. follow.
      intros response' Hex. essential. cbn in *.
      assert (response' = response) as ->.
      { assert (E : (mkRequest GET url ∅ 30, Ok response')
                    = (mkRequest GET url ∅ 30, Ok response))
          by (apply (last_exchange s); congruence).
        congruence. }
      rewrite Hstatus. repeat split; congruence.
  - pass. pass. follow.
    intros response' Hex. essential. cbn in *. exfalso.
    assert (E : (mkRequest GET url ∅ 30, Ok response')
                = (mkRequest GET url ∅ 30, @Raise Response e))
      by (apply (last_exchange s); congruence).
    congruence.
Qed.

(** C1 (as amended).  In transport-only mode, when the HTTP client
    answered the request of [goto] with a response: if the status is not
    200, [goto] returns [False] and the current URL and Document are as
    before; if it is 200 and the parser accepts the markup, [goto]
    returns [True], the current URL is the response's and the Document is
    the parsed markup; if it is 200 and the parser raises, [goto] returns
    [False]. *)
Theorem goto_transport_status s url response :
  browser_mode s = None ->
  exchanges (goto url s).1 = exchanges s ++ [(mkRequest GET url ∅ 30, Ok response)] ->
  if status_code response =? 200 then
    match BeautifulSoup (response_text response) with
    | Ok soup =>
        (goto url s).2 = Ok true /\
        current_url (goto url s).1 = response_url response /\
        current_soup (goto url s).1 = Some soup
    | Raise _ => (goto url s).2 = Ok false
    end
  else
    (goto url s).2 = Ok false /\
    current_url (goto url s).1 = current_url s /\
    current_soup (goto url s).1 = current_soup s.
Proof. intros Hmode. exact (goto_requests_after s url Hmode response). Qed.

(** ** Lookup and extraction from the Document *)

Lemma after_run {A} (m : Bot A) s (Q : UltimateBot -> Fallible A -> Prop) s' r :
  m s = (s', r) -> Q s' r -> after m s Q.
Proof. unfold after. intros ->. exact id. Qed.

Lemma after_known {A B} (m : Bot A) (k : A -> Bot B) s Q s' a :
  m s = (s', Ok a) -> after (k a) s' Q -> after (m ≫= k) s Q.
Proof. intros E H. apply after_bind. unfold after. rewrite E. exact H. Qed.

Lemma after_weaken {A} (m : Bot A) s (Q Q' : UltimateBot -> Fallible A -> Prop) :
  after m s Q -> (forall s' r, Q s' r -> Q' s' r) -> after m s Q'.
Proof. unfold after. intros H HQ. apply HQ, H. Qed.

Lemma run_of_after {A} (m : Bot A) s s' r :
  after m s (fun s0 r0 => s0 = s' /\ r0 = r) -> m s = (s', r).
Proof. unfold after. destruct (m s) as [s0 r0]. simpl. intros [-> ->]. reflexivity. Qed.

Lemma agree_trans s1 s2 s3 : agree s1 s2 -> agree s2 s3 -> agree s1 s3.
Proof. unfold agree. congruence. Qed.

Lemma find_transport s selector timeout :
  browser_mode s = None ->
  find selector timeout s
  = (s, Ok (SoupElement <$> head (document_select (current_soup s) selector))).
Proof.
  intros Hmode. apply run_of_after. unfold find, document_select. follow.
  rewrite Hmode. destruct (current_soup s) as [soup|]; follow; [|auto].
  destruct (soup_select soup selector) as [found|e]; follow; auto.
Qed.

Lemma find_all_transport s selector :
  browser_mode s = None ->
  find_all selector s
  = (s, Ok (SoupElement <$> document_select (current_soup s) selector)).
Proof.
  intros Hmode. apply run_of_after. unfold find_all, document_select. follow.
  rewrite Hmode. destruct (current_soup s) as [soup|]; follow; [|auto].
  destruct (soup_select soup selector) as [found|e]; follow; auto.
Qed.

Lemma get_title_transport s :
  browser_mode s = None ->
  get_title s
  = (s, Ok match current_soup s with
           | Some soup =>
               match bs4.find "title" soup with
               | Some title_elem => bs4.get_text true title_elem
               | None => EmptyString
               end
           | None => EmptyString
           end).
Proof.
  intros Hmode. apply run_of_after. unfold get_title. follow.
  rewrite Hmode. destruct (current_soup s) as [soup|]; follow; [|auto].
  destruct (bs4.find "title" soup); follow; auto.
Qed.

Lemma each_link_transport (nodes : list PageElement) i links s :
  browser_mode s = None ->
  after (each_link (SoupElement <$> nodes) i links) s (fun s' r =>
    agree s s' /\ r = Ok (links ++ omap (link_record (current_url s)) nodes)).
Proof.
  revert i links s. induction nodes as [|t nodes IH]; intros i links s Hmode.
  - simpl. follow. split; [reflexivity | by rewrite app_nil_r].
  - rewrite fmap_cons. cbn [each_link omap list_omap]. follow.
    rewrite Hmode. unfold soup_get, soup_get_text. follow.
    destruct (truthy (bs4.get_default "href" EmptyString t)) eqn:Hhref; follow.
    + destruct (urllib_parse.urljoin check_host (current_url s)
                  (bs4.get_default "href" EmptyString t)) as [full_url|e] eqn:Hjoin;
        follow.
      * assert (link_record (current_url s) t
                = Some (mkLink full_url (bs4.get_text true t)
                               (bs4.get_default "title" EmptyString t))) as ->
          by (unfold link_record; rewrite Hhref, Hjoin; reflexivity).
        eapply after_weaken; [apply IH; exact Hmode|].
        cbv beta. intros s' r [? ->].
        split; [assumption | rewrite <- app_assoc; reflexivity].
      * assert (link_record (current_url s) t = None) as ->
          by (unfold link_record; rewrite Hhref, Hjoin; reflexivity).
        pass. follow. essential.
        eapply after_weaken; [apply IH; congruence|].
        cbv beta. intros s'' r [? ->]. split; [by eapply agree_trans|].
        replace (current_url s') with (current_url s); reflexivity.
    + assert (link_record (current_url s) t = None) as ->
        by (unfold link_record; rewrite Hhref; reflexivity).
      eapply after_weaken; [apply IH; exact Hmode|]. auto.
Qed.

Lemma each_image_transport (nodes : list PageElement) i images s :
  browser_mode s = None ->
  after (each_image (SoupElement <$> nodes) i images) s (fun s' r =>
    agree s s' /\ r = Ok (images ++ omap (image_record (current_url s)) nodes)).
Proof.
  revert i images s. induction nodes as [|t nodes IH]; intros i images s Hmode.
  - simpl. follow. split; [reflexivity | by rewrite app_nil_r].
  - rewrite fmap_cons. cbn [each_image omap list_omap]. follow.
    rewrite Hmode. unfold soup_get. follow.
    destruct (truthy (bs4.get_default "src" EmptyString t)) eqn:Hsrc; follow.
    + destruct (urllib_parse.urljoin check_host (current_url s)
                  (bs4.get_default "src" EmptyString t)) as [full_url|e] eqn:Hjoin;
        follow.
      * assert (image_record (current_url s) t
                = Some (mkImage full_url (bs4.get_default "alt" EmptyString t)
                                (bs4.get_default "title" EmptyString t))) as ->
          by (unfold image_record; rewrite Hsrc, Hjoin; reflexivity).
        eapply after_weaken; [apply IH; exact Hmode|].
        cbv beta. intros s' r [? ->].
        split; [assumption | rewrite <- app_assoc; reflexivity].
      * assert (image_record (current_url s) t = None) as ->
          by (unfold image_record; rewrite Hsrc, Hjoin; reflexivity).
        pass. follow. essential.
        eapply after_weaken; [apply IH; congruence|].
        cbv beta. intros s'' r [? ->]. split; [by eapply agree_trans|].
        replace (current_url s') with (current_url s); reflexivity.
    + assert (image_record (current_url s) t = None) as ->
        by (unfold image_record; rewrite Hsrc; reflexivity).
      eapply after_weaken; [apply IH; exact Hmode|]. auto.
Qed.

(** In transport-only mode [extract_links] returns the records of the
    Document and touches nothing but the logs. *)
Lemma extract_links_transport s :
  browser_mode s = None ->
  after extract_links s (fun s' r =>
    agree s s' /\ r = Ok (document_links (current_url s) (current_soup s))).
Proof.
  intros Hmode. unfold extract_links. pass. pass. essential.
  eapply after_known; [apply find_all_transport; congruence|].
  apply after_bind. eapply after_weaken; [apply each_link_transport; congruence|].
  cbv beta. intros s1 r [E ->]. pass. pass. follow. essential.
  split; [agreed|].
  unfold document_links. cbn [app]. do 2 f_equal; [| f_equal]; congruence.
Qed.

Lemma extract_images_transport s :
  browser_mode s = None ->
  after extract_images s (fun s' r =>
    agree s s' /\ r = Ok (document_images (current_url s) (current_soup s))).
Proof.
  intros Hmode. unfold extract_images. pass. pass. essential.
  eapply after_known; [apply find_all_transport; congruence|].
  apply after_bind. eapply after_weaken; [apply each_image_transport; congruence|].
  cbv beta. intros s1 r [E ->]. pass. pass. follow. essential.
  split; [agreed|].
  unfold document_images. cbn [app]. do 2 f_equal; [| f_equal]; congruence.
Qed.

Lemma no_match_agree s s' selector :
  agree s s' -> no_match s selector -> no_match s' selector.
Proof.
  intros E. apply essence_fields in E as (_ & _ & _ & _ & Hsoup & _ & Hmode & _).
  unfold no_match. rewrite Hmode, Hsoup. exact id.
Qed.

Lemma find_all_no_match s selector :
  no_match s selector -> find_all selector s = (s, Ok []).
Proof.
  unfold no_match. intros H. apply run_of_after. unfold find_all. follow.
  destruct (browser_mode s) as [d|].
  - apply after_bind. eapply after_run; [reflexivity|]. cbn [observe].
    rewrite H. follow. auto.
  - destruct H as (soup & -> & Hsel). follow. rewrite Hsel. follow. auto.
Qed.

(** C8.  When the link selector matches nothing in what the session
    looks at (the Document in transport-only mode, the browser's page in
    browser mode), [extract_links] returns the empty list; likewise
    [extract_images] for the image selector.  Neither raises. *)
Theorem extraction_of_nothing s1 s2 :
  no_match s1 "a[href]" -> no_match s2 "img" ->
  (extract_links s1).2 = Ok [] /\ (extract_images s2).2 = Ok [].
Proof.
  intros H1 H2. split.
  - change (after extract_links s1 (fun _ r => r = Ok [])).
    unfold extract_links. pass. pass. essential.
    eapply after_known.
    { apply find_all_no_match. eapply no_match_agree; [|exact H1]. agreed. }
    cbn [each_link]. follow. pass. pass. follow. reflexivity.
  - change (after extract_images s2 (fun _ r => r = Ok [])).
    unfold extract_images. pass. pass. essential.
    eapply after_known.
    { apply find_all_no_match. eapply no_match_agree; [|exact H2]. agreed. }
    cbn [each_image]. follow. pass. pass. follow. reflexivity.
Qed.

(** C9 (as amended).  In transport-only mode, while the session holds no
    Document, the read-only operations return their defaults and do not
    raise: [find] gives [None], [find_all], [extract_links] and
    [extract_images] give the empty list, [get_title] the empty string. *)
Theorem reads_before_any_load s selector timeout :
  browser_mode s = None -> current_soup s = None ->
  (find selector timeout s).2 = Ok None /\
  (find_all selector s).2 = Ok [] /\
  (extract_links s).2 = Ok [] /\
  (extract_images s).2 = Ok [] /\
  (get_title s).2 = Ok EmptyString.
Proof.
  intros Hmode Hsoup. split_and!.
  - rewrite find_transport by exact Hmode. by rewrite Hsoup.
  - rewrite find_all_transport by exact Hmode. by rewrite Hsoup.
  - pose proof (extract_links_transport s Hmode) as [_ H]. rewrite H.
    by rewrite Hsoup.
  - pose proof (extract_images_transport s Hmode) as [_ H]. rewrite H.
    by rewrite Hsoup.
  - rewrite get_title_transport by exact Hmode. by rewrite Hsoup.
Qed.

(** C2 (as amended).  In transport-only mode, with the Document loaded
    from [https://site/p] and the link selector matching the anchors
    [<a href="/a">X</a>] and [<a href="http://ext/b">Y</a>],
    [extract_links] returns exactly the records
    [{url: https://site/a, text: X, title: empty}] and
    [{url: http://ext/b, text: Y, title: empty}]: the rooted reference
    [/a] replaces the whole path of the base. *)
Theorem extract_links_scenario s soup :
  browser_mode s = None ->
  current_url s = "https://site/p" ->
  current_soup s = Some soup ->
  soup_select soup "a[href]"
  = Ok [Tag "a" {[ "href" := "/a" ]} [NavigableString "X"];
        Tag "a" {[ "href" := "http://ext/b" ]} [NavigableString "Y"]] ->
  (extract_links s).2
  = Ok [mkLink "https://site/a" "X" EmptyString;
        mkLink "http://ext/b" "Y" EmptyString].
Proof.
  intros Hmode Hurl Hsoup Hsel.
  pose proof (extract_links_transport s Hmode) as [_ H]. rewrite H.
  unfold document_links, document_select. rewrite Hurl, Hsoup, Hsel.
  vm_compute. reflexivity.
Qed.

(** C4 (as amended).  In transport-only mode [click] and [type_text]
    return [False] without raising, after logging the warning that the
    operation requires browser mode, and change nothing else of the
    object. *)
Theorem click_type_refused_in_transport_mode s target use_js text clear :
  browser_mode s = None ->
  click target use_js s
  = (with_logger (logger s ++ [(WARNING, "Click requires browser mode")]) s, Ok false) /\
  type_text target text clear s
  = (with_logger (logger s ++ [(WARNING, "Type requires browser mode")]) s, Ok false).
Proof.
  intros Hmode. unfold click, type_text. rewrite !run_bind. cbn [self].
  rewrite Hmode. split; reflexivity.
Qed.

(** ** Submitting a form over HTTP *)

(** Every outcome of [submit_form] in transport-only mode. *)
Lemma submit_form_transport s form_data form_selector :
  browser_mode s = None ->
  after (submit_form form_data form_selector) s (fun s' r =>
    match current_soup s with
    | None => r = Ok false /\ agree s s'
    | Some soup =>
        match soup_select soup form_selector with
        | Raise _ | Ok [] => r = Ok false /\ agree s s'
        | Ok (form :: _) =>
            match form_request (current_url s) form form_data with
            | Raise _ => r = Ok false /\ agree s s'
            | Ok request =>
                exists answer,
                  exchanges s' = exchanges s ++ [(request, answer)] /\
                  match answer with
                  | Raise _ =>
                      r = Ok false /\ current_url s' = current_url s /\
                      current_soup s' = current_soup s
                  | Ok response =>
                      if status_code response =? 200 then
                        current_url s' = response_url response /\
                        match BeautifulSoup (response_content response) with
                        | Ok soup' => r = Ok true /\ current_soup s' = Some soup'
                        | Raise _ => r = Ok false /\ current_soup s' = current_soup s
                        end
                      else
                        r = Ok false /\ current_url s' = current_url s /\
                        current_soup s' = current_soup s
                  end
            end
        end
    end).
Proof.
  intros Hmode. unfold submit_form. follow. rewrite Hmode.
  destruct (current_soup s) as [soup|] eqn:Hsoup; follow.
  2: { split; reflexivity. }
  destruct (soup_select soup form_selector) as [[|form rest]|e]; follow.
  - split; reflexivity.
  - cbn [head].
    destruct (form_request (current_url s) form form_data) as [request|e]; follow.
    + apply after_send. intros w [response|e]; cbv beta iota zeta.
      * destruct (status_code response =? 200) eqn:Hstatus; follow.
        -- destruct (BeautifulSoup (response_content response)) as [soup'|e] eqn:Hparse;
             follow.
           ++ pass. follow. essential. eexists. split; [cbn in *; eassumption|].
              cbv beta iota. rewrite Hstatus, Hparse. cbn in *. repeat split; congruence.
           ++ pass. follow. essential. eexists. split; [cbn in *; eassumption|].
              cbv beta iota. rewrite Hstatus, Hparse. cbn in *. repeat split; congruence.
        -- eexists. split; [reflexivity|]. cbv beta iota. rewrite Hstatus.
           repeat split; assumption.
      * pass. follow. essential. eexists. split; [cbn in *; eassumption|].
        cbv beta iota. cbn in *. repeat split; congruence.
    + pass. follow. split; [reflexivity | agreed].
  - pass. follow. split; [reflexivity | agreed].
Qed.

Lemma seed_field_default acc e :
  seed_field acc e
  = match field_default e with
    | Some (n, v) => <[n := v]> acc
    | None => acc
    end.
Proof.
  unfold seed_field, field_default.
  destruct (bs4.get "name" e) as [name|]; [|reflexivity].
  destruct (truthy name); cbn [negb]; [|reflexivity].
  destruct (bool_decide (bs4.tag_name e = Some "input")).
  - destruct (Str.among _ _); reflexivity.
  - destruct (bool_decide (bs4.tag_name e = Some "textarea")); reflexivity.
Qed.

Lemma seed_fields_lookup elements acc name :
  fold_left seed_field elements acc !! name
  = match last_default name elements with
    | Some v => Some v
    | None => acc !! name
    end.
Proof.
  revert acc. induction elements as [|e elements IH]; intros acc; [reflexivity|].
  cbn [fold_left]. rewrite IH, seed_field_default. unfold last_default.
  cbn [omap list_omap]. destruct (field_default e) as [[n v]|]; [|reflexivity].
  destruct (String.eqb_spec n name) as [->|Hne].
  - rewrite last_cons. destruct (last _); [reflexivity|]. apply lookup_insert_eq.
  - destruct (last _); [reflexivity|]. by apply lookup_insert_ne.
Qed.

Lemma last_default_is_Some elements e name value :
  e ∈ elements -> field_default e = Some (name, value) ->
  is_Some (last_default name elements).
Proof.
  intros Hin Hdef. unfold last_default.
  assert (Hv : value ∈ omap (fun e => match field_default e with
                                      | Some (n, v) => if String.eqb n name then Some v else None
                                      | None => None
                                      end) elements).
  { apply list_elem_of_omap. exists e. split; [exact Hin|].
    rewrite Hdef, String.eqb_refl. reflexivity. }
  destruct (omap _ elements) as [|x l] using rev_ind.
  - by apply elem_of_nil in Hv.
  - rewrite last_snoc. eauto.
Qed.

Lemma not_grown {A} (l : list A) x : l <> l ++ [x].
Proof.
  intros E. apply (f_equal length) in E. rewrite length_app in E. simpl in E. lia.
Qed.

(** C3 (as amended).  In transport-only mode, the request [submit_form]
    sends for the first form the selector matches carries, for every
    name the caller supplies, the caller's value; and every element of
    the form that is a named [input] of type text, email, password or
    hidden (text when no type is given) or a named [textarea], and that
    the caller does not override, has its name among the submitted
    fields, with the default of the last such element of that name in
    document order. *)
Theorem submit_form_fields s form_data form_selector soup form rest request answer :
  browser_mode s = None ->
  current_soup s = Some soup ->
  soup_select soup form_selector = Ok (form :: rest) ->
  exchanges (submit_form form_data form_selector s).1
  = exchanges s ++ [(request, answer)] ->
  (forall name value,
     form_data !! name = Some value -> req_fields request !! name = Some value) /\
  (forall e name value,
     e ∈ form_controls form -> field_default e = Some (name, value) ->
     form_data !! name = None ->
     is_Some (req_fields request !! name) /\
     req_fields request !! name = last_default name (form_controls form)).
Proof.
  intros Hmode Hsoup Hsel Hex.
  pose proof (submit_form_transport s form_data form_selector Hmode) as H.
  unfold after in H. rewrite Hsoup, Hsel in H.
  assert (Hreq : req_fields request = form_data ∪ seed_fields form).
  { unfold form_request in H.
    destruct (if truthy (bs4.get_default "action" EmptyString form)
              then urllib_parse.urljoin check_host (current_url s)
                     (bs4.get_default "action" EmptyString form)
              else Ok (current_url s)) as [submit_url|e]; cbn in H.
    - destruct H as (answer' & Hex' & _). rewrite Hex in Hex'.
      apply last_exchange in Hex'. injection Hex' as -> _. reflexivity.
    - destruct H as [_ H]. apply essence_fields in H as (_ & _ & _ & _ & _ & H & _).
      rewrite Hex in H. symmetry in H. by apply not_grown in H. }
  split.
  - intros name value Hname. rewrite Hreq. by apply lookup_union_Some_l.
  - intros e name value Hin Hdef Hname.
    assert (Hlast : req_fields request !! name
                    = last_default name (form_controls form)).
    { rewrite Hreq, lookup_union_r by exact Hname.
      unfold seed_fields. rewrite seed_fields_lookup, lookup_empty.
      unfold form_controls. by destruct (last_default _ _). }
    split; [|exact Hlast]. rewrite Hlast. by eapply last_default_is_Some.
Qed.

(** C10.  In transport-only mode, when no Document is loaded, or the form
    selector matches no element, or the submission was answered with a
    status other than 200, [submit_form] returns [False] and the current
    URL and Document are exactly as before the call. *)
Theorem submit_form_atomic_on_failure s form_data form_selector :
  browser_mode s = None ->
  (current_soup s = None \/
   (exists soup, current_soup s = Some soup /\ soup_select soup form_selector = Ok []) \/
   (exists request response,
      exchanges (submit_form form_data form_selector s).1
      = exchanges s ++ [(request, Ok response)] /\
      status_code response <> 200)) ->
  (submit_form form_data form_selector s).2 = Ok false /\
  current_url (submit_form form_data form_selector s).1 = current_url s /\
  current_soup (submit_form form_data form_selector s).1 = current_soup s.
Proof.
  intros Hmode Hcase.
  pose proof (submit_form_transport s form_data form_selector Hmode) as H.
  unfold after in H.
  assert (Hquiet : forall r s',
            r = Ok false /\ agree s s' ->
            r = Ok false /\ current_url s' = current_url s /\
            current_soup s' = current_soup s).
  { intros r s' [-> E]. apply essence_fields in E. tauto. }
  destruct Hcase as [Hnone | [(soup & Hsoup & Hsel) | (request & response & Hex & Hstatus)]].
  - rewrite Hnone in H. by apply Hquiet.
  - rewrite Hsoup, Hsel in H. by apply Hquiet.
  - destruct (current_soup s) as [soup|] eqn:Hsoup.
    2: { exfalso. destruct H as [_ E]. apply essence_fields in E as (_&_&_&_&_&E&_).
         rewrite Hex in E. symmetry in E. by apply not_grown in E. }
    destruct (soup_select soup form_selector) as [[|form rest]|e].
    1, 3: exfalso; destruct H as [_ E]; apply essence_fields in E as (_&_&_&_&_&E&_);
      rewrite Hex in E; symmetry in E; by apply not_grown in E.
    destruct (form_request (current_url s) form form_data) as [request'|e].
    2: { exfalso. destruct H as [_ E]. apply essence_fields in E as (_&_&_&_&_&E&_).
         rewrite Hex in E. symmetry in E. by apply not_grown in E. }
    destruct H as (answer & Hex' & H). rewrite Hex in Hex'.
    apply last_exchange in Hex'. injection Hex' as _ <-.
    apply Z.eqb_neq in Hstatus. rewrite Hstatus in H. exact H.
Qed.

(** ** Degradation to transport-only mode *)

Lemma after_act {A B} (f : Ext -> Ext * Fallible A) (k : A -> Bot B) s Q w r :
  f (world s) = (w, r) ->
  match r with
  | Ok a => after (k a) (with_world w s) Q
  | Raise e => Q (with_world w s) (Raise e)
  end ->
  after (act f ≫= k) s Q.
Proof.
  intros E H. apply after_bind. unfold after, act. rewrite E. exact H.
Qed.

Lemma start_browser_both_fail s w1 w2 e1 e2 :
  use_browser s = true -> driver s = None ->
  uc_Chrome (world s) (chrome_options [] (headless s)) = (w1, Raise e1) ->
  webdriver_Chrome w1 (chrome_options ["--disable-gpu"] (headless s)) = (w2, Raise e2) ->
  after start_browser s (fun s' r =>
    r = Ok true /\ use_browser s' = false /\ driver s' = None /\
    current_url s' = current_url s /\ current_soup s' = current_soup s).
Proof.
  intros Hub Hdr H1 H2. unfold start_browser. follow. rewrite Hub, Hdr.
  cbn [negb orb bool_decide decide_rel]. 
  replace (bool_decide (is_Some (@None Driver))) with false
    by (symmetry; apply bool_decide_eq_false; intros [? [=]]).
  unfold logger_info, logger_warning, logger_error, logger_emit.
  follow. cbn [try_methods]. unfold _init_undetected_chrome, _init_standard_chrome.
  unfold logger_info, logger_warning, logger_error, logger_emit.
  follow. eapply after_act; [cbn; exact H1|]. follow.
  eapply after_act; [cbn; exact H2|]. follow.
  cbn. repeat split; assumption.
Qed.

Lemma start_browser_degraded s :
  use_browser s = false -> start_browser s = (s, Ok true).
Proof.
  intros Hub. unfold start_browser. rewrite run_bind. cbn [self].
  rewrite Hub. reflexivity.
Qed.

Lemma perform_degraded c s :
  use_browser s = false ->
  use_browser (perform c s).1 = false /\ (perform c s).2 = Ok tt.
Proof.
  intros Hub.
  assert (Hgen : forall m : Bot unit,
            total m -> keeps use_browser m ->
            use_browser (m s).1 = false /\ (m s).2 = Ok tt).
  { intros m Ht Hk. split; [by rewrite Hk|].
    destruct (Ht s) as [[] ->]. reflexivity. }
  pose proof settled_use_browser as Hs.
  destruct c; cbn [perform];
    try (apply Hgen; [solve [methodical] | solve [methodical]]).
  rewrite run_bind, start_browser_degraded by exact Hub. by split.
Qed.

Lemma perform_all_degraded calls s :
  use_browser s = false ->
  use_browser (perform_all calls s).1 = false /\ (perform_all calls s).2 = Ok tt.
Proof.
  revert s. induction calls as [|c calls IH]; intros s Hub; [by split|].
  cbn [perform_all]. rewrite run_bind.
  destruct (perform_degraded c s Hub) as [Hub' Hr].
  destruct (perform c s) as [s' r]; simpl in *; subst r. by apply IH.
Qed.

Lemma info_head_mode soup info :
  info_mode (info_head soup info) = info_mode info /\
  info_url (info_head soup info) = info_url info.
Proof.
  unfold info_head. destruct (bs4.find "title" soup); [|by split].
  destruct (truthy (info_title info)); by split.
Qed.

(** What [get_page_info] returns in transport-only mode. *)
Lemma get_page_info_transport s :
  browser_mode s = None ->
  after get_page_info s (fun s' r =>
    agree s s' /\
    exists info,
      r = Ok info /\ info_mode info = "requests" /\ info_url info = current_url s /\
      forall soup links images forms,
        current_soup s = Some soup ->
        soup_select soup "a[href]" = Ok links ->
        soup_select soup "img" = Ok images ->
        soup_select soup "form" = Ok forms ->
        info = document_info (current_url s) soup links images forms).
Proof.
  intros Hmode. unfold get_page_info. pass. pass. follow. essential.
  replace (browser_mode s'0) with (@None Driver) by congruence.
  replace (current_url s'0) with (current_url s) by congruence.
  replace (current_soup s'0) with (current_soup s) by congruence.
  unfold info_from_soup, info_failed.
  destruct (current_soup s) as [soup|]; follow.
  2: { split; [agreed|]. eexists. split_and!; try reflexivity. intros; discriminate. }
  destruct (soup_select soup "a[href]") as [links|e] eqn:Hlinks.
  2: { pass. pass. follow. split; [agreed|]. eexists.
       split_and!; [reflexivity | apply info_head_mode | apply info_head_mode |].
       intros ? ? ? ? [= <-] ?. congruence. }
  destruct (soup_select soup "img") as [images|e] eqn:Himages.
  2: { pass. pass. follow. split; [agreed|]. eexists.
       split_and!; [reflexivity | apply info_head_mode | apply info_head_mode |].
       intros ? ? ? ? [= <-] ? ?. congruence. }
  destruct (soup_select soup "form") as [forms|e] eqn:Hforms.
  2: { pass. pass. follow. split; [agreed|]. eexists.
       split_and!; [reflexivity | apply info_head_mode | apply info_head_mode |].
       intros ? ? ? ? [= <-] ? ? ?. congruence. }
  pass. pass. pass. follow. split; [agreed|]. eexists.
  split_and!; [reflexivity | apply info_head_mode | apply info_head_mode |].
  intros ? links' images' forms' [= <-] El Ei Ef.
  assert (links' = links) as -> by congruence.
  assert (images' = images) as -> by congruence.
  assert (forms' = forms) as -> by congruence.
  unfold document_info, info_head. cbn.
  destruct (bs4.find "title" soup); reflexivity.
Qed.

(** C5.  When the session wants a browser and both ways of starting one
    raise, [start_browser] still returns [True] and leaves the session in
    transport-only mode; after any further sequence of calls of public
    methods the session is still in transport-only mode, no call having
    raised, and [find], [extract_links] and [get_page_info] answer from
    the parsed Document. *)
Theorem degradation_is_permanent s w1 w2 e1 e2 calls selector timeout :
  use_browser s = true -> driver s = None ->
  uc_Chrome (world s) (chrome_options [] (headless s)) = (w1, Raise e1) ->
  webdriver_Chrome w1 (chrome_options ["--disable-gpu"] (headless s)) = (w2, Raise e2) ->
  let degraded := (start_browser s).1 in
  let later := (perform_all calls degraded).1 in
  (start_browser s).2 = Ok true /\
  browser_mode degraded = None /\
  (perform_all calls degraded).2 = Ok tt /\
  use_browser later = false /\
  browser_mode later = None /\
  (find selector timeout later).2
  = Ok (SoupElement <$> head (document_select (current_soup later) selector)) /\
  (extract_links later).2
  = Ok (document_links (current_url later) (current_soup later)) /\
  (exists info,
     (get_page_info later).2 = Ok info /\
     info_mode info = "requests" /\ info_url info = current_url later /\
     forall soup links images forms,
       current_soup later = Some soup ->
       soup_select soup "a[href]" = Ok links ->
       soup_select soup "img" = Ok images ->
       soup_select soup "form" = Ok forms ->
       info = document_info (current_url later) soup links images forms).
Proof.
  intros Hub Hdr H1 H2 degraded later.
  destruct (start_browser_both_fail s w1 w2 e1 e2 Hub Hdr H1 H2)
    as (Hr & Hub' & Hdr' & _).
  fold degraded in Hub', Hdr'.
  destruct (perform_all_degraded calls degraded Hub') as [Hub'' Hr''].
  fold later in Hub''.
  assert (Hmode : browser_mode later = None) by (unfold browser_mode; by rewrite Hub'').
  split_and!; try assumption.
  - unfold browser_mode. by rewrite Hub'.
  - by rewrite find_transport.
  - by destruct (extract_links_transport later Hmode) as [_ ->].
  - destruct (get_page_info_transport later Hmode) as (_ & info & H).
    exists info. exact H.
Qed.

(** ** The command line *)

Lemma after_total {A B} (m : Bot A) (k : A -> Bot B) s Q :
  total m -> (forall s' a, after (k a) s' Q) -> after (m ≫= k) s Q.
Proof.
  intros Ht H. apply after_bind. unfold after. destruct (Ht s) as [a Ha].
  destruct (m s) as [s' r]; simpl in *; subst r. apply H.
Qed.

Lemma total_say line : total (say line).
Proof. apply total_advance. Qed.

Lemma each_url_urls urls i n want_links want_images save_pages results s :
  after (each_url urls i n want_links want_images save_pages results) s (fun _ r =>
    exists rs, r = Ok rs /\ map result_url rs = map result_url results ++ urls).
Proof.
  revert i results s. induction urls as [|url urls IH]; intros i results s.
  - simpl. follow. exists results. by rewrite app_nil_r.
  - cbn [each_url]. pose proof total_say as Hsay.
    apply after_total; [auto|]. intros s1 _.
    apply after_total; [auto with bot|]. intros s2 loaded.
    assert (Hnext : forall result s',
              result_url result = url ->
              after (each_url urls (S i) n want_links want_images save_pages
                              (results ++ [result])) s'
                    (fun _ r => exists rs, r = Ok rs /\
                       map result_url rs = map result_url results ++ url :: urls)).
    { intros result s' Hurl. eapply after_weaken; [apply IH|].
      cbv beta. intros _ r (rs & -> & Hrs). exists rs. split; [reflexivity|].
      rewrite Hrs, map_app, <- app_assoc. cbn. by rewrite Hurl. }
    apply after_bind. destruct loaded.
    + apply after_total; [auto with bot|]. intros s3 info.
      apply after_total; [destruct want_links; auto with bot|]. intros s4 links.
      apply after_total; [destruct want_images; auto with bot|]. intros s5 images.
      apply after_total.
      { destruct save_pages; [|auto with bot].
        apply total_bind; [auto with bot | intros; auto with bot]. }
      intros s6 saved_file.
      apply after_total; [auto|]. intros s7 _.
      apply after_total; [auto|]. intros s8 _.
      apply after_total; [auto|]. intros s9 _.
      follow. by apply Hnext.
    + apply after_total; [auto|]. intros s3 _. follow. by apply Hnext.
Qed.

Lemma process_multiple_urls_urls urls browser want_links want_images save_pages tor w :
  exists bot results,
    process_multiple_urls urls browser want_links want_images save_pages tor w
    = (bot, Ok results) /\ map result_url results = urls.
Proof.
  unfold process_multiple_urls, with_bot.
  set (bot0 := __init__ w browser false true tor).
  destruct (total_start_browser bot0) as [b Hb].
  destruct (start_browser bot0) as [s1 r1]; simpl in Hb; subst r1.
  pose proof (each_url_urls urls 1 (length urls) want_links want_images save_pages [] s1)
    as (rs & Hr & Hrs). 
  destruct (each_url urls 1 (length urls) want_links want_images save_pages [] s1)
    as [s2 r2]; simpl in Hr; subst r2.
  eexists _, rs. split; [reflexivity | exact Hrs].
Qed.

End Claims.

(* ===================================================================== *)
(** * The run supervisor: what the spec says of it *)
(* ===================================================================== *)

Module SupervisorFacts.
Import Supervisor.

Lemma restarts_app (a b : list Effect) : restarts (a ++ b) = (restarts a + restarts b)%nat.
Proof. unfold restarts. by rewrite List.filter_app, length_app. Qed.

Lemma restarts_copy_output lines : restarts (copy_output lines) = 0%nat.
Proof. induction lines as [|l lines IH]; [reflexivity | exact IH]. Qed.

Lemma restarts_rotate i : restarts (rotate i) = 1%nat.
Proof. reflexivity. Qed.

Lemma restarts_probe out : restarts (probe out) = 0%nat.
Proof. reflexivity. Qed.

(** A turn whose worker was spawned and came to its exit. *)
Lemma turn_spawned i t child :
  worker t = Ok child ->
  turn i t
  = (rotate i ++ probe (curl_stdout t) ++ launch ++ copy_output (output child)
       ++ [StdoutClose; Wait (returncode child)] ++ cooldown, Ok tt).
Proof. intros H. unfold turn. rewrite H. by rewrite <- !app_assoc. Qed.

Lemma restarts_turn i t child :
  worker t = Ok child -> restarts (turn i t).1 = 1%nat.
Proof.
  intros H. rewrite (turn_spawned i t child H). cbn [fst].
  rewrite !restarts_app, restarts_rotate, restarts_probe, restarts_copy_output.
  reflexivity.
Qed.

(** When every worker is spawned the loop runs through all its indices. *)
Lemma loop_spawned indices outside children :
  (forall i, i ∈ indices -> worker (outside i) = Ok (children i)) ->
  loop indices outside = (flat_map (fun i => (turn i (outside i)).1) indices, Ok tt).
Proof.
  induction indices as [|i indices IH]; intros H; [reflexivity|].
  cbn [loop flat_map].
  rewrite (turn_spawned i (outside i) (children i)) by (apply H; left).
  rewrite IH by (intros j Hj; apply H; by right). reflexivity.
Qed.

Lemma restarts_turns indices outside children :
  (forall i, i ∈ indices -> worker (outside i) = Ok (children i)) ->
  restarts (flat_map (fun i => (turn i (outside i)).1) indices) = length indices.
Proof.
  induction indices as [|i indices IH]; intros H; [reflexivity|].
  cbn [flat_map length]. rewrite restarts_app.
  rewrite (restarts_turn i (outside i) (children i)) by (apply H; left).
  rewrite IH by (intros j Hj; apply H; by right). reflexivity.
Qed.

Lemma loop_app xs ys outside :
  loop (xs ++ ys) outside
  = match loop xs outside with
    | (effects, Ok _) => let '(later, r) := loop ys outside in (effects ++ later, r)
    | (effects, Raise e) => (effects, Raise e)
    end.
Proof.
  induction xs as [|i xs IH]; cbn [app loop].
  - by destruct (loop ys outside).
  - destruct (turn i (outside i)) as [effects [[]|e]]; [|reflexivity].
    rewrite IH. destruct (loop xs outside) as [effects' [[]|e]]; [|reflexivity].
    destruct (loop ys outside) as [later r]. by rewrite app_assoc.
Qed.

Lemma turn_failed i t e :
  worker t = Raise e ->
  turn i t = (rotate i ++ probe (curl_stdout t) ++ launch, Raise e).
Proof. intros H. unfold turn. by rewrite H. Qed.

(** However a turn ends, it begins with the restart of the proxy. *)
Lemma turn_begins i t : exists rest, (turn i t).1 = rotate i ++ rest.
Proof.
  unfold turn. destruct (worker t) as [child|e]; cbn [fst]; eexists; reflexivity.
Qed.

Lemma loop_begins i indices outside :
  exists rest, (loop (i :: indices) outside).1 = rotate i ++ rest.
Proof.
  cbn [loop]. destruct (turn_begins i (outside i)) as [rest Hrest].
  destruct (turn i (outside i)) as [effects [[]|e]]; cbn [fst] in *.
  - destruct (loop indices outside) as [later r]. cbn [fst]. rewrite Hrest.
    eexists. by rewrite <- app_assoc.
  - eauto.
Qed.

(** The script as far as the first worker that cannot be spawned. *)
Lemma run_stops_at_spawn_failure outside children j e :
  (forall i, (i < j)%nat -> worker (outside i) = Ok (children i)) ->
  (j < budget)%nat ->
  worker (outside j) = Raise e ->
  run_bot_loop outside
  = (LogOpen "full_run_log.txt" "a"
       :: flat_map (fun i => (turn i (outside i)).1) (seq 0 j)
       ++ rotate j ++ probe (curl_stdout (outside j)) ++ launch,
     Raise e).
Proof.
  intros Hspawn Hj Hfail.
  assert (Hsplit : seq 0 budget = seq 0 j ++ j :: seq (S j) (budget - S j)).
  { replace budget with (j + S (budget - S j))%nat at 1 by lia.
    rewrite seq_app. reflexivity. }
  assert (Hfirst : forall i, i ∈ seq 0 j -> worker (outside i) = Ok (children i)).
  { intros i Hi. apply Hspawn. apply elem_of_seq in Hi. lia. }
  unfold run_bot_loop. rewrite Hsplit, loop_app, (loop_spawned _ _ children Hfirst).
  cbn [loop]. rewrite (turn_failed j _ e Hfail). reflexivity.
Qed.

(** C6 (as amended).  When the workers of the turns up to [k] were
    spawned and the worker of turn [k] exits with a non-zero status, and
    [k+1] is within the budget, the script goes on: the wait for that
    child is followed by the cooldown and then by the head of turn
    [k+1], with its restart of the proxy, whatever happens later.  The
    script runs all its 200 turns and ends normally, with 200 restarts
    and the log closed, provided every worker can be spawned; when the
    worker of a turn [j] cannot be spawned it ends there, before the
    budget is used up, with the exception of the spawn and [j+1]
    restarts. *)
Theorem supervisor_continues_after_crash (outside : nat -> Turn)
    (children : nat -> Child) (k : nat) :
  (forall i, (i <= k)%nat -> worker (outside i) = Ok (children i)) ->
  (S k < budget)%nat ->
  returncode (children k) <> 0 ->
  (exists effects outcome before later,
     run_bot_loop outside = (effects, outcome) /\
     effects = before ++ [Wait (returncode (children k))] ++ cooldown
                 ++ rotate (S k) ++ later /\
     restarts before = S k) /\
  ((forall i, (i < budget)%nat -> worker (outside i) = Ok (children i)) ->
   exists effects,
     run_bot_loop outside = (effects, Ok tt) /\
     restarts effects = budget /\
     last effects = Some LogClose) /\
  (forall j e,
     (j < budget)%nat ->
     (forall i, (i < j)%nat -> worker (outside i) = Ok (children i)) ->
     worker (outside j) = Raise e ->
     exists effects,
       run_bot_loop outside = (effects, Raise e) /\
       restarts effects = S j).
Proof.
  intros Hspawn Hk _.
  set (turns := fun i => (turn i (outside i)).1).
  split_and!.
  - assert (Hsplit : seq 0 budget = seq 0 k ++ [k] ++ S k :: seq (S (S k)) (budget - S (S k))).
    { replace budget with (k + (1 + S (budget - S (S k))))%nat at 1 by lia.
      rewrite seq_app, (seq_app 1). cbn [seq Nat.add app].
      replace (k + 1)%nat with (S k) by lia. reflexivity. }
    assert (Hfirst : forall i, i ∈ seq 0 k ++ [k] -> worker (outside i) = Ok (children i)).
    { intros i Hi. apply Hspawn. apply elem_of_app in Hi as [Hi | Hi].
      - apply elem_of_seq in Hi. lia.
      - apply list_elem_of_singleton in Hi. lia. }
    destruct (loop_begins (S k) (seq (S (S k)) (budget - S (S k))) outside)
      as [rest Hrest].
    assert (Hloop : exists outcome,
              loop (seq 0 budget) outside
              = (flat_map turns (seq 0 k) ++ turns k ++ rotate (S k) ++ rest, outcome)).
    { rewrite Hsplit, app_assoc, loop_app, (loop_spawned _ _ children Hfirst).
      destruct (loop (S k :: _) outside) as [later r]. cbn [fst] in Hrest. subst later.
      exists r. rewrite flat_map_app. cbn [flat_map]. rewrite app_nil_r.
      by rewrite <- app_assoc. }
    destruct Hloop as [outcome Hloop].
    assert (Hturn : turns k
                    = (rotate k ++ probe (curl_stdout (outside k)) ++ launch
                         ++ copy_output (output (children k)) ++ [StdoutClose])
                        ++ [Wait (returncode (children k))] ++ cooldown).
    { unfold turns. rewrite (turn_spawned k _ (children k)) by (apply Hspawn; lia).
      cbn [fst]. rewrite <- !app_assoc. reflexivity. }
    assert (Hbefore :
      restarts (LogOpen "full_run_log.txt" "a" :: flat_map turns (seq 0 k)
                  ++ rotate k ++ probe (curl_stdout (outside k)) ++ launch
                  ++ copy_output (output (children k)) ++ [StdoutClose]) = S k).
    { change (restarts ([LogOpen "full_run_log.txt" "a"] ++ flat_map turns (seq 0 k)
                          ++ rotate k ++ probe (curl_stdout (outside k)) ++ launch
                          ++ copy_output (output (children k)) ++ [StdoutClose]) = S k).
      rewrite !restarts_app. unfold turns.
      rewrite (restarts_turns (seq 0 k) _ children), length_seq.
      - rewrite restarts_rotate, restarts_probe, restarts_copy_output.
        change (restarts [LogOpen "full_run_log.txt" "a"]) with 0%nat.
        change (restarts launch) with 0%nat.
        change (restarts [StdoutClose]) with 0%nat. lia.
      - intros i Hi. apply Hspawn. apply elem_of_seq in Hi. lia. }
    unfold run_bot_loop. rewrite Hloop, Hturn.
    destruct outcome as [[]|e].
    + eexists _, _, _, (rest ++ [LogClose]). split_and!; [reflexivity | | exact Hbefore].
      cbn [app]. f_equal. rewrite <- !app_assoc. cbn [app]. reflexivity.
    + eexists _, _, _, rest. split_and!; [reflexivity | | exact Hbefore].
      cbn [app]. f_equal. rewrite <- !app_assoc. cbn [app]. reflexivity.
  - intros Hall'.
    assert (Hall : forall i, i ∈ seq 0 budget -> worker (outside i) = Ok (children i)).
    { intros i Hi. apply Hall'. apply elem_of_seq in Hi. lia. }
    unfold run_bot_loop. rewrite (loop_spawned _ _ children Hall).
    eexists. split_and!; [reflexivity | |].
    + change (restarts ([LogOpen "full_run_log.txt" "a"]
                          ++ flat_map (fun i => (turn i (outside i)).1) (seq 0 budget)
                          ++ [LogClose]) = budget).
      rewrite !restarts_app, (restarts_turns _ _ children Hall), length_seq.
      change (restarts [LogOpen "full_run_log.txt" "a"]) with 0%nat.
      change (restarts [LogClose]) with 0%nat. lia.
    + rewrite app_comm_cons. apply last_snoc.
  - intros j e Hj Hfirst Hfail.
    rewrite (run_stops_at_spawn_failure outside children j e Hfirst Hj Hfail).
    eexists. split; [reflexivity|].
    change (restarts ([LogOpen "full_run_log.txt" "a"]
                        ++ flat_map (fun i => (turn i (outside i)).1) (seq 0 j)
                        ++ rotate j ++ probe (curl_stdout (outside j)) ++ launch) = S j).
    rewrite !restarts_app, (restarts_turns (seq 0 j) _ children), length_seq.
    + rewrite restarts_rotate, restarts_probe.
      change (restarts [LogOpen "full_run_log.txt" "a"]) with 0%nat.
      change (restarts launch) with 0%nat. lia.
    + intros i Hi. apply Hfirst. apply elem_of_seq in Hi. lia.
Qed.

End SupervisorFacts.

(* ===================================================================== *)
(** * Further properties of the navigation engine *)
(* ===================================================================== *)

Section Beyond.
Context {W : World}.
Implicit Types (s : UltimateBot).

(** ** Starting the browser *)

Lemma keeps__apply_stealth {B} (f : UltimateBot -> B) : core f -> keeps f _apply_stealth.
Proof. intros H. unfold _apply_stealth, the_driver. methodical. Qed.

Lemma keeps_try_methods {B} (f : UltimateBot -> B) methods :
  core f -> Forall (keeps f) methods -> keeps f (try_methods methods).
Proof.
  intros H Hall. pose proof (keeps__apply_stealth f H) as Hstealth.
  induction Hall as [|method methods Hm Hall IH]; cbn [try_methods]; methodical.
Qed.

Lemma keeps_start_browser {B} (f : UltimateBot -> B) :
  unstarted f -> keeps f start_browser.
Proof.
  intros (Hc & Hu & Hd). unfold start_browser.
  assert (Hmethods : keeps f (try_methods [_init_undetected_chrome; _init_standard_chrome])).
  { apply keeps_try_methods; [exact Hc|].
    repeat constructor; unfold _init_undetected_chrome, _init_standard_chrome; methodical. }
  methodical.
Qed.

Lemma unstarted_page : unstarted page.
Proof. repeat split. Qed.

Lemma unstarted_configuration : unstarted configuration.
Proof. repeat split. Qed.

Lemma settled_configuration : settled configuration.
Proof. repeat split. Qed.

Lemma core_page : core page.
Proof. repeat split. Qed.

(** X1.  The constructor's choices last: no call of a public method
    changes [headless], [stealth], [use_tor] or the headers and proxies
    of the HTTP session. *)
Theorem configuration_is_fixed calls s :
  configuration (perform_all calls s).1 = configuration s.
Proof.
  revert s. induction calls as [|c calls IH]; intros s; [reflexivity|].
  cbn [perform_all]. rewrite run_bind.
  assert (Hc : keeps configuration (perform c)).
  { pose proof settled_configuration as Hs. pose proof Hs as (Hcore & _).
    pose proof (keeps_start_browser configuration unstarted_configuration).
    destruct c; cbn [perform]; methodical. }
  specialize (Hc s). destruct (perform c s) as [s' [[]|e]]; simpl in *.
  - rewrite IH. exact Hc.
  - exact Hc.
Qed.

(** X3.  None of the methods a [Call] stands for ([start_browser],
    [goto], [find], [find_all], [click], [type_text], [get_text],
    [get_attribute], [submit_form], [scroll], [screenshot],
    [search_google], [search_bing], [extract_links], [extract_images],
    [analyze_social_media_content], [get_page_info], [save_page],
    [wait_for], [execute_js], [get_cookies], [get_current_url],
    [get_title]) lets an exception out: whatever the network, the
    parser, the browser and the file system answer, every call of a
    sequence of such calls returns a value.  Writing a log record,
    printing and sleeping are taken not to raise.  The two setup methods
    the constructor runs are not among these methods: [setup_logging]
    has no handler and raises when the log directory or the log file
    cannot be created. *)
Theorem public_methods_never_raise calls s :
  (perform_all calls s).2 = Ok tt.
Proof.
  revert s. induction calls as [|c calls IH]; intros s; [reflexivity|].
  cbn [perform_all]. rewrite run_bind.
  assert (Ht : total (perform c)) by (destruct c; cbn [perform]; methodical).
  destruct (Ht s) as [[] Hr]. destruct (perform c s) as [s' r]; simpl in Hr; subst r.
  apply IH.
Qed.

(** ** Logs and history only grow *)

Lemma older_refl s : older s s.
Proof. by repeat split. Qed.

Lemma older_trans s1 s2 s3 : older s1 s2 -> older s2 s3 -> older s1 s3.
Proof.
  intros (H1 & H2 & H3) (H4 & H5 & H6). repeat split; by etrans.
Qed.

Lemma grows_ret {A} (a : A) : grows (ret a).
Proof. intros s. apply older_refl. Qed.

Lemma grows_bind {A B} (m : Bot A) (k : A -> Bot B) :
  grows m -> (forall a, grows (k a)) -> grows (m ≫= k).
Proof.
  intros Hm Hk s. rewrite run_bind. specialize (Hm s).
  destruct (m s) as [s' [a|e]]; simpl in *; [|exact Hm].
  eapply older_trans; [exact Hm | apply Hk].
Qed.

Lemma grows_try {A} (body : Bot A) handler :
  grows body -> (forall e, grows (handler e)) -> grows (try_except body handler).
Proof.
  intros Hb Hh s. rewrite run_try. specialize (Hb s).
  destruct (body s) as [s' [a|e]]; simpl in *; [exact Hb|].
  eapply older_trans; [exact Hb | apply Hh].
Qed.

Lemma grows_self : grows self.
Proof. intros s. apply older_refl. Qed.

Lemma grows_lift {A} (r : Fallible A) : grows (lift r).
Proof. intros s. apply older_refl. Qed.

Lemma grows_observe {A} (g : Ext -> Fallible A) : grows (observe g).
Proof. intros s. apply older_refl. Qed.

Lemma grows_assign g : (forall s, older s (g s)) -> grows (assign g).
Proof. intros H s. apply H. Qed.

Lemma grows_act {A} (g : Ext -> Ext * Fallible A) : grows (act g).
Proof. intros s. unfold act. destruct (g (world s)). by repeat split. Qed.

Lemma grows_advance g : grows (advance g).
Proof. intros s. by repeat split. Qed.

Lemma grows_when b m : grows m -> grows (when b m).
Proof. intros H. destruct b; [exact H | apply grows_ret]. Qed.

Lemma grows_logger_emit lvl msg : grows (logger_emit lvl msg).
Proof. intros s. repeat split; cbn; [by apply prefix_app_r | done | done]. Qed.

Lemma grows__log_activity action : grows (_log_activity action).
Proof.
  unfold _log_activity. apply grows_bind; [apply grows_self | intros s0].
  apply grows_bind; [|intros _; apply grows_when, grows_advance].
  apply grows_assign. intros s. repeat split; cbn; [done | by apply prefix_app_r | done].
Qed.

Lemma grows_session_send r : grows (session_send r).
Proof.
  intros s. unfold session_send.
  destruct (session_request (world s) (session s) r) as [w answer].
  repeat split; cbn; [done | done | by apply prefix_app_r].
Qed.

End Beyond.

Create HintDb grow.

#[export] Hint Resolve grows_ret grows_self grows_lift grows_observe grows_act
  grows_advance grows_when grows_logger_emit grows__log_activity grows_session_send
  : grow.

(** One structural step on a [grows] goal. *)
Ltac grow_step :=
  lazymatch goal with
  | |- grows (mbind _ _) => apply grows_bind; [| intros ?]
  | |- grows (try_except _ _) => apply grows_try; [| intros ?]
  | |- grows (assign _) => apply grows_assign; intros; by repeat split
  | |- grows (match ?x with _ => _ end) => destruct x
  | |- grows (let _ := _ in _) => cbv zeta
  | |- grows (logger_info _) => unfold logger_info
  | |- grows (logger_warning _) => unfold logger_warning
  | |- grows (logger_error _) => unfold logger_error
  | |- grows (_random_delay) => unfold _random_delay
  | |- grows (not_callable) => unfold not_callable
  | |- grows (no_attribute _) => unfold no_attribute
  | |- grows (soup_missing_method _ _) => unfold soup_missing_method
  | |- _ => solve [auto with grow]
  end.

Ltac growing := repeat grow_step.

Section Growth.
Context {W : World}.
Implicit Types (s : UltimateBot).

Lemma grows_get_title : grows get_title.
Proof. unfold get_title. growing. Qed.
#[local] Hint Resolve grows_get_title : grow.

Lemma grows_goto url : grows (goto url).
Proof. unfold goto. growing. Qed.

Lemma grows_find selector timeout : grows (find selector timeout).
Proof. unfold find. growing. Qed.

Lemma grows_find_all selector : grows (find_all selector).
Proof. unfold find_all. growing. Qed.
#[local] Hint Resolve grows_goto grows_find grows_find_all : grow.

Lemma grows_click target use_js : grows (click target use_js).
Proof. unfold click, resolve. growing. Qed.

Lemma grows_send_each e text : grows (send_each e text).
Proof. induction text as [|c text IH]; simpl; growing. Qed.
#[local] Hint Resolve grows_click grows_send_each : grow.

Lemma grows_soup_clear t : grows (soup_clear t).
Proof.
  destruct t; cbn [soup_clear]; growing.
  apply grows_assign. intros s. destruct (current_soup s) as [soup|]; [|apply older_refl].
  destruct (node_path (world s) soup _); [by repeat split | apply older_refl].
Qed.
#[local] Hint Resolve grows_soup_clear : grow.

Lemma grows_type_text target text clear : grows (type_text target text clear).
Proof. unfold type_text, resolve. growing. Qed.

Lemma grows_get_text target : grows (get_text target).
Proof. unfold get_text. growing. Qed.

Lemma grows_get_attribute target attr : grows (get_attribute target attr).
Proof. unfold get_attribute. growing. Qed.
#[local] Hint Resolve grows_type_text grows_get_text grows_get_attribute : grow.

Lemma grows_type_fields items : grows (type_fields items).
Proof. induction items as [|[name value] items IH]; simpl; growing. Qed.
#[local] Hint Resolve grows_type_fields : grow.

Lemma grows_submit_form form_data form_selector :
  grows (submit_form form_data form_selector).
Proof. unfold submit_form. growing. Qed.
#[local] Hint Resolve grows_submit_form : grow.

Lemma grows_run_search box_selector query : grows (run_search box_selector query).
Proof. unfold run_search. growing. Qed.
#[local] Hint Resolve grows_run_search : grow.

Lemma grows_search_google query : grows (search_google query).
Proof. unfold search_google. growing. Qed.

Lemma grows_search_bing query : grows (search_bing query).
Proof. unfold search_bing. growing. Qed.

Lemma grows_each_link link_elements i links : grows (each_link link_elements i links).
Proof.
  revert i links. induction link_elements as [|x rest IH]; intros i links; simpl;
    unfold soup_get, soup_get_text; growing.
Qed.

Lemma grows_each_image img_elements i images : grows (each_image img_elements i images).
Proof.
  revert i images. induction img_elements as [|x rest IH]; intros i images; simpl;
    unfold soup_get; growing.
Qed.
#[local] Hint Resolve grows_search_google grows_search_bing grows_each_link
  grows_each_image : grow.

Lemma grows_extract_links : grows extract_links.
Proof. unfold extract_links. growing. Qed.

Lemma grows_extract_images : grows extract_images.
Proof. unfold extract_images. growing. Qed.

Lemma grows_info_failed info e : grows (info_failed info e).
Proof. unfold info_failed. growing. Qed.
#[local] Hint Resolve grows_info_failed : grow.

Lemma grows_info_from_soup soup info : grows (info_from_soup soup info).
Proof. unfold info_from_soup. growing. Qed.
#[local] Hint Resolve grows_info_from_soup : grow.

Lemma grows_get_page_info : grows get_page_info.
Proof. unfold get_page_info. growing. Qed.

Lemma grows_save_page filename : grows (save_page filename).
Proof. unfold save_page. growing. Qed.

Lemma grows_screenshot filename : grows (screenshot filename).
Proof. unfold screenshot. growing. Qed.

Lemma grows_close : grows close.
Proof. unfold close. growing. Qed.

Lemma grows__apply_stealth : grows _apply_stealth.
Proof. unfold _apply_stealth, the_driver. growing. Qed.
#[local] Hint Resolve grows__apply_stealth : grow.

Lemma grows_try_methods methods : Forall grows methods -> grows (try_methods methods).
Proof.
  intros Hall. induction Hall as [|method methods Hm Hall IH]; cbn [try_methods]; growing.
Qed.

Lemma grows_start_browser : grows start_browser.
Proof.
  unfold start_browser.
  assert (grows (try_methods [_init_undetected_chrome; _init_standard_chrome])).
  { apply grows_try_methods.
    repeat (apply Forall_cons; split); [| |apply Forall_nil];
      unfold _init_undetected_chrome, _init_standard_chrome; growing. }
  growing; assumption.
Qed.

Lemma grows_scroll direction pixels : grows (scroll direction pixels).
Proof. unfold scroll. growing. Qed.

Lemma grows_wait_for selector timeout : grows (wait_for selector timeout).
Proof. unfold wait_for. growing. Qed.

Lemma grows_execute_js script : grows (execute_js script).
Proof. unfold execute_js. growing. Qed.

Lemma grows_get_cookies : grows get_cookies.
Proof. unfold get_cookies. growing. Qed.

Lemma grows_get_current_url : grows get_current_url.
Proof. unfold get_current_url. growing. Qed.

Lemma grows_analyze : grows analyze_social_media_content.
Proof. unfold analyze_social_media_content. growing. Qed.

#[local] Hint Resolve grows_extract_links grows_extract_images grows_get_page_info
  grows_save_page grows_screenshot grows_close grows_start_browser grows_scroll
  grows_wait_for grows_execute_js grows_get_cookies grows_get_current_url
  grows_analyze : grow.

Lemma grows_perform c : grows (perform c).
Proof. destruct c; cbn [perform]; growing. Qed.

(** X4.  The logger's records, the activity log and the history of HTTP
    exchanges only grow under the methods a [Call] stands for (the
    twenty-three methods from [start_browser] to [get_title] that
    [perform] dispatches to): after any sequence of such
    calls each of them starts with what it held before, in the same
    order.  [setup_logging], which the constructor runs and which is
    not among these methods, starts the activity log afresh. *)
Theorem logs_only_grow calls s :
  logger s `prefix_of` logger (perform_all calls s).1 /\
  activity_log s `prefix_of` activity_log (perform_all calls s).1 /\
  exchanges s `prefix_of` exchanges (perform_all calls s).1.
Proof.
  change (older s (perform_all calls s).1). revert s.
  induction calls as [|c calls IH]; intros s; [apply older_refl|].
  cbn [perform_all]. rewrite run_bind. pose proof (grows_perform c s) as Hc.
  destruct (perform c s) as [s' [[]|e]]; simpl in *; [|exact Hc].
  eapply older_trans; [exact Hc | apply IH].
Qed.

End Growth.

#[export] Hint Resolve grows_soup_clear grows_get_title grows_goto grows_find
  grows_find_all grows_click grows_send_each grows_type_text grows_get_text
  grows_get_attribute grows_type_fields grows_submit_form grows_run_search
  grows_search_google grows_search_bing grows_each_link grows_each_image
  grows_extract_links grows_extract_images grows_info_failed grows_info_from_soup
  grows_get_page_info grows_save_page grows_screenshot grows_close
  grows__apply_stealth grows_start_browser grows_scroll grows_wait_for
  grows_execute_js grows_get_cookies grows_get_current_url grows_analyze : grow.

(* ===================================================================== *)
(** * Loading over HTTP: every outcome *)
(* ===================================================================== *)

Section Loading.
Context {W : World}.
Implicit Types (s : UltimateBot).

(** Every outcome of [goto] in transport-only mode. *)
Lemma goto_transport s url :
  browser_mode s = None ->
  after (goto url) s (fun s' r =>
    exists answer,
      exchanges s' = exchanges s ++ [(mkRequest GET url ∅ 30, answer)] /\
      match answer with
      | Raise _ =>
          r = Ok false /\ current_url s' = current_url s /\
          current_soup s' = current_soup s
      | Ok response =>
          if status_code response =? 200 then
            current_url s' = response_url response /\
            match BeautifulSoup (response_text response) with
            | Ok soup => r = Ok true /\ current_soup s' = Some soup
            | Raise _ => r = Ok false /\ current_soup s' = current_soup s
            end
          else
            r = Ok false /\ current_url s' = current_url s /\
            current_soup s' = current_soup s
      end).
Proof.
  intros Hmode. unfold goto. follow. pass. pass. follow.
  essential. replace (browser_mode s'0) with (@None Driver) by congruence.
  apply after_send. intros w [response|e]; cbv beta iota zeta.
  - destruct (status_code response =? 200) eqn:Hstatus; cbn [negb].
    + follow.
      destruct (BeautifulSoup (response_text response)) as [soup|e] eqn:Hparse.
      * follow. pass. follow. pass. pass. pass. pass. follow.
        essential. exists (Ok response). split; [cbn in *; congruence|].
        cbv beta iota. rewrite Hstatus, Hparse. cbn in *. repeat split; congruence.
      * cbv beta iota. pass. pass. follow.
        essential. exists (Ok response). split; [cbn in *; congruence|].
        cbv beta iota. rewrite Hstatus, Hparse. cbn in *. repeat split; congruence.
    + pass. follow.
      essential. exists (Ok response). split; [cbn in *; congruence|].
      cbv beta iota. rewrite Hstatus. cbn in *. repeat split; congruence.
  - pass. pass. follow.
    essential. exists (Raise e). split; [cbn in *; congruence|].
    cbv beta iota. cbn in *. repeat split; congruence.
Qed.

(** X5.  In transport-only mode every call of [goto] sends exactly one
    request, whatever comes of it: a GET for the URL given, without
    parameters, with a timeout of 30 seconds. *)
Theorem goto_sends_one_get s url :
  browser_mode s = None ->
  exists answer,
    exchanges (goto url s).1 = exchanges s ++ [(mkRequest GET url ∅ 30, answer)].
Proof.
  intros Hmode. destruct (goto_transport s url Hmode) as (answer & Hex & _).
  exists answer. exact Hex.
Qed.

(** X6.  In transport-only mode, when the HTTP client raises (no
    connection, timeout, bad URL), [goto] returns [False] and the current
    URL and Document are those of the page loaded before. *)
Theorem goto_network_error_keeps_page s url e :
  browser_mode s = None ->
  exchanges (goto url s).1 = exchanges s ++ [(mkRequest GET url ∅ 30, Raise e)] ->
  (goto url s).2 = Ok false /\
  current_url (goto url s).1 = current_url s /\
  current_soup (goto url s).1 = current_soup s.
Proof.
  intros Hmode Hex. destruct (goto_transport s url Hmode) as (answer & Hex' & H).
  rewrite Hex in Hex'. apply last_exchange in Hex'. injection Hex' as <-. exact H.
Qed.

(** X7.  In transport-only mode, when the response has status 200 but
    the parser raises on its body, [goto] returns [False] with the object
    half updated: the current URL is already the response's, while the
    Document is still the one of the page loaded before. *)
Theorem goto_parse_failure_moves_url s url response e :
  browser_mode s = None ->
  exchanges (goto url s).1 = exchanges s ++ [(mkRequest GET url ∅ 30, Ok response)] ->
  status_code response = 200 ->
  BeautifulSoup (response_text response) = Raise e ->
  (goto url s).2 = Ok false /\
  current_url (goto url s).1 = response_url response /\
  current_soup (goto url s).1 = current_soup s.
Proof.
  intros Hmode Hex Hstatus Hparse.
  destruct (goto_transport s url Hmode) as (answer & Hex' & H).
  rewrite Hex in Hex'. apply last_exchange in Hex'. injection Hex' as <-.
  rewrite Hstatus, Hparse in H. cbn in H. tauto.
Qed.

(** X8.  In transport-only mode [goto] returns [True] only when the page
    was replaced: the request was answered with status 200, the parser
    accepted the body, and the current URL and Document are the
    response's. *)
Theorem goto_true_means_loaded s url :
  browser_mode s = None ->
  (goto url s).2 = Ok true ->
  exists response soup,
    exchanges (goto url s).1 = exchanges s ++ [(mkRequest GET url ∅ 30, Ok response)] /\
    status_code response = 200 /\
    BeautifulSoup (response_text response) = Ok soup /\
    current_url (goto url s).1 = response_url response /\
    current_soup (goto url s).1 = Some soup.
Proof.
  intros Hmode Hr. destruct (goto_transport s url Hmode) as (answer & Hex & H).
  rewrite Hr in H. destruct answer as [response|e]; [|by destruct H].
  destruct (status_code response =? 200) eqn:Hstatus; [|by destruct H].
  destruct H as [Hurl H].
  destruct (BeautifulSoup (response_text response)) as [soup|e] eqn:Hparse;
    [|by destruct H].
  exists response, soup. apply Z.eqb_eq in Hstatus. by destruct H.
Qed.

(** X9.  In transport-only mode [submit_form] returns [True] only when
    the page was replaced: a request was sent and answered with status
    200, the parser accepted the body, and the current URL and Document
    are the response's. *)
Theorem submit_form_true_means_loaded s form_data form_selector :
  browser_mode s = None ->
  (submit_form form_data form_selector s).2 = Ok true ->
  exists request response soup,
    exchanges (submit_form form_data form_selector s).1
    = exchanges s ++ [(request, Ok response)] /\
    status_code response = 200 /\
    BeautifulSoup (response_content response) = Ok soup /\
    current_url (submit_form form_data form_selector s).1 = response_url response /\
    current_soup (submit_form form_data form_selector s).1 = Some soup.
Proof.
  intros Hmode Hr.
  pose proof (submit_form_transport s form_data form_selector Hmode) as H.
  unfold after in H. rewrite Hr in H.
  destruct (current_soup s) as [soup0|]; [|by destruct H].
  destruct (soup_select soup0 form_selector) as [[|form rest]|e];
    [by destruct H | | by destruct H].
  destruct (form_request (current_url s) form form_data) as [request|e];
    [|by destruct H].
  destruct H as (answer & Hex & H).
  destruct answer as [response|e]; [|by destruct H].
  destruct (status_code response =? 200) eqn:Hstatus; [|by destruct H].
  destruct H as [Hurl H].
  destruct (BeautifulSoup (response_content response)) as [soup|e] eqn:Hparse;
    [|by destruct H].
  exists request, response, soup. apply Z.eqb_eq in Hstatus. by destruct H.
Qed.

(** X10.  In transport-only mode, when the submission is answered with
    status 200 but the parser raises on the body, [submit_form] returns
    [False] with the object half updated: the current URL is already the
    response's, the Document still the one submitted from. *)
Theorem submit_form_parse_failure_moves_url s form_data form_selector
    request response e :
  browser_mode s = None ->
  exchanges (submit_form form_data form_selector s).1
  = exchanges s ++ [(request, Ok response)] ->
  status_code response = 200 ->
  BeautifulSoup (response_content response) = Raise e ->
  (submit_form form_data form_selector s).2 = Ok false /\
  current_url (submit_form form_data form_selector s).1 = response_url response /\
  current_soup (submit_form form_data form_selector s).1 = current_soup s.
Proof.
  intros Hmode Hex Hstatus Hparse.
  pose proof (submit_form_transport s form_data form_selector Hmode) as H.
  unfold after in H.
  assert (Hsame : forall r, r = Ok false /\ agree s (submit_form form_data form_selector s).1
                            -> False).
  { intros r [_ E]. apply essence_fields in E as (_&_&_&_&_&E&_).
    rewrite Hex in E. symmetry in E. by apply not_grown in E. }
  destruct (current_soup s) as [soup0|]; [|by apply Hsame in H].
  destruct (soup_select soup0 form_selector) as [[|form rest]|e'];
    [by apply Hsame in H | | by apply Hsame in H].
  destruct (form_request (current_url s) form form_data) as [request'|e'];
    [|by apply Hsame in H].
  destruct H as (answer & Hex' & H). rewrite Hex in Hex'.
  apply last_exchange in Hex'. injection Hex' as _ <-.
  rewrite Hstatus, Hparse in H. cbn in H. tauto.
Qed.

End Loading.

(* ===================================================================== *)
(** * The request of a form submission *)
(* ===================================================================== *)

Section Submitting.
Context {W : World}.
Implicit Types (s : UltimateBot).

(** The request [submit_form] sends in transport-only mode is the one
    built from the first form the selector matches. *)
Lemma submit_form_sent s form_data form_selector soup form rest request answer :
  browser_mode s = None ->
  current_soup s = Some soup ->
  soup_select soup form_selector = Ok (form :: rest) ->
  exchanges (submit_form form_data form_selector s).1
  = exchanges s ++ [(request, answer)] ->
  form_request (current_url s) form form_data = Ok request.
Proof.
  intros Hmode Hsoup Hsel Hex.
  pose proof (submit_form_transport s form_data form_selector Hmode) as H.
  unfold after in H. rewrite Hsoup, Hsel in H.
  destruct (form_request (current_url s) form form_data) as [request'|e].
  - destruct H as (answer' & Hex' & _). rewrite Hex in Hex'.
    apply last_exchange in Hex'. by injection Hex' as -> _.
  - destruct H as [_ H]. apply essence_fields in H as (_ & _ & _ & _ & _ & H & _).
    rewrite Hex in H. symmetry in H. by apply not_grown in H.
Qed.

Lemma form_request_fields url form form_data request :
  form_request url form form_data = Ok request ->
  req_fields request = form_data ∪ seed_fields form.
Proof.
  unfold form_request.
  destruct (if truthy (bs4.get_default "action" EmptyString form)
            then urllib_parse.urljoin check_host url
                   (bs4.get_default "action" EmptyString form)
            else Ok url) as [submit_url|e]; cbn; [|discriminate].
  by intros [= <-].
Qed.

(** X11.  In transport-only mode [submit_form] never invents a field:
    every field of the request it sends either carries a value the
    caller supplied under that name, or is the default of a named
    [input] of type text, email, password or hidden or of a named
    [textarea] of the form.  Checkboxes, radio buttons, selects and
    buttons are never submitted on their own. *)
Theorem submit_form_fields_have_a_source s form_data form_selector soup form rest
    request answer name value :
  browser_mode s = None ->
  current_soup s = Some soup ->
  soup_select soup form_selector = Ok (form :: rest) ->
  exchanges (submit_form form_data form_selector s).1
  = exchanges s ++ [(request, answer)] ->
  req_fields request !! name = Some value ->
  form_data !! name = Some value \/
  (form_data !! name = None /\
   exists e, e ∈ form_controls form /\ field_default e = Some (name, value)).
Proof.
  intros Hmode Hsoup Hsel Hex Hfield.
  pose proof (submit_form_sent _ _ _ _ _ _ _ _ Hmode Hsoup Hsel Hex) as Hreq.
  apply form_request_fields in Hreq. rewrite Hreq in Hfield.
  apply lookup_union_Some_raw in Hfield as [Hcaller | [Hnone Hseed]]; [by left|].
  right. split; [exact Hnone|].
  unfold seed_fields in Hseed. rewrite seed_fields_lookup, lookup_empty in Hseed.
  fold (form_controls form) in Hseed. unfold last_default in Hseed.
  destruct (last _) as [v|] eqn:Hlast; [|discriminate]. injection Hseed as ->.
  apply last_Some_elem_of in Hlast. apply list_elem_of_omap in Hlast as (e & Hin & He).
  exists e. split; [exact Hin|].
  destruct (field_default e) as [[n v]|]; [|discriminate].
  destruct (String.eqb_spec n name) as [->|]; [|discriminate]. by injection He as ->.
Qed.

(** X12.  In transport-only mode the request [submit_form] sends has a
    timeout of 30 seconds; it is a POST exactly when the form's [method]
    attribute, lower-cased, is [post], and a GET otherwise, in
    particular when the form has no [method]; and it goes to the current
    URL when the form has no [action]. *)
Theorem submit_form_request_shape s form_data form_selector soup form rest
    request answer :
  browser_mode s = None ->
  current_soup s = Some soup ->
  soup_select soup form_selector = Ok (form :: rest) ->
  exchanges (submit_form form_data form_selector s).1
  = exchanges s ++ [(request, answer)] ->
  req_timeout request = 30 /\
  (req_method request = POST <->
   exists method, bs4.get "method" form = Some method /\ Str.lower method = "post") /\
  (bs4.get "action" form = None -> req_url request = current_url s).
Proof.
  intros Hmode Hsoup Hsel Hex.
  pose proof (submit_form_sent _ _ _ _ _ _ _ _ Hmode Hsoup Hsel Hex) as Hreq.
  unfold form_request in Hreq.
  destruct (if truthy (bs4.get_default "action" EmptyString form)
            then urllib_parse.urljoin check_host (current_url s)
                   (bs4.get_default "action" EmptyString form)
            else Ok (current_url s)) as [submit_url|e] eqn:Hurl; cbn in Hreq;
    [|discriminate].
  injection Hreq as <-. cbn. split_and!.
  - reflexivity.
  - unfold bs4.get_default.
    destruct (bs4.get "method" form) as [method|]; cbn.
    + destruct (String.eqb_spec (Str.lower method) "post") as [E|E].
      * split; [eauto | reflexivity].
      * split; [discriminate|]. intros (m & [= <-] & Hm). contradiction.
    + split; [discriminate|]. intros (m & [=] & _).
  - intros Haction. unfold bs4.get_default in Hurl. rewrite Haction in Hurl.
    cbn in Hurl. by injection Hurl as <-.
Qed.

End Submitting.

(* ===================================================================== *)
(** * A running browser *)
(* ===================================================================== *)

Section Browser.
Context {W : World}.
Implicit Types (s : UltimateBot).

(** A step that may raise but leaves the essence alone. *)
Lemma after_calm {A B} (m : Bot A) (k : A -> Bot B) s Q :
  keeps essence m ->
  (forall s' a, essence s' = essence s -> after (k a) s' Q) ->
  (forall s' e, essence s' = essence s -> Q s' (Raise e)) ->
  after (m ≫= k) s Q.
Proof.
  intros Hk Hok Hraise. apply after_bind. unfold after. specialize (Hk s).
  destruct (m s) as [s' [a|e]]; simpl in *; [apply Hok | apply Hraise]; exact Hk.
Qed.

Lemma after_calm_last {A} (m : Bot A) s (Q : UltimateBot -> Fallible A -> Prop) :
  keeps essence m ->
  (forall s' r, essence s' = essence s -> Q s' r) ->
  after m s Q.
Proof. intros Hk H. unfold after. apply H, Hk. Qed.

(** A step that returns and leaves the part [f] of the object alone. *)
Lemma after_keeping {A B C} (f : UltimateBot -> C) (m : Bot A) (k : A -> Bot B) s Q :
  total m -> keeps f m ->
  (forall s' a, f s' = f s -> after (k a) s' Q) ->
  after (m ≫= k) s Q.
Proof.
  intros Ht Hk H. apply after_bind. unfold after.
  destruct (Ht s) as [a Ha]. specialize (Hk s).
  destruct (m s) as [s' r]; simpl in *; subst r. apply H, Hk.
Qed.

(** A step that may raise but leaves the part [f] of the object alone. *)
Lemma after_calm_keeping {A B C} (f : UltimateBot -> C) (m : Bot A) (k : A -> Bot B)
    s Q :
  keeps f m ->
  (forall s' a, f s' = f s -> after (k a) s' Q) ->
  (forall s' e, f s' = f s -> Q s' (Raise e)) ->
  after (m ≫= k) s Q.
Proof.
  intros Hk Hok Hraise. apply after_bind. unfold after. specialize (Hk s).
  destruct (m s) as [s' [a|e]]; simpl in *; [apply Hok | apply Hraise]; exact Hk.
Qed.

(** A step known to leave the traffic alone. *)
Lemma after_steady {A B} (m : Bot A) (k : A -> Bot B) s Q :
  after m s (fun s' _ => traffic s' = traffic s) ->
  (forall s' a, traffic s' = traffic s -> after (k a) s' Q) ->
  (forall s' e, traffic s' = traffic s -> Q s' (Raise e)) ->
  after (m ≫= k) s Q.
Proof.
  unfold after at 1. intros Hm Hok Hraise. apply after_bind. unfold after.
  destruct (m s) as [s' [a|e]]; simpl in *; [apply Hok | apply Hraise]; exact Hm.
Qed.

Lemma core_traffic : core traffic.
Proof. repeat split. Qed.

Lemma apart_traffic : apart traffic.
Proof. repeat split. Qed.

Lemma traffic_mode s s' : traffic s' = traffic s -> browser_mode s' = browser_mode s.
Proof. unfold traffic, browser_mode. intros [= -> -> _]. reflexivity. Qed.

End Browser.

#[export] Hint Resolve core_traffic apart_traffic : bot.

(** Close a goal on the traffic of a state reached along a run. *)
Ltac unpack :=
  essential;
  repeat match goal with
         | H : traffic _ = traffic _ |- _ =>
             pose proof (traffic_mode _ _ H); unfold traffic in H; injection H as ? ? ?
         end;
  cbn in *.

Ltac settle :=
  unpack; unfold traffic; cbn;
  repeat match goal with |- (_, _) = (_, _) => f_equal end; congruence.

(** One step of a run in browser mode with the driver [d]. *)
Ltac stroll_step d :=
  cbv beta iota zeta;
  lazymatch goal with
  | |- after _ ?s _ =>
      lazymatch goal with
      | |- context [browser_mode s] =>
          replace (browser_mode s) with (Some d) by (unpack; congruence)
      | |- context [@not_callable] => unfold not_callable
      | |- context [@no_attribute] => unfold no_attribute
      | |- after (match ?x with _ => _ end) _ _ => destruct x
      | |- after (mbind _ (match ?x with _ => _ end)) _ _ => destruct x
      | |- after (mbind _ _) _ _ =>
          first
            [ follow_step
            | apply after_quiet; [solve [methodical] | solve [methodical] | intros ? ? ?]
            | apply after_calm; [solve [methodical] | intros ? ? ? | intros ? ? ?]
            | apply (after_calm_keeping traffic);
              [solve [methodical] | intros ? ? ? | intros ? ? ?] ]
      | |- _ =>
          first
            [ follow_step
            | apply after_calm_last; [solve [methodical] | intros ? ? ?] ]
      end
  | |- match ?r with _ => _ end => destruct r
  end.

Ltac stroll d := repeat stroll_step d.

Section BrowserFacts.
Context {W : World}.
Implicit Types (s : UltimateBot).

Lemma goto_browser s url d :
  browser_mode s = Some d ->
  after (goto url) s (fun s' _ => traffic s' = traffic s).
Proof. intros Hmode. unfold goto. stroll d; settle. Qed.

Lemma submit_form_browser s form_data form_selector d :
  browser_mode s = Some d ->
  after (submit_form form_data form_selector) s (fun s' _ => traffic s' = traffic s).
Proof. intros Hmode. unfold submit_form. stroll d; settle. Qed.

Lemma run_search_browser s box_selector query d :
  browser_mode s = Some d ->
  after (run_search box_selector query) s (fun s' _ => traffic s' = traffic s).
Proof. intros Hmode. unfold run_search. stroll d; settle. Qed.

Lemma search_google_browser s query d :
  browser_mode s = Some d ->
  after (search_google query) s (fun s' _ => traffic s' = traffic s).
Proof.
  intros Hmode. unfold search_google. follow. pass.
  apply after_steady;
    [apply (goto_browser _ _ d); unpack; congruence | intros s1 loaded E1 | intros s1 e E1].
  - destruct loaded; cbn [negb]; [|stroll d; settle].
    pass. follow. apply after_bind. eapply after_calm_last.
    { destruct a0; [destruct (use_browser s'0)|]; methodical. }
    intros s2 r2 E2. destruct r2 as [[]|e]; [|stroll d; settle].
    eapply after_weaken; [apply (run_search_browser _ _ _ d); unpack; congruence|].
    cbv beta. intros s3 r3 E3. destruct r3; stroll d; settle.
  - stroll d; settle.
Qed.

Lemma search_bing_browser s query d :
  browser_mode s = Some d ->
  after (search_bing query) s (fun s' _ => traffic s' = traffic s).
Proof.
  intros Hmode. unfold search_bing. follow. pass.
  apply after_steady;
    [apply (goto_browser _ _ d); unpack; congruence | intros s1 loaded E1 | intros s1 e E1].
  - destruct loaded; cbn [negb]; [|stroll d; settle].
    eapply after_weaken; [apply (run_search_browser _ _ _ d); unpack; congruence|].
    cbv beta. intros s3 r3 E3. destruct r3; stroll d; settle.
  - stroll d; settle.
Qed.

Lemma start_browser_running s d :
  browser_mode s = Some d -> start_browser s = (s, Ok true).
Proof.
  unfold browser_mode. intros Hmode. unfold start_browser. rewrite run_bind. cbn [self].
  destruct (use_browser s); [|discriminate]. rewrite Hmode. reflexivity.
Qed.

Lemma perform_browser c s d :
  browser_mode s = Some d -> traffic (perform c s).1 = traffic s.
Proof.
  intros Hmode. pose proof core_traffic as Hcore.
  assert (Hnav : forall m : Bot bool,
            after m s (fun s' _ => traffic s' = traffic s) ->
            traffic ((m ;; ret tt) s).1 = traffic s).
  { intros m Hm. unfold after in Hm. rewrite run_bind.
    destruct (m s) as [s' [a|e]]; exact Hm. }
  destruct c; cbn [perform];
    lazymatch goal with
    | |- traffic (mbind _ (goto _) s).1 = _ =>
        apply Hnav, (goto_browser _ _ d), Hmode
    | |- traffic (mbind _ (submit_form _ _) s).1 = _ =>
        apply Hnav, (submit_form_browser _ _ _ d), Hmode
    | |- traffic (mbind _ (search_google _) s).1 = _ =>
        apply Hnav, (search_google_browser _ _ d), Hmode
    | |- traffic (mbind _ (search_bing _) s).1 = _ =>
        apply Hnav, (search_bing_browser _ _ d), Hmode
    | |- traffic (mbind _ start_browser s).1 = _ =>
        rewrite run_bind, (start_browser_running s d Hmode); reflexivity
    | |- traffic (?m s).1 = _ =>
        assert (keeps traffic m) as H by methodical; apply H
    end.
Qed.

(** X13.  A session with a running browser stays in browser mode with
    the same driver, and never uses the HTTP session: whatever public
    methods are called, no request is added to the history of
    exchanges. *)
Theorem browser_mode_sends_no_requests calls s d :
  browser_mode s = Some d ->
  browser_mode (perform_all calls s).1 = Some d /\
  exchanges (perform_all calls s).1 = exchanges s.
Proof.
  intros Hmode.
  assert (H : traffic (perform_all calls s).1 = traffic s).
  { revert s Hmode. induction calls as [|c calls IH]; intros s Hmode; [reflexivity|].
    cbn [perform_all]. rewrite run_bind.
    pose proof (perform_browser c s d Hmode) as Hc.
    destruct (perform c s) as [s' [[]|e]]; simpl in *; [|exact Hc].
    rewrite IH; [exact Hc|]. rewrite (traffic_mode _ _ Hc). exact Hmode. }
  split; [rewrite (traffic_mode _ _ H); exact Hmode|].
  unfold traffic in H. by injection H.
Qed.

End BrowserFacts.

(* ===================================================================== *)
(** * What touches the page *)
(* ===================================================================== *)

Section Touching.
Context {W : World}.
Implicit Types (s : UltimateBot).

Lemma apart_address : apart address.
Proof. repeat split. Qed.

Lemma unstarted_address : unstarted address.
Proof. repeat split. Qed.

Lemma unstarted_current_soup : unstarted current_soup.
Proof. repeat split. Qed.

(** In browser mode [find] hands out elements of the browser only. *)
Lemma find_browser s selector timeout d :
  browser_mode s = Some d ->
  after (find selector timeout) s (fun s' r =>
    essence s' = essence s /\
    exists found, r = Ok found /\ forall t, found <> Some (SoupElement t)).
Proof.
  intros Hmode. unfold find. follow. rewrite Hmode. apply after_bind.
  unfold after, act. destruct (wait_presence _ _ _ _) as [w [e|err]]; cbn.
  - split; [reflexivity|]. eexists. split; [reflexivity | discriminate].
  - split; [reflexivity|]. eexists. split; [reflexivity | discriminate].
Qed.

Lemma type_text_keeps_document s target text clear :
  empties_a_node (CallTypeText target text clear) = false \/ browser_mode s = None ->
  current_soup (type_text target text clear s).1 = current_soup s.
Proof.
  intros H. destruct (browser_mode s) as [d|] eqn:Hmode.
  2: { unfold type_text. rewrite run_bind. cbn [self]. rewrite Hmode. reflexivity. }
  destruct H as [H | H]; [|discriminate H].
  change (after (type_text target text clear) s
            (fun s' _ => current_soup s' = current_soup s)).
  unfold type_text. follow. rewrite Hmode. follow.
  destruct target as [selector | [e | t]]; cbn [resolve].
  - apply after_bind. eapply after_weaken; [by apply (find_browser _ _ _ d)|].
    cbv beta. intros s1 r1 [E1 (found & -> & Hfound)].
    clear H. destruct found as [[e | t]|]; [| by destruct (Hfound t) |];
      stroll d; essential; congruence.
  - clear H. stroll d; essential; congruence.
  - destruct t, clear; try discriminate H; clear H; follow;
      cbn [when soup_clear soup_missing_method]; stroll d; essential; congruence.
Qed.

(** X2.  The current URL and the history of HTTP exchanges are changed
    by [goto], [submit_form], [search_google] and [search_bing] only:
    every other public method of the interface leaves both as they were
    and sends no request.  The same holds of the Document, with one
    exception: in browser mode [type_text] with [clear] set, handed a
    parsed tag by its caller, clears that tag, which the Document
    shares. *)
Theorem only_navigation_moves_the_page c s :
  navigates c = false ->
  current_url (perform c s).1 = current_url s /\
  exchanges (perform c s).1 = exchanges s /\
  (empties_a_node c = false \/ browser_mode s = None ->
   current_soup (perform c s).1 = current_soup s).
Proof.
  intros Hc.
  assert (Haddress : address (perform c s).1 = address s).
  { pose proof apart_address as Hap. pose proof Hap as (Hcore & _).
    pose proof (keeps_start_browser address unstarted_address) as Hstart.
    assert (keeps address (perform c)) as H; [|apply H].
    destruct c; try discriminate Hc; cbn [perform]; methodical. }
  unfold address in Haddress. injection Haddress as Hurl Hex.
  split_and!; [exact Hurl | exact Hex |]. intros Hsoup.
  pose proof core_current_soup as Hcore.
  pose proof (keeps_start_browser current_soup unstarted_current_soup) as Hstart.
  destruct c; try discriminate Hc; cbn [perform];
    lazymatch goal with
    | |- current_soup (mbind _ (type_text ?target ?text ?clear) s).1 = _ =>
        rewrite run_bind;
        pose proof (type_text_keeps_document s target text clear Hsoup) as Hkeep;
        destruct (type_text target text clear s) as [s' [b|e]]; exact Hkeep
    | |- current_soup (?m s).1 = _ =>
        assert (keeps current_soup m) as H by methodical; apply H
    end.
Qed.

(** X30.  In browser mode [type_text] with [clear] set, handed a parsed
    tag, clears that tag before anything else: when the tag is a node of
    the Document, the Document loses the contents of that node.  The
    call then returns [True] for an empty text and [False] for any
    other, since a parsed tag cannot be typed into; the current URL and
    the history of exchanges are as before. *)
Theorem type_text_clear_empties_the_node s d name attrs contents text :
  browser_mode s = Some d ->
  (type_text (ByElement (SoupElement (Tag name attrs contents))) text true s).2
  = Ok (negb (truthy text)) /\
  current_soup
    (type_text (ByElement (SoupElement (Tag name attrs contents))) text true s).1
  = (fun soup =>
       match node_path (world s) soup (Tag name attrs contents) with
       | Some path => bs4.clear_at path soup
       | None => soup
       end) <$> current_soup s /\
  current_url (type_text (ByElement (SoupElement (Tag name attrs contents))) text true s).1
  = current_url s /\
  exchanges (type_text (ByElement (SoupElement (Tag name attrs contents))) text true s).1
  = exchanges s.
Proof.
  intros Hmode.
  change (after (type_text (ByElement (SoupElement (Tag name attrs contents))) text true) s
            (fun s' r =>
               r = Ok (negb (truthy text)) /\
               current_soup s'
               = (fun soup =>
                    match node_path (world s) soup (Tag name attrs contents) with
                    | Some path => bs4.clear_at path soup
                    | None => soup
                    end) <$> current_soup s /\
               current_url s' = current_url s /\ exchanges s' = exchanges s)).
  unfold type_text. follow. rewrite Hmode. follow. cbn [resolve]. follow.
  cbn [when soup_clear]. follow.
  assert (Hcleared :
    forall s', essence s'
               = essence match current_soup s with
                         | Some soup =>
                             match node_path (world s) soup (Tag name attrs contents) with
                             | Some path =>
                                 with_current_soup (Some (bs4.clear_at path soup)) s
                             | None => s
                             end
                         | None => s
                         end ->
      current_soup s'
      = (fun soup =>
           match node_path (world s) soup (Tag name attrs contents) with
           | Some path => bs4.clear_at path soup
           | None => soup
           end) <$> current_soup s /\
      current_url s' = current_url s /\ exchanges s' = exchanges s).
  { intros s' E. apply essence_fields in E as (_&_&_& Hu & Hs & He &_).
    rewrite Hu, Hs, He. destruct (current_soup s) as [soup|] eqn:Hsoup; cbn.
    - destruct (node_path (world s) soup _); cbn; by rewrite ?Hsoup.
    - by rewrite Hsoup. }
  destruct text as [|c text]; cbn [soup_missing_method truthy negb]; follow.
  - pass. follow. split; [reflexivity|]. by apply Hcleared.
  - unfold not_callable. follow. pass. follow. split; [reflexivity|]. by apply Hcleared.
Qed.

End Touching.

(* ===================================================================== *)
(** * Starting the browser: what a call settles *)
(* ===================================================================== *)

Section Starting.
Context {W : World}.
Implicit Types (s : UltimateBot).

Lemma total__apply_stealth : total _apply_stealth.
Proof. unfold _apply_stealth. methodical. Qed.

Lemma sets_driver_undetected : sets_driver _init_undetected_chrome.
Proof.
  intros s. unfold _init_undetected_chrome. follow. apply after_bind.
  unfold after, act. destruct (uc_Chrome _ _) as [w [d|e]]; cbn; [eauto | discriminate].
Qed.

Lemma sets_driver_standard : sets_driver _init_standard_chrome.
Proof.
  intros s. unfold _init_standard_chrome. follow. apply after_bind.
  unfold after, act. destruct (webdriver_Chrome _ _) as [w [d|e]]; cbn; [eauto | discriminate].
Qed.

Lemma try_methods_started methods s :
  Forall sets_driver methods ->
  after (try_methods methods) s (fun s' r =>
    exists started, r = Ok started /\ (started = true -> is_Some (driver s'))).
Proof.
  intros Hall. revert s.
  induction Hall as [|method methods Hm Hall IH]; intros s; cbn [try_methods].
  { follow. exists false. split; [reflexivity | discriminate]. }
  apply after_bind, after_try, after_bind.
  eapply after_weaken; [apply Hm|]. cbv beta. intros s1 [[|]|e] H1.
  - follow.
    apply (after_keeping driver);
      [apply total_when, total__apply_stealth
      | apply keeps_when, keeps__apply_stealth, core_driver |].
    intros s2 [] E2.
    apply (after_keeping driver); [unfold logger_info; auto with bot ..|].
    intros s3 [] E3. follow. exists true. split; [reflexivity|]. intros _.
    rewrite E3, E2. by apply H1.
  - follow. apply IH.
  - apply (after_keeping driver); [unfold logger_warning; auto with bot ..|].
    intros s2 [] E2. follow. apply IH.
Qed.

Lemma start_browser_outcome s :
  after start_browser s (fun s' r =>
    r = Ok true /\ (use_browser s' = false \/ is_Some (driver s'))).
Proof.
  unfold start_browser. follow.
  destruct (negb (use_browser s) || bool_decide (is_Some (driver s)))%bool eqn:Hcond.
  { follow. split; [reflexivity|].
    apply orb_true_iff in Hcond as [Hub | Hdr].
    - left. by apply negb_true_iff in Hub.
    - right. by apply bool_decide_eq_true in Hdr. }
  follow. apply (after_keeping driver); [unfold logger_info; auto with bot ..|].
  intros s1 [] E1. apply after_bind.
  eapply after_weaken.
  { apply try_methods_started.
    apply Forall_cons; split; [apply sets_driver_undetected|].
    apply Forall_cons; split; [apply sets_driver_standard | by apply Forall_nil]. }
  cbv beta. intros s2 r (started & -> & Hstarted). destruct started.
  - follow. split; [reflexivity|]. right. by apply Hstarted.
  - unfold logger_warning, logger_emit. follow. split; [reflexivity | by left].
Qed.

(** X14.  [start_browser] returns [True] whatever happens, and leaves
    the session either in transport-only mode or with a driver; from
    there on another call of it does nothing at all. *)
Theorem start_browser_settles_the_mode s :
  (start_browser s).2 = Ok true /\
  (use_browser (start_browser s).1 = false \/ is_Some (driver (start_browser s).1)) /\
  start_browser (start_browser s).1 = ((start_browser s).1, Ok true).
Proof.
  destruct (start_browser_outcome s) as [Hr Hmode].
  set (started := (start_browser s).1) in *. split_and!; [exact Hr | exact Hmode |].
  unfold start_browser. rewrite run_bind. cbn [self].
  destruct Hmode as [-> | Hdr]; [reflexivity|].
  rewrite (bool_decide_eq_true_2 _ Hdr), orb_true_r. reflexivity.
Qed.

End Starting.

(* ===================================================================== *)
(** * Reading the Document in transport-only mode *)
(* ===================================================================== *)

Section Reading.
Context {W : World}.
Implicit Types (s : UltimateBot).

(** X15.  In transport-only mode the lookups answer from the first node
    of the Document the selector matches, at once and whatever the
    timeout: [find] gives that node, [wait_for] whether there is one,
    [get_text] its stripped text and [get_attribute] its attribute, the
    empty string standing for a missing node or attribute.  None of them
    changes the object or writes a log record. *)
Theorem lookups_answer_from_the_document s selector timeout attr :
  browser_mode s = None ->
  let first := head (document_select (current_soup s) selector) in
  find selector timeout s = (s, Ok (SoupElement <$> first)) /\
  wait_for selector timeout s = (s, Ok (bool_decide (is_Some first))) /\
  get_text (BySelector selector) s
  = (s, Ok (from_option (bs4.get_text true) EmptyString first)) /\
  get_attribute (BySelector selector) attr s
  = (s, Ok (from_option (bs4.get_default attr EmptyString) EmptyString first)).
Proof.
  intros Hmode first. split_and!.
  - by apply find_transport.
  - apply run_of_after. unfold wait_for. follow. rewrite Hmode.
    eapply after_known; [by apply find_transport|]. follow. fold first.
    split; [reflexivity|]. f_equal. apply bool_decide_ext.
    destruct first; cbn; split; intros [? [=]]; eauto.
  - apply run_of_after. unfold get_text. follow.
    eapply after_known; [by apply find_transport|]. fold first.
    destruct first as [t|]; cbn; follow; [|auto]. rewrite Hmode. follow. auto.
  - apply run_of_after. unfold get_attribute. follow.
    eapply after_known; [by apply find_transport|]. fold first.
    destruct first as [t|]; cbn; follow; [|auto]. rewrite Hmode. follow. auto.
Qed.

(** X16.  In transport-only mode the remaining browser-only methods
    refuse without raising: [screenshot] returns the empty string and
    [execute_js] returns [None], each after one warning in the log and
    with nothing else changed; [scroll] returns without doing anything,
    not even logging. *)
Theorem browser_only_methods_refuse s filename script direction pixels :
  browser_mode s = None ->
  screenshot filename s
  = (with_logger (logger s ++ [(WARNING, "Screenshot requires browser mode")]) s,
     Ok EmptyString) /\
  execute_js script s
  = (with_logger (logger s ++ [(WARNING, "JavaScript execution requires browser mode")]) s,
     Ok None) /\
  scroll direction pixels s = (s, Ok tt).
Proof.
  intros Hmode. unfold screenshot, execute_js, scroll. rewrite !run_bind. cbn [self].
  rewrite Hmode. split_and!; reflexivity.
Qed.

(** X17.  In transport-only mode [extract_links] returns, in document
    order, one record for each anchor the link selector matches whose
    [href] is not empty and resolves against the current URL, and skips
    the others without stopping; [extract_images] does the same with the
    [src] of the images.  Neither changes anything but the logs. *)
Theorem extraction_reads_the_document s :
  browser_mode s = None ->
  (extract_links s).2 = Ok (document_links (current_url s) (current_soup s)) /\
  (extract_images s).2 = Ok (document_images (current_url s) (current_soup s)) /\
  agree s (extract_links s).1 /\ agree s (extract_images s).1.
Proof.
  intros Hmode.
  destruct (extract_links_transport s Hmode) as [Hl ->].
  destruct (extract_images_transport s Hmode) as [Hi ->]. by split_and!.
Qed.

(** X18.  In transport-only mode, without a Document, [get_page_info]
    returns the current URL with empty title, description and keywords,
    all counts zero and the mode [requests]. *)
Theorem get_page_info_before_any_load s :
  browser_mode s = None -> current_soup s = None ->
  (get_page_info s).2
  = Ok (mkInfo (current_url s) EmptyString EmptyString EmptyString 0 0 0 0 "requests").
Proof.
  intros Hmode Hsoup.
  change (after get_page_info s (fun _ r =>
    r = Ok (mkInfo (current_url s) EmptyString EmptyString EmptyString 0 0 0 0 "requests"))).
  unfold get_page_info. pass. pass. follow. essential.
  replace (browser_mode s'0) with (@None Driver) by congruence.
  replace (current_soup s'0) with (@None PageElement) by congruence.
  replace (current_url s'0) with (current_url s) by congruence.
  cbn [info_from_soup]. follow. reflexivity.
Qed.

Lemma omap_no_longer {A B} (f : A -> option B) (l : list A) :
  (length (omap f l) <= length l)%nat.
Proof.
  induction l as [|x l IH]; cbn; [lia|]. destruct (f x); cbn; lia.
Qed.

(** X19.  In transport-only mode, when the three counting selectors work
    on the Document, the lists [extract_links] and [extract_images]
    return are never longer than the [links_count] and [images_count]
    that [get_page_info] reports. *)
Theorem extraction_within_the_counts s soup links images forms :
  browser_mode s = None -> current_soup s = Some soup ->
  soup_select soup "a[href]" = Ok links ->
  soup_select soup "img" = Ok images ->
  soup_select soup "form" = Ok forms ->
  exists info found_links found_images,
    (get_page_info s).2 = Ok info /\
    (extract_links s).2 = Ok found_links /\
    (extract_images s).2 = Ok found_images /\
    (length found_links <= links_count info)%nat /\
    (length found_images <= images_count info)%nat.
Proof.
  intros Hmode Hsoup Hlinks Himages Hforms.
  destruct (get_page_info_transport s Hmode) as (_ & info & Hinfo & _ & _ & Hdoc).
  destruct (extract_links_transport s Hmode) as [_ Hl].
  destruct (extract_images_transport s Hmode) as [_ Hi].
  exists info, (document_links (current_url s) (current_soup s)),
    (document_images (current_url s) (current_soup s)).
  split_and!; [assumption..| |].
  - rewrite (Hdoc soup links images forms) by assumption.
    unfold document_links, document_select. rewrite Hsoup, Hlinks. cbn.
    apply omap_no_longer.
  - rewrite (Hdoc soup links images forms) by assumption.
    unfold document_images, document_select. rewrite Hsoup, Himages. cbn.
    apply omap_no_longer.
Qed.

End Reading.

(* ===================================================================== *)
(** * Content classification *)
(* ===================================================================== *)

Section Classifying.
Context {W : World}.
Implicit Types (s : UltimateBot).

(** What [analyze_social_media_content] returns. *)
Lemma analyze_result s :
  after analyze_social_media_content s (fun s' r =>
    agree s s' /\
    r = Ok (analyze_soup (current_soup s)
              (mkAnalysis (detect_platform (Str.lower (current_url s))).1
                          (detect_platform (Str.lower (current_url s))).2 [] ∅ false))).
Proof.
  unfold analyze_social_media_content. pass. pass. follow. essential.
  replace (current_url s'0) with (current_url s) by congruence.
  replace (current_soup s'0) with (current_soup s) by congruence.
  destruct (detect_platform (Str.lower (current_url s))) as [p t]. cbn [fst snd].
  pass. pass. pass. follow. essential. split; [agreed | reflexivity].
Qed.

Lemma harvest_meta_keys metas acc key :
  is_Some (fold_left harvest_meta metas acc !! key) ->
  is_Some (acc !! key) \/
  Str.startswith "og:" key = true \/ Str.startswith "twitter:" key = true \/
  Str.among key ["description"; "keywords"; "author"] = true.
Proof.
  revert acc. induction metas as [|meta metas IH]; intros acc; cbn [fold_left];
    [by left|].
  intros H. apply IH in H as [H | H]; [|by right]. unfold harvest_meta in H.
  destruct (Str.startswith "og:" _ || Str.startswith "twitter:" _)%bool eqn:Hprop.
  - destruct (decide (bs4.get_default "property" EmptyString meta = key)) as [<-|Hne].
    + right. apply orb_true_iff in Hprop. tauto.
    + left. by rewrite lookup_insert_ne in H.
  - destruct (Str.among (bs4.get_default "name" EmptyString meta) _) eqn:Hname;
      [|by left].
    destruct (decide (bs4.get_default "name" EmptyString meta = key)) as [<-|Hne].
    + right. tauto.
    + left. by rewrite lookup_insert_ne in H.
Qed.

(** X20.  [analyze_social_media_content] always returns an analysis,
    and the analysis is consistent: the post type is [tweet] only on the
    platform [twitter/x], and [unknown] otherwise; the content is flagged
    dynamic exactly when the indicator of a JavaScript framework is
    listed; and every key of the collected metadata is an [og:] or
    [twitter:] property or one of the names description, keywords and
    author. *)
Theorem analysis_is_consistent s :
  exists a,
    (analyze_social_media_content s).2 = Ok a /\
    (post_type a = "tweet" /\ platform a = "twitter/x" \/ post_type a = "unknown") /\
    (dynamic_content a = true <->
     "JavaScript framework detected" ∈ content_indicators a) /\
    (forall key, is_Some (meta_data a !! key) ->
       Str.startswith "og:" key = true \/ Str.startswith "twitter:" key = true \/
       Str.among key ["description"; "keywords"; "author"] = true).
Proof.
  destruct (analyze_result s) as [_ Hr]. eexists. split; [exact Hr|].
  set (a0 := mkAnalysis _ _ [] ∅ false).
  assert (Hplatform : post_type a0 = "tweet" /\ platform a0 = "twitter/x"
                      \/ post_type a0 = "unknown").
  { unfold a0, detect_platform. cbn.
    repeat match goal with |- context [if ?b then _ else _] => destruct b; cbn end;
      auto. }
  destruct (current_soup s) as [soup|]; cbn [analyze_soup].
  2: { split_and!; [exact Hplatform | | ].
       - cbn. split; [discriminate | intros H; by apply elem_of_nil in H].
       - cbn. intros key [v Hv]. by rewrite lookup_empty in Hv. }
  cbn [platform post_type content_indicators meta_data dynamic_content].
  split_and!; [exact Hplatform | |].
  - destruct (existsb framework_script (bs4.find_all ["script"] soup)).
    + split; [intros _; apply elem_of_app; left; by apply list_elem_of_singleton | done].
    + split; [discriminate|]. cbn [app]. intros H.
      destruct (Nat.ltb _ 1000); [|by apply elem_of_nil in H].
      apply list_elem_of_singleton in H. discriminate H.
  - intros key H. apply harvest_meta_keys in H as [[v Hv] | H]; [|exact H].
    cbn in Hv. by rewrite lookup_empty in Hv.
Qed.

End Classifying.

(* ===================================================================== *)
(** * The command line: what reaches the session *)
(* ===================================================================== *)

Section CommandLine.
Context {W : World}.
Implicit Types (s : UltimateBot).

Lemma init_configuration w browser headless stealth tor :
  configuration (__init__ w browser headless stealth tor)
  = (headless, stealth, tor,
     mkSession stealth_headers (if tor then tor_proxies else ∅)).
Proof.
  unfold __init__, setup_session, configuration. rewrite !run_bind. cbn.
  destruct tor; cbn; by rewrite !(right_id_L ∅ (∪)).
Qed.

Lemma keeps_say {B} (f : UltimateBot -> B) line : core f -> keeps f (say line).
Proof. intros H. apply keeps_advance. apply H. Qed.

Lemma keeps_say_each {A B} (f : UltimateBot -> B) (line : A -> string) items :
  core f -> keeps f (say_each line items).
Proof.
  intros H. pose proof (fun l => keeps_say f l H) as Hsay.
  induction items as [|x items IH]; simpl; methodical.
Qed.

Lemma keeps_each_url {B} (f : UltimateBot -> B) urls i n want_links want_images
    save_pages results :
  settled f -> keeps f (each_url urls i n want_links want_images save_pages results).
Proof.
  intros Hs. pose proof Hs as (Hcore & _).
  pose proof (fun l => keeps_say f l Hcore) as Hsay.
  revert i results. induction urls as [|url urls IH]; intros i results; simpl;
    methodical.
Qed.

Lemma keeps_single_run {B} (f : UltimateBot -> B) urls_to_process args :
  settled f -> keeps f (single_run urls_to_process args).
Proof.
  intros Hs. pose proof Hs as (Hcore & _).
  pose proof (fun l => keeps_say f l Hcore) as Hsay.
  pose proof (fun A (line : A -> string) items => keeps_say_each f line items Hcore)
    as Hsays.
  unfold single_run, navigate. methodical; apply keeps_when; methodical.
Qed.

Lemma with_bot_keeps {A B} (f : UltimateBot -> B) bot (body : Bot A) :
  unstarted f -> keeps f body -> f (with_bot bot body).1 = f bot.
Proof.
  intros Hu Hbody. pose proof Hu as (Hcore & _). unfold with_bot.
  pose proof (keeps_start_browser f Hu bot) as Hstart.
  destruct (start_browser bot) as [s1 [b|e]]; simpl in *; [|exact Hstart].
  specialize (Hbody s1). destruct (body s1) as [s2 r]; simpl in *.
  rewrite (keeps_close f Hcore s2). congruence.
Qed.

Lemma process_multiple_urls_configuration urls browser want_links want_images
    save_pages tor w :
  configuration
    (process_multiple_urls urls browser want_links want_images save_pages tor w).1
  = (false, true, tor, mkSession stealth_headers (if tor then tor_proxies else ∅)).
Proof.
  unfold process_multiple_urls.
  rewrite with_bot_keeps;
    [apply init_configuration | apply unstarted_configuration
    | apply keeps_each_url, settled_configuration].
Qed.

(** X21.  What the command line makes of the session, whatever the
    worker then does: [--tor] routes the HTTP session through the proxy
    only together with [--batch] (with [--urls] alone or on the
    single-URL path the session has no proxy), and [--headless] is
    honoured only on the single-URL path (with [--batch] or [--urls] the
    bot is never headless).  The stealth headers are always set. *)
Theorem command_line_configuration urls_to_process args w :
  match main urls_to_process args w with
  | RanInteractive => args_interactive args = true
  | RanMultiple bot _ =>
      headless bot = false /\
      use_tor bot = (args_batch args && args_tor args)%bool /\
      proxies (session bot)
      = (if (args_batch args && args_tor args)%bool then tor_proxies else ∅) /\
      headers (session bot) = stealth_headers
  | RanSingle bot =>
      headless bot = args_headless args /\
      use_tor bot = false /\
      proxies (session bot) = ∅ /\
      headers (session bot) = stealth_headers
  end.
Proof.
  unfold main. destruct (args_interactive args); [reflexivity|].
  destruct (args_batch args); cbn [andb].
  { pose proof (process_multiple_urls_configuration urls_to_process (args_browser args)
                  (args_links args) (args_images args) (args_save args) (args_tor args)
                  (print w ("Processing " +:+ pretty (length urls_to_process)
                            +:+ " URLs in batch mode..."))) as H.
    destruct (process_multiple_urls _ _ _ _ _ _ _) as [bot results]. cbn [fst] in H.
    unfold configuration in H. injection H as -> _ -> ->. by split_and!. }
  assert (Hsingle :
    exists bot,
      (let '(bot, r) :=
         with_bot (__init__ w (args_browser args) (args_headless args) true false)
                  (single_run urls_to_process args) in
       match r with
       | Ok _ => RanSingle bot
       | Raise e => RanSingle (with_world (print (world bot) ("Error: " +:+ e)) bot)
       end) = RanSingle bot /\
      headless bot = args_headless args /\ use_tor bot = false /\
      proxies (session bot) = ∅ /\ headers (session bot) = stealth_headers).
  { pose proof (with_bot_keeps configuration
                  (__init__ w (args_browser args) (args_headless args) true false)
                  (single_run urls_to_process args) unstarted_configuration
                  (keeps_single_run _ _ _ settled_configuration)) as H.
    rewrite init_configuration in H.
    destruct (with_bot _ _) as [bot r]. cbn [fst] in H.
    unfold configuration in H. injection H as Hh _ Ht Hs.
    destruct r; eexists; (split; [reflexivity|]); cbn; rewrite Hh, Ht, Hs;
      by split_and!. }
  destruct Hsingle as (bot1 & Hran & Hsingle).
  destruct (args_urls args) as [[|u us]|];
    [rewrite Hran; exact Hsingle | | rewrite Hran; exact Hsingle].
  pose proof (process_multiple_urls_configuration (u :: us) (args_browser args)
                (args_links args) (args_images args) (args_save args) false
                (print w ("Processing " +:+ pretty (length (u :: us)) +:+ " URLs...")))
    as H.
  destruct (process_multiple_urls _ _ _ _ _ _ _) as [bot results]. cbn [fst] in H.
  unfold configuration in H. injection H as -> _ -> ->. by split_and!.
Qed.

End CommandLine.

(* ===================================================================== *)
(** * Searching over HTTP *)
(* ===================================================================== *)

Section Searching.
Context {W : World}.
Implicit Types (s : UltimateBot).

(** The outcome of [submit_form] in transport-only mode, as far as the
    exchanges go. *)
Lemma submit_form_exchanges s form_data form_selector :
  browser_mode s = None ->
  after (submit_form form_data form_selector) s (fun s' r =>
    (exists b, r = Ok b) /\
    (exchanges s' = exchanges s \/
     exists request answer,
       exchanges s' = exchanges s ++ [(request, answer)] /\
       req_fields request = form_data ∪ req_fields request)).
Proof.
  intros Hmode.
  pose proof (submit_form_transport s form_data form_selector Hmode) as H.
  unfold after in *.
  assert (Hquiet : forall r s', r = Ok false /\ agree s s' ->
            (exists b, r = Ok b) /\
            (exchanges s' = exchanges s \/
             exists request answer,
               exchanges s' = exchanges s ++ [(request, answer)] /\
               req_fields request = form_data ∪ req_fields request)).
  { intros r s' [-> E]. apply essence_fields in E. split; [eauto | tauto]. }
  destruct (current_soup s) as [soup|]; [|by apply Hquiet].
  destruct (soup_select soup form_selector) as [[|form rest]|e];
    [by apply Hquiet | | by apply Hquiet].
  destruct (form_request (current_url s) form form_data) as [request|e] eqn:Hreq;
    [|by apply Hquiet].
  destruct H as (answer & Hex & H). split.
  - destruct answer as [response|e]; [|destruct H as [-> _]; eauto].
    destruct (status_code response =? 200); [|destruct H as [-> _]; eauto].
    destruct H as [_ H].
    destruct (BeautifulSoup (response_content response)); destruct H as [-> _]; eauto.
  - right. exists request, answer. split; [exact Hex|].
    apply form_request_fields in Hreq. rewrite Hreq.
    by rewrite (assoc_L (∪)), (idemp_L (∪)).
Qed.

Lemma run_search_transport s box_selector query :
  browser_mode s = None ->
  after (run_search box_selector query) s (fun s' r =>
    (exists b, r = Ok b) /\
    (exchanges s' = exchanges s \/
     exists request answer,
       exchanges s' = exchanges s ++ [(request, answer)] /\
       req_fields request !! "q" = Some query)).
Proof.
  intros Hmode. unfold run_search. follow. rewrite Hmode.
  eapply after_weaken; [by apply submit_form_exchanges|].
  cbv beta. intros s' r [Hr [Hex | (request & answer & Hex & Hfields)]].
  - split; [exact Hr | by left].
  - split; [exact Hr|]. right. exists request, answer. split; [exact Hex|].
    rewrite Hfields. apply lookup_union_Some_l. apply lookup_singleton_eq.
Qed.

(** The start page of a search in transport-only mode. *)
Lemma goto_outcome s url :
  browser_mode s = None ->
  after (goto url) s (fun s' r =>
    browser_mode s' = None /\ (exists b, r = Ok b) /\
    exists answer, exchanges s' = exchanges s ++ [(mkRequest GET url ∅ 30, answer)]).
Proof.
  intros Hmode. pose proof (goto_transport s url Hmode) as (answer & Hex & H).
  pose proof (keeps_goto browser_mode url settled_browser_mode s) as Hkeep.
  pose proof (total_goto url s) as [b Hb].
  unfold after. split_and!; [congruence | eauto | eauto].
Qed.

Lemma search_google_transport s query :
  browser_mode s = None ->
  after (search_google query) s (fun s' _ => searched "https://www.google.com" query s s').
Proof.
  intros Hmode. unfold search_google. follow. pass. essential.
  apply after_bind. eapply after_weaken; [apply goto_outcome; congruence|].
  cbv beta. intros s1 r1 (Hmode1 & [loaded ->] & a1 & Hex1).
  destruct loaded; cbn [negb].
  2: { follow. exists a1. left. congruence. }
  eapply after_known; [by apply find_transport|]. follow.
  apply after_quiet.
  { destruct (_ <$> _); [destruct (use_browser s1)|]; methodical. }
  { destruct (_ <$> _); [destruct (use_browser s1)|]; methodical. }
  intros s2 [] E2. essential.
  eapply after_weaken; [apply run_search_transport; congruence|].
  cbv beta. intros s3 r3 [[b ->] [Hex | (request & answer & Hex & Hq)]].
  - exists a1. left. congruence.
  - exists a1. right. exists request, answer. split; [|exact Hq].
    rewrite Hex. replace (exchanges s2) with (exchanges s1) by congruence.
    rewrite Hex1. replace (exchanges s') with (exchanges s) by congruence.
    by rewrite <- app_assoc.
Qed.

Lemma search_bing_transport s query :
  browser_mode s = None ->
  after (search_bing query) s (fun s' _ => searched "https://www.bing.com" query s s').
Proof.
  intros Hmode. unfold search_bing. follow. pass. essential.
  apply after_bind. eapply after_weaken; [apply goto_outcome; congruence|].
  cbv beta. intros s1 r1 (Hmode1 & [loaded ->] & a1 & Hex1).
  destruct loaded; cbn [negb].
  2: { follow. exists a1. left. congruence. }
  eapply after_weaken; [apply run_search_transport; congruence|].
  cbv beta. intros s3 r3 [[b ->] [Hex | (request & answer & Hex & Hq)]].
  - exists a1. left. congruence.
  - exists a1. right. exists request, answer. split; [|exact Hq].
    rewrite Hex, Hex1. replace (exchanges s') with (exchanges s) by congruence.
    by rewrite <- app_assoc.
Qed.

(** X22.  In transport-only mode a search sends one request or two:
    first a GET for the start page of the engine (google.com for
    [search_google], bing.com for [search_bing]) and then at most the
    submission of that page's search form, which carries the query as
    the field [q]. *)
Theorem search_sends_the_query s query :
  browser_mode s = None ->
  searched "https://www.google.com" query s (search_google query s).1 /\
  searched "https://www.bing.com" query s (search_bing query s).1.
Proof.
  intros Hmode. split; [by apply search_google_transport | by apply search_bing_transport].
Qed.

End Searching.

(* ===================================================================== *)
(** * A batch over HTTP *)
(* ===================================================================== *)

Section Batch.
Context {W : World}.
Implicit Types (s : UltimateBot).

Lemma init_state w browser headless stealth tor :
  use_browser (__init__ w browser headless stealth tor) = browser /\
  driver (__init__ w browser headless stealth tor) = None /\
  exchanges (__init__ w browser headless stealth tor) = [].
Proof.
  unfold __init__, setup_session. rewrite !run_bind. cbn. by destruct tor.
Qed.

Lemma each_url_fetches urls i n want_links want_images save_pages results s :
  browser_mode s = None ->
  after (each_url urls i n want_links want_images save_pages results) s (fun s' _ =>
    map fst (exchanges s')
    = map fst (exchanges s) ++ map (fun url => mkRequest GET url ∅ 30) urls).
Proof.
  revert i results s. induction urls as [|url urls IH]; intros i results s Hmode.
  { simpl. follow. by rewrite app_nil_r. }
  cbn [each_url].
  pose proof total_say as Htsay.
  pose proof (fun l => keeps_say essence l core_essence) as Hksay.
  apply after_quiet; [auto | auto | intros s1 [] E1]. essential.
  apply after_bind. eapply after_weaken; [apply goto_outcome; congruence|].
  cbv beta. intros s2 r2 (Hmode2 & [loaded ->] & a & Hex2).
  apply after_quiet.
  { destruct loaded, want_links, want_images, save_pages; methodical. }
  { destruct loaded, want_links, want_images, save_pages; methodical. }
  intros s3 result E3. essential.
  eapply after_weaken; [apply IH; congruence|].
  cbv beta. intros s4 _ ->.
  replace (exchanges s3) with (exchanges s2) by congruence. rewrite Hex2.
  replace (exchanges s1) with (exchanges s) by congruence.
  rewrite map_app, <- app_assoc. reflexivity.
Qed.

(** X23.  A batch run without a browser fetches each URL of its list
    exactly once and in order, with a GET without parameters and a
    timeout of 30 seconds, and sends nothing else: the analysis of a
    loaded page, the extraction of its links and images and the saving
    of the page cost no request, and a URL that fails is not retried. *)
Theorem batch_fetches_each_url_once urls want_links want_images save_pages tor w :
  map fst
    (exchanges (process_multiple_urls urls false want_links want_images save_pages tor w).1)
  = map (fun url => mkRequest GET url ∅ 30) urls.
Proof.
  unfold process_multiple_urls, with_bot.
  destruct (init_state w false false true tor) as (Hub & Hdr & Hex).
  rewrite (start_browser_degraded _ Hub).
  pose proof (each_url_fetches urls 1 (length urls) want_links want_images save_pages []
                (__init__ w false false true tor)) as H.
  unfold after in H.
  destruct (each_url _ _ _ _ _ _ _ _) as [s' r]. cbn [fst] in *.
  rewrite (keeps_close exchanges core_exchanges s'), H, Hex; [reflexivity|].
  unfold browser_mode. by rewrite Hub.
Qed.

End Batch.

(* ===================================================================== *)
(** * The command line: which operation runs *)
(* ===================================================================== *)

Section Dispatch.
Context {W : World}.
Implicit Types (s : UltimateBot).

(** A method that begins by logging a record: the record follows at once
    what the log held, whatever the rest of the method adds. *)
Lemma starts_with_record {A} lvl msg (k : unit -> Bot A) handler s :
  grows (try_except (k tt) handler) ->
  exists later,
    logger (try_except (logger_emit lvl msg ≫= k) handler s).1
    = logger s ++ (lvl, msg) :: later.
Proof.
  intros Hgrows.
  pose proof (Hgrows (with_logger (logger s ++ [(lvl, msg)]) s)) as ([later Hlater] & _).
  exists later. cbn in Hlater. rewrite <- app_assoc in Hlater. exact Hlater.
Qed.

Lemma older_record s s' (l : list (Level * string)) x later :
  logger s = l ++ x :: later -> older s s' ->
  exists later', logger s' = l ++ x :: later'.
Proof.
  intros Hs ([more Hmore] & _). exists (later ++ more).
  rewrite Hmore, Hs, <- app_assoc. reflexivity.
Qed.

Lemma grows_say line : grows (say line).
Proof. apply grows_advance. Qed.

Lemma grows_say_each {A} (line : A -> string) items : grows (say_each line items).
Proof.
  pose proof grows_say as Hsay.
  induction items as [|x items IH]; simpl; growing; auto.
Qed.

(** What the single-URL path logs first. *)
Lemma navigate_first_record urls_to_process args s :
  exists later,
    logger (navigate urls_to_process args s).1
    = logger s
        ++ (INFO,
            match given (args_search args), given (args_bing args),
                  given (args_url args) with
            | Some query, _, _ => "Searching Google for: " +:+ query
            | None, Some query, _ => "Searching Bing for: " +:+ query
            | None, None, Some url => "🌐 NAVIGATING TO: " +:+ url
            | None, None, None =>
                "🌐 NAVIGATING TO: " +:+ match urls_to_process with
                                         | first :: _ => first
                                         | [] => "https://www.google.com"
                                         end
            end) :: later.
Proof.
  assert (Hdone : forall (op : Bot bool) l x,
            (exists later, logger (op s).1 = l ++ x :: later) ->
            exists later, logger ((op ;; ret tt) s).1 = l ++ x :: later).
  { intros op l x H. rewrite run_bind. by destruct (op s) as [s' [b|e]]. }
  assert (Hgoto : forall url,
            exists later,
              logger ((goto url ;; ret tt) s).1
              = logger s ++ (INFO, "🌐 NAVIGATING TO: " +:+ url) :: later).
  { intros url. apply Hdone. unfold goto. apply starts_with_record. growing. }
  unfold navigate.
  destruct (given (args_search args)) as [query|].
  { apply Hdone. unfold search_google. apply starts_with_record. growing. }
  destruct (given (args_bing args)) as [query|].
  { apply Hdone. unfold search_bing. apply starts_with_record. growing. }
  destruct (given (args_url args)) as [url|]; apply Hgoto.
Qed.

Lemma single_run_first_record urls_to_process args s x :
  (exists later, logger (navigate urls_to_process args s).1 = logger s ++ x :: later) ->
  exists later, logger (single_run urls_to_process args s).1 = logger s ++ x :: later.
Proof.
  intros [later Hlater]. unfold single_run. rewrite run_bind.
  destruct (navigate urls_to_process args s) as [s2 [[]|e]]; cbn [fst] in *; [|eauto].
  pose proof grows_say as Hsay.
  pose proof (fun A (line : A -> string) items => grows_say_each line items) as Hsays.
  lazymatch goal with
  | |- exists _, logger (?tail s2).1 = _ =>
      assert (grows tail) as Htail
        by (repeat first [grow_step | apply grows_when]; auto)
  end.
  eapply older_record; [exact Hlater | apply Htail].
Qed.

Lemma single_run_exchanges urls_to_process args s :
  exchanges (single_run urls_to_process args s).1
  = exchanges (navigate urls_to_process args s).1.
Proof.
  unfold single_run. rewrite run_bind.
  destruct (navigate urls_to_process args s) as [s2 [[]|e]]; cbn [fst]; [|reflexivity].
  pose proof core_exchanges as Hcore.
  pose proof (fun l => keeps_say exchanges l Hcore) as Hsay.
  pose proof (fun A (line : A -> string) items => keeps_say_each exchanges line items Hcore)
    as Hsays.
  lazymatch goal with
  | |- exchanges (?tail s2).1 = _ =>
      assert (keeps exchanges tail) as Htail
        by (methodical; apply keeps_when; methodical)
  end.
  apply Htail.
Qed.

(** The requests of the single-URL path in transport-only mode. *)
Lemma navigate_exchanges urls_to_process args s :
  browser_mode s = None ->
  match given (args_search args), given (args_bing args), given (args_url args) with
  | Some query, _, _ =>
      searched "https://www.google.com" query s (navigate urls_to_process args s).1
  | None, Some query, _ =>
      searched "https://www.bing.com" query s (navigate urls_to_process args s).1
  | None, None, Some url =>
      exists answer,
        exchanges (navigate urls_to_process args s).1
        = exchanges s ++ [(mkRequest GET url ∅ 30, answer)]
  | None, None, None =>
      exists answer,
        exchanges (navigate urls_to_process args s).1
        = exchanges s
            ++ [(mkRequest GET match urls_to_process with
                               | first :: _ => first
                               | [] => "https://www.google.com"
                               end ∅ 30, answer)]
  end.
Proof.
  intros Hmode.
  assert (Hdone : forall (op : Bot bool), ((op ;; ret tt) s).1 = (op s).1).
  { intros op. rewrite run_bind. by destruct (op s) as [s' [b|e]]. }
  assert (Hgoto : forall url,
            exists answer,
              exchanges ((goto url ;; ret tt) s).1
              = exchanges s ++ [(mkRequest GET url ∅ 30, answer)]).
  { intros url. rewrite Hdone.
    destruct (goto_transport s url Hmode) as (answer & Hex & _). eauto. }
  unfold navigate.
  destruct (given (args_search args)) as [query|].
  { rewrite Hdone. by apply search_google_transport. }
  destruct (given (args_bing args)) as [query|].
  { rewrite Hdone. by apply search_bing_transport. }
  destruct (given (args_url args)) as [url|]; apply Hgoto.
Qed.

(** C7 (as amended).  Unless [--interactive] is given: with [--batch]
    the URLs processed are those of the internal list, whether or not
    [--urls] is given too; without [--batch], the URLs given by [--urls]
    are the ones processed; with neither, the single-URL path runs, and
    what it runs is the first applicable of the Google search of
    [--search], the Bing search of [--bing], the load of the URL of
    [--url], else the load of the first entry of the internal list or,
    when that list is empty, of the default search-engine URL: the
    record of that operation is the first the run logs once the browser
    start is over, and in transport-only mode the requests the run sends
    are those of that operation and no others. *)
Theorem main_dispatch urls_to_process args w :
  args_interactive args = false ->
  (args_batch args = true ->
   exists bot results,
     main urls_to_process args w = RanMultiple bot (Ok results) /\
     map result_url results = urls_to_process) /\
  (args_batch args = false ->
   forall u us, args_urls args = Some (u :: us) ->
   exists bot results,
     main urls_to_process args w = RanMultiple bot (Ok results) /\
     map result_url results = u :: us) /\
  (args_batch args = false ->
   args_urls args = None \/ args_urls args = Some [] ->
   exists bot later,
     main urls_to_process args w = RanSingle bot /\
     logger bot
     = logger (start_browser
                 (__init__ w (args_browser args) (args_headless args) true false)).1
         ++ (INFO,
             match given (args_search args), given (args_bing args),
                   given (args_url args) with
             | Some query, _, _ => "Searching Google for: " +:+ query
             | None, Some query, _ => "Searching Bing for: " +:+ query
             | None, None, Some url => "🌐 NAVIGATING TO: " +:+ url
             | None, None, None =>
                 "🌐 NAVIGATING TO: " +:+ match urls_to_process with
                                          | first :: _ => first
                                          | [] => "https://www.google.com"
                                          end
             end) :: later /\
     (browser_mode
        (start_browser
           (__init__ w (args_browser args) (args_headless args) true false)).1 = None ->
      match given (args_search args), given (args_bing args),
            given (args_url args) with
      | Some query, _, _ =>
          searched "https://www.google.com" query
            (start_browser
               (__init__ w (args_browser args) (args_headless args) true false)).1 bot
      | None, Some query, _ =>
          searched "https://www.bing.com" query
            (start_browser
               (__init__ w (args_browser args) (args_headless args) true false)).1 bot
      | None, None, Some url =>
          exists answer,
            exchanges bot
            = exchanges
                (start_browser
                   (__init__ w (args_browser args) (args_headless args) true false)).1
                ++ [(mkRequest GET url ∅ 30, answer)]
      | None, None, None =>
          exists answer,
            exchanges bot
            = exchanges
                (start_browser
                   (__init__ w (args_browser args) (args_headless args) true false)).1
                ++ [(mkRequest GET match urls_to_process with
                                   | first :: _ => first
                                   | [] => "https://www.google.com"
                                   end ∅ 30, answer)]
      end)).
Proof.
  intros Hinteractive. unfold main. rewrite Hinteractive. split_and!.
  - intros ->.
    destruct (process_multiple_urls_urls urls_to_process (args_browser args)
                (args_links args) (args_images args) (args_save args) (args_tor args)
                (print w ("Processing " +:+ pretty (length urls_to_process)
                          +:+ " URLs in batch mode...")))
      as (bot & results & -> & Hurls).
    eauto.
  - intros -> u us ->.
    destruct (process_multiple_urls_urls (u :: us) (args_browser args)
                (args_links args) (args_images args) (args_save args) false
                (print w ("Processing " +:+ pretty (length (u :: us)) +:+ " URLs...")))
      as (bot & results & -> & Hurls).
    eauto.
  - intros -> Hurls.
    set (bot0 := __init__ w (args_browser args) (args_headless args) true false).
    set (started := (start_browser bot0).1).
    destruct (single_run_first_record urls_to_process args started _
                (navigate_first_record urls_to_process args started)) as [later Hlog].
    pose proof (single_run_exchanges urls_to_process args started) as Hex.
    pose proof (navigate_exchanges urls_to_process args started) as Hnav.
    match type of Hlog with _ = _ ++ ?x :: _ => set (record := x) in * end.
    assert (Hrun :
      exists bot later,
        (let '(bot, r) := with_bot bot0 (single_run urls_to_process args) in
         match r with
         | Ok _ => RanSingle bot
         | Raise e => RanSingle (with_world (print (world bot) ("Error: " +:+ e)) bot)
         end) = RanSingle bot /\
        logger bot = logger started ++ record :: later /\
        exchanges bot = exchanges (navigate urls_to_process args started).1).
    { unfold with_bot. destruct (total_start_browser bot0) as [b Hb].
      subst started. destruct (start_browser bot0) as [s1 r1]. cbn [fst snd] in *.
      subst r1. destruct (single_run urls_to_process args s1) as [s2 r2]. cbn [fst] in *.
      destruct (older_record s2 (close s2).1 _ _ _ Hlog (grows_close s2)) as [later' Hlog'].
      pose proof (keeps_close exchanges core_exchanges s2) as Hclose.
      destruct r2 as [[]|e]; eexists _, later'; (split; [reflexivity|]); cbn;
        split; [exact Hlog' | congruence | exact Hlog' | congruence]. }
    destruct Hrun as (bot & later' & Hran & Hlog' & Hex').
    exists bot, later'.
    split_and!.
    + destruct Hurls as [-> | ->]; exact Hran.
    + exact Hlog'.
    + intros Hmode. specialize (Hnav Hmode). unfold searched in *. rewrite Hex'.
      exact Hnav.
Qed.

End Dispatch.

(* ===================================================================== *)
(** * Saving and closing *)
(* ===================================================================== *)

Section Leaving.
Context {W : World}.
Implicit Types (s : UltimateBot).

(** X28.  In transport-only mode [save_page] with a file name writes the
    text of the current Document to that file, or the empty string when
    no Document is held, and reports success by returning the name: so
    before any load it still creates an empty file and returns its name.
    When the write raises it returns the empty string instead.  The
    current URL, the Document and the history stay as they were. *)
Theorem save_page_writes_the_document s filename w outcome :
  browser_mode s = None ->
  truthy filename = true ->
  write_file (world s) filename
    match current_soup s with
    | Some soup => soup_str soup
    | None => EmptyString
    end = (w, outcome) ->
  (save_page (Some filename) s).2
  = Ok match outcome with
       | Ok _ => filename
       | Raise _ => EmptyString
       end /\
  world (save_page (Some filename) s).1 = w /\
  page (save_page (Some filename) s).1 = page s.
Proof.
  intros Hmode Hname Hwrite.
  change (after (save_page (Some filename)) s (fun s' r =>
    r = Ok match outcome with Ok _ => filename | Raise _ => EmptyString end /\
    world s' = w /\ page s' = page s)).
  unfold save_page. follow. rewrite Hname, Hmode. follow.
  eapply after_act; [exact Hwrite|].
  unfold logger_info, logger_error, logger_emit.
  destruct outcome as [[]|e]; follow; by split_and!.
Qed.

(** X29.  [close] never raises and changes nothing of the object but the
    logs; in particular it keeps the driver it has just quit, so a bot
    that was in browser mode is still in browser mode after [close], and
    [start_browser] then returns [True] without starting a browser. *)
Theorem close_keeps_the_driver s d :
  browser_mode s = Some d ->
  (close s).2 = Ok tt /\
  agree s (close s).1 /\
  browser_mode (close s).1 = Some d /\
  start_browser (close s).1 = ((close s).1, Ok true).
Proof.
  intros Hmode.
  pose proof (keeps_close essence core_essence s) as Hkeep.
  destruct (total_close s) as [[] Hr].
  pose proof Hkeep as Hfields. apply essence_fields in Hfields as (_&_&_&_&_&_&Hm&_).
  rewrite Hmode in Hm. split_and!; [exact Hr | exact Hkeep | exact Hm |].
  by apply (start_browser_running _ d).
Qed.

End Leaving.

(* ===================================================================== *)
(** * Further properties of the run supervisor *)
(* ===================================================================== *)

Module SupervisorBeyond.
Import Supervisor.
Import SupervisorFacts.

Lemma turn_never_closes i t : Forall (fun e => e <> LogClose) (turn i t).1.
Proof.
  assert (Hcopy : forall lines, Forall (fun e => e <> LogClose) (copy_output lines)).
  { induction lines as [|l lines IH]; cbn; repeat constructor; try discriminate.
    exact IH. }
  assert (Hhead : Forall (fun e => e <> LogClose)
                    (rotate i ++ probe (curl_stdout t) ++ launch)).
  { cbn. repeat constructor; discriminate. }
  unfold turn. destruct (worker t) as [child|e]; cbn [fst]; [|exact Hhead].
  rewrite app_assoc. apply Forall_app. split; [|apply Forall_app; split].
  - apply Forall_app. split; [exact Hhead | apply Hcopy].
  - repeat constructor; discriminate.
  - cbn. repeat constructor; discriminate.
Qed.

Lemma turns_never_close indices outside :
  Forall (fun e => e <> LogClose) (flat_map (fun i => (turn i (outside i)).1) indices).
Proof.
  induction indices as [|i indices IH]; cbn [flat_map]; [constructor|].
  apply Forall_app. split; [apply turn_never_closes | exact IH].
Qed.

(** X24.  When the worker of turn [k] cannot be spawned, after [k]
    turns whose workers were spawned and came to their exit, the script
    ends there with the exception of [subprocess.Popen]: the attempt to
    spawn is the last thing it does, the proxy has been restarted [k+1]
    times, no further turn runs and the log file is never closed. *)
Theorem spawn_failure_stops_the_supervisor (outside : nat -> Turn)
    (children : nat -> Child) (k : nat) (e : string) :
  (forall i, (i < k)%nat -> worker (outside i) = Ok (children i)) ->
  (k < budget)%nat ->
  worker (outside k) = Raise e ->
  exists effects,
    run_bot_loop outside = (effects, Raise e) /\
    restarts effects = S k /\
    last effects
    = Some (Spawn ["python3"; "-u"; "ultimate_bot_tor.py"; "--batch"; "--headless";
                   "--browser"; "--tor"]) /\
    LogClose ∉ effects.
Proof.
  intros Hspawn Hk Hfail.
  assert (Hsplit : seq 0 budget = seq 0 k ++ k :: seq (S k) (budget - S k)).
  { replace budget with (k + S (budget - S k))%nat at 1 by lia.
    rewrite seq_app. reflexivity. }
  assert (Hfirst : forall i, i ∈ seq 0 k -> worker (outside i) = Ok (children i)).
  { intros i Hi. apply Hspawn. apply elem_of_seq in Hi. lia. }
  unfold run_bot_loop. rewrite Hsplit, loop_app, (loop_spawned _ _ children Hfirst).
  cbn [loop]. rewrite (turn_failed k _ e Hfail).
  eexists. split; [reflexivity|]. split_and!.
  - change (restarts ([LogOpen "full_run_log.txt" "a"]
                        ++ flat_map (fun i => (turn i (outside i)).1) (seq 0 k)
                        ++ rotate k ++ probe (curl_stdout (outside k)) ++ launch) = S k).
    rewrite !restarts_app, (restarts_turns _ _ children Hfirst), length_seq.
    rewrite restarts_rotate, restarts_probe.
    change (restarts [LogOpen "full_run_log.txt" "a"]) with 0%nat.
    change (restarts launch) with 0%nat. lia.
  - rewrite app_comm_cons, !app_assoc, last_app. reflexivity.
  - intros Hin. apply elem_of_cons in Hin as [Hin | Hin]; [discriminate|].
    apply elem_of_app in Hin as [Hin | Hin].
    + pose proof (turns_never_close (seq 0 k) outside) as Hno.
      rewrite Forall_forall in Hno. by apply (Hno LogClose).
    + cbn in Hin. repeat (apply elem_of_cons in Hin as [Hin | Hin]; [discriminate|]).
      by apply elem_of_nil in Hin.
Qed.

Lemma flushed_app a b :
  flushed a = true -> flushed b = true -> flushed (a ++ b) = true.
Proof.
  intros Ha Hb. induction a as [|x a IH]; [exact Hb|].
  destruct x; cbn [app flushed] in *; try (apply IH; exact Ha).
  destruct a as [|y a]; [discriminate|]. destruct y; try discriminate.
  cbn [app]. apply IH. exact Ha.
Qed.

Lemma flushed_copy_output lines : flushed (copy_output lines) = true.
Proof. induction lines as [|l lines IH]; [reflexivity | exact IH]. Qed.

Lemma flushed_turn i t : flushed (turn i t).1 = true.
Proof.
  unfold turn. destruct (worker t) as [child|e]; cbn [fst].
  - repeat apply flushed_app; try reflexivity. apply flushed_copy_output.
  - repeat apply flushed_app; reflexivity.
Qed.

Lemma flushed_loop indices outside : flushed (loop indices outside).1 = true.
Proof.
  induction indices as [|i indices IH]; [reflexivity|]. cbn [loop].
  pose proof (flushed_turn i (outside i)) as Hturn.
  destruct (turn i (outside i)) as [effects [[]|e]]; [|exact Hturn].
  destruct (loop indices outside) as [later r]. by apply flushed_app.
Qed.

(** X25.  Whatever the outside does, spawn failures included, the
    script never leaves a line in a buffer: every write to the log file
    is followed at once by a flush. *)
Theorem log_is_flushed_after_every_write (outside : nat -> Turn) :
  flushed (run_bot_loop outside).1 = true.
Proof.
  unfold run_bot_loop. pose proof (flushed_loop (seq 0 budget) outside) as H.
  destruct (loop (seq 0 budget) outside) as [effects [[]|e]]; cbn [fst flushed] in *.
  - by apply flushed_app.
  - exact H.
Qed.






Lemma slept_app a b : slept (a ++ b) = slept a + slept b.
Proof.
  induction a as [|x a IH]; [reflexivity|]. destruct x; cbn [app slept]; lia.
Qed.

Lemma slept_copy_output lines : slept (copy_output lines) = 0.
Proof. induction lines as [|l lines IH]; [reflexivity | exact IH]. Qed.

Lemma slept_turns indices outside children :
  (forall i, i ∈ indices -> worker (outside i) = Ok (children i)) ->
  slept (flat_map (fun i => (turn i (outside i)).1) indices)
  = 310 * Z.of_nat (length indices).
Proof.
  induction indices as [|i indices IH]; intros H; [reflexivity|].
  cbn [flat_map length]. rewrite slept_app.
  rewrite (turn_spawned i (outside i) (children i)) by (apply H; left).
  rewrite IH by (intros j Hj; apply H; by right). cbn [fst].
  rewrite !slept_app, slept_copy_output.
  change (slept (rotate i)) with 10. change (slept (probe _)) with 0.
  change (slept launch) with 0. change (slept cooldown) with 300.
  change (slept [StdoutClose; Wait _]) with 0. lia.
Qed.

(** X27.  When every worker is spawned and comes to its exit, a run of
    the script spends 62000 seconds asleep, 10 after each restart of the
    proxy and 300 after each worker, however quickly the workers
    finish. *)
Theorem full_run_sleeps (outside : nat -> Turn) (children : nat -> Child) :
  (forall i, (i < budget)%nat -> worker (outside i) = Ok (children i)) ->
  slept (run_bot_loop outside).1 = 62000.
Proof.
  intros Hspawn.
  assert (Hall : forall i, i ∈ seq 0 budget -> worker (outside i) = Ok (children i)).
  { intros i Hi. apply Hspawn. apply elem_of_seq in Hi. lia. }
  unfold run_bot_loop. rewrite (loop_spawned _ _ children Hall). cbn [fst slept].
  rewrite slept_app, (slept_turns _ _ children Hall), length_seq. reflexivity.
Qed.

End SupervisorBeyond.

(* ===================================================================== *)
(** * Worked runs *)
(* ===================================================================== *)

Example urljoin_rooted :
  urllib_parse.urljoin (fun _ => Ok tt) "https://site/p" "/a" = Ok "https://site/a".
Proof. vm_compute. reflexivity. Qed.

Example urljoin_sibling :
  urllib_parse.urljoin (fun _ => Ok tt) "https://site/dir/p?x=1" "../q/./r#f"
  = Ok "https://site/q/r#f".
Proof. vm_compute. reflexivity. Qed.

(** C1, the claim as stated fails: a response with status 201 is a 2xx
    response, and [goto] returns [False] for it. *)
Lemma goto_created_status_fails :
  is_2xx 201 = true /\
  browser_mode Lab.created_bot = None /\
  exchanges (@goto Lab.created "https://site/p" Lab.created_bot).1
  = [(mkRequest GET "https://site/p" ∅ 30,
      Ok (mkResponse 201 "https://site/p" "<html></html>" "<html></html>"))] /\
  (@goto Lab.created "https://site/p" Lab.created_bot).2 = Ok false.
Proof. split_and!; vm_compute; reflexivity. Qed.

Lemma goto_transport_status_witness :
  (@goto Lab.missing "https://site/gone" Lab.missing_bot).2 = Ok false /\
  current_url (@goto Lab.missing "https://site/gone" Lab.missing_bot).1
  = current_url Lab.missing_bot /\
  current_soup (@goto Lab.missing "https://site/gone" Lab.missing_bot).1
  = current_soup Lab.missing_bot.
Proof.
  apply (@goto_transport_status Lab.missing Lab.missing_bot "https://site/gone"
           (mkResponse 404 "https://site/gone" EmptyString EmptyString)).
  - reflexivity.
  - vm_compute. reflexivity.
Defined.

(** C2, the claim as stated fails: the records returned for the scenario
    are not those with [https://site/p/a]. *)
Lemma extract_links_scenario_differs :
  browser_mode Lab.site_loaded = None /\
  current_url Lab.site_loaded = "https://site/p" /\
  current_soup Lab.site_loaded = Some Lab.two_links /\
  exists links,
    (@extract_links Lab.site Lab.site_loaded).2 = Ok links /\
    map (fun l => (link_url l, link_text l)) links
    <> [("https://site/p/a", "X"); ("http://ext/b", "Y")].
Proof.
  split_and!; try (vm_compute; reflexivity).
  eexists. split; [vm_compute; reflexivity|]. vm_compute. discriminate.
Qed.

Lemma extract_links_scenario_witness :
  (@extract_links Lab.site Lab.site_loaded).2
  = Ok [mkLink "https://site/a" "X" EmptyString;
        mkLink "http://ext/b" "Y" EmptyString].
Proof.
  apply (@extract_links_scenario Lab.site Lab.site_loaded Lab.two_links).
  - vm_compute. reflexivity.
  - vm_compute. reflexivity.
  - vm_compute. reflexivity.
  - vm_compute. reflexivity.
Defined.

(** C3, the claim as stated fails: the order form has a numeric input
    [n] with the default value 5, which the caller does not override,
    and the submitted request has no field [n]. *)
Lemma submit_form_skips_numeric_input :
  browser_mode Lab.shop_loaded = None /\
  current_soup Lab.shop_loaded = Some Lab.order_form /\
  @soup_select Lab.shop Lab.order_form "form" = Ok [Lab.order_form_tag] /\
  Lab.numeric_input ∈ form_controls Lab.order_form_tag /\
  bs4.get "name" Lab.numeric_input = Some "n" /\
  bs4.get "value" Lab.numeric_input = Some "5" /\
  ({[ "q" := "cats" ]} : gmap string string) !! "n" = None /\
  exchanges (@submit_form Lab.shop {[ "q" := "cats" ]} "form" Lab.shop_loaded).1
  = exchanges Lab.shop_loaded ++ [(Lab.order_request, Lab.order_answer)] /\
  req_fields Lab.order_request !! "n" = None.
Proof.
  split_and!; try (vm_compute; reflexivity).
  apply list_elem_of_In. vm_compute. tauto.
Qed.

Lemma submit_form_fields_witness :
  (forall name value,
     ({[ "q" := "cats" ]} : gmap string string) !! name = Some value ->
     req_fields Lab.order_request !! name = Some value) /\
  (forall e name value,
     e ∈ form_controls Lab.order_form_tag -> field_default e = Some (name, value) ->
     ({[ "q" := "cats" ]} : gmap string string) !! name = None ->
     is_Some (req_fields Lab.order_request !! name) /\
     req_fields Lab.order_request !! name
     = last_default name (form_controls Lab.order_form_tag)).
Proof.
  apply (@submit_form_fields Lab.shop Lab.shop_loaded {[ "q" := "cats" ]} "form"
           Lab.order_form Lab.order_form_tag [] Lab.order_request Lab.order_answer).
  - vm_compute. reflexivity.
  - vm_compute. reflexivity.
  - vm_compute. reflexivity.
  - vm_compute. reflexivity.
Defined.

(** C4, the claim as stated fails: the value returned in transport-only
    mode is the value returned in browser mode when the selector finds
    no element, so it does not tell the refusal apart. *)
Lemma refusal_shares_its_value :
  browser_mode Lab.offline_bot = None /\
  browser_mode Lab.browser_bot = Some tt /\
  (@click Lab.offline (BySelector "#go") false Lab.offline_bot).2
  = (@click Lab.blank_browser (BySelector "#go") false Lab.browser_bot).2 /\
  (@type_text Lab.offline (BySelector "#q") "cats" true Lab.offline_bot).2
  = (@type_text Lab.blank_browser (BySelector "#q") "cats" true Lab.browser_bot).2.
Proof. split_and!; vm_compute; reflexivity. Qed.

Lemma click_type_refused_witness :
  @click Lab.offline (BySelector "#go") false Lab.offline_bot
  = (with_logger (logger Lab.offline_bot ++ [(WARNING, "Click requires browser mode")])
                 Lab.offline_bot, Ok false) /\
  @type_text Lab.offline (BySelector "#go") "cats" true Lab.offline_bot
  = (with_logger (logger Lab.offline_bot ++ [(WARNING, "Type requires browser mode")])
                 Lab.offline_bot, Ok false).
Proof.
  apply (@click_type_refused_in_transport_mode Lab.offline Lab.offline_bot).
  reflexivity.
Defined.

Lemma degradation_witness :
  (@start_browser Lab.offline Lab.hopeful_bot).2 = Ok true /\
  browser_mode (@start_browser Lab.offline Lab.hopeful_bot).1 = None.
Proof.
  pose proof (@degradation_is_permanent Lab.offline Lab.hopeful_bot tt tt
                "cannot connect to chrome" "chromedriver not found"
                [CallGoto "https://site/p"; CallStartBrowser;
                 CallClick (BySelector "a") false]
                "a[href]" 10) as H.
  destruct H as (H1 & H2 & _); [reflexivity | reflexivity | reflexivity | reflexivity |].
  split; [exact H1 | exact H2].
Defined.

(** C6, the claim as stated fails: the first worker exits with status 1,
    the second turn begins with its rotation, the second worker cannot
    be spawned, and the script ends there with the exception, after two
    turns of the 200. *)
Lemma supervisor_ends_before_the_budget :
  Supervisor.worker (Lab.flaky 0) = Ok (Supervisor.mkChild ["Traceback"] 1) /\
  (exists effects,
     Supervisor.run_bot_loop Lab.flaky
     = (effects, Raise "[Errno 11] Resource temporarily unavailable") /\
     Supervisor.restarts effects = 2%nat /\
     (Supervisor.restarts effects < Supervisor.budget)%nat /\
     last effects
     = Some (Supervisor.Spawn ["python3"; "-u"; "ultimate_bot_tor.py"; "--batch";
                               "--headless"; "--browser"; "--tor"])) /\
  ~ (exists effects,
       Supervisor.run_bot_loop Lab.flaky = (effects, Ok tt) /\
       Supervisor.restarts effects = Supervisor.budget).
Proof.
  split; [reflexivity|]. split.
  - eexists. split; [vm_compute; reflexivity|].
    split; [vm_compute; reflexivity|].
    split; [vm_compute; lia | vm_compute; reflexivity].
  - intros (effects & H & _). vm_compute in H. discriminate H.
Qed.

Lemma supervisor_witness :
  (exists effects outcome before later,
     Supervisor.run_bot_loop Lab.crashing = (effects, outcome) /\
     effects = before ++ [Supervisor.Wait 1] ++ Supervisor.cooldown
                 ++ Supervisor.rotate 1 ++ later /\
     Supervisor.restarts before = 1%nat) /\
  (exists effects,
     Supervisor.run_bot_loop Lab.crashing = (effects, Ok tt) /\
     Supervisor.restarts effects = Supervisor.budget /\
     last effects = Some Supervisor.LogClose).
Proof.
  destruct (SupervisorFacts.supervisor_continues_after_crash Lab.crashing
              (fun _ => Supervisor.mkChild ["Traceback"] 1) 0) as (H1 & H2 & _).
  - intros i _. reflexivity.
  - unfold Supervisor.budget. lia.
  - simpl. lia.
  - split; [exact H1|]. apply H2. intros i _. reflexivity.
Defined.

(** C7, the claim as stated fails: with [--batch] and [--urls] together
    the URLs processed are those of the internal list, not the ones
    given by [--urls]. *)
Lemma batch_ignores_urls :
  args_batch Lab.batch_and_urls = true /\
  args_urls Lab.batch_and_urls = Some ["https://example.org/"] /\
  exists bot results,
    @main Lab.offline default_urls_to_process Lab.batch_and_urls tt
    = RanMultiple bot (Ok results) /\
    map result_url results = default_urls_to_process /\
    map result_url results <> ["https://example.org/"].
Proof.
  split_and!; try reflexivity.
  eexists _, _. split; [vm_compute; reflexivity|]. split; [reflexivity | discriminate].
Qed.

Lemma main_dispatch_witness :
  exists bot results,
    @main Lab.offline default_urls_to_process Lab.batch_and_urls tt
    = RanMultiple bot (Ok results) /\
    map result_url results = default_urls_to_process.
Proof.
  destruct (@main_dispatch Lab.offline default_urls_to_process Lab.batch_and_urls tt)
    as (H & _); [reflexivity|].
  apply H. reflexivity.
Defined.

(** With [--search], [--bing] and [--url] together the one request
    made is the Google one. *)
Example main_prefers_search :
  exists bot,
    @main Lab.offline default_urls_to_process Lab.search_bing_and_url tt = RanSingle bot /\
    map (fun x => req_url x.1) (exchanges bot) = ["https://www.google.com"].
Proof. eexists. split; vm_compute; reflexivity. Qed.

Lemma extraction_of_nothing_witness :
  (@extract_links Lab.plain Lab.plain_loaded).2 = Ok [] /\
  (@extract_images Lab.plain Lab.plain_loaded).2 = Ok [].
Proof.
  apply (@extraction_of_nothing Lab.plain Lab.plain_loaded Lab.plain_loaded).
  - exists Lab.plain_page. split; vm_compute; reflexivity.
  - exists Lab.plain_page. split; vm_compute; reflexivity.
Defined.

(** C9, the claim as stated fails: in browser mode, before any load, the
    session holds no Document and [find] still returns the root element
    of the browser's blank page. *)
Lemma find_on_blank_browser_page :
  current_soup Lab.browser_bot = None /\
  current_url Lab.browser_bot = EmptyString /\
  (@find Lab.blank_browser "html" 10 Lab.browser_bot).2
  = Ok (Some (@BrowserElement Lab.blank_browser "html")) /\
  (@find_all Lab.blank_browser "html" Lab.browser_bot).2
  = Ok [@BrowserElement Lab.blank_browser "html"].
Proof. split_and!; vm_compute; reflexivity. Qed.

Lemma reads_before_any_load_witness :
  (@find Lab.offline "a" 10 Lab.offline_bot).2 = Ok None /\
  (@find_all Lab.offline "a" Lab.offline_bot).2 = Ok [] /\
  (@extract_links Lab.offline Lab.offline_bot).2 = Ok [] /\
  (@extract_images Lab.offline Lab.offline_bot).2 = Ok [] /\
  (@get_title Lab.offline Lab.offline_bot).2 = Ok EmptyString.
Proof.
  apply (@reads_before_any_load Lab.offline Lab.offline_bot "a" 10).
  - reflexivity.
  - reflexivity.
Defined.

Lemma submit_form_atomic_witness :
  (@submit_form Lab.offline {[ "q" := "cats" ]} "form" Lab.offline_bot).2 = Ok false /\
  current_url (@submit_form Lab.offline {[ "q" := "cats" ]} "form" Lab.offline_bot).1
  = current_url Lab.offline_bot /\
  current_soup (@submit_form Lab.offline {[ "q" := "cats" ]} "form" Lab.offline_bot).1
  = current_soup Lab.offline_bot.
Proof.
  apply (@submit_form_atomic_on_failure Lab.offline Lab.offline_bot).
  - reflexivity.
  - left. reflexivity.
Defined.

(* ===================================================================== *)
(** * Worked runs of the further properties *)
(* ===================================================================== *)

Lemma goto_sends_one_get_witness :
  exists answer,
    exchanges (@goto Lab.offline "https://site/p" Lab.offline_bot).1
    = exchanges Lab.offline_bot ++ [(mkRequest GET "https://site/p" ∅ 30, answer)].
Proof.
  apply (@goto_sends_one_get Lab.offline Lab.offline_bot "https://site/p").
  reflexivity.
Defined.

Lemma goto_network_error_witness :
  (@goto Lab.offline "https://site/p" Lab.offline_bot).2 = Ok false /\
  current_url (@goto Lab.offline "https://site/p" Lab.offline_bot).1
  = current_url Lab.offline_bot /\
  current_soup (@goto Lab.offline "https://site/p" Lab.offline_bot).1
  = current_soup Lab.offline_bot.
Proof.
  apply (@goto_network_error_keeps_page Lab.offline Lab.offline_bot "https://site/p"
           "ConnectionError").
  - reflexivity.
  - vm_compute. reflexivity.
Defined.

Lemma goto_parse_failure_witness :
  (@goto Lab.garbled "https://site/p" Lab.garbled_bot).2 = Ok false /\
  current_url (@goto Lab.garbled "https://site/p" Lab.garbled_bot).1 = "https://site/p" /\
  current_soup (@goto Lab.garbled "https://site/p" Lab.garbled_bot).1
  = current_soup Lab.garbled_bot.
Proof.
  apply (@goto_parse_failure_moves_url Lab.garbled Lab.garbled_bot "https://site/p"
           (mkResponse 200 "https://site/p" "<<<" "<<<") "ParserRejectedMarkup").
  - reflexivity.
  - vm_compute. reflexivity.
  - reflexivity.
  - reflexivity.
Defined.

Lemma goto_true_means_loaded_witness :
  exists response soup,
    exchanges (@goto Lab.site "https://site/p" Lab.site_bot).1
    = exchanges Lab.site_bot ++ [(mkRequest GET "https://site/p" ∅ 30, Ok response)] /\
    status_code response = 200 /\
    @BeautifulSoup Lab.site (response_text response) = Ok soup /\
    current_url (@goto Lab.site "https://site/p" Lab.site_bot).1 = response_url response /\
    current_soup (@goto Lab.site "https://site/p" Lab.site_bot).1 = Some soup.
Proof.
  apply (@goto_true_means_loaded Lab.site Lab.site_bot "https://site/p").
  - reflexivity.
  - vm_compute. reflexivity.
Defined.

Lemma submit_form_true_means_loaded_witness :
  exists request response soup,
    exchanges (@submit_form Lab.shop {[ "q" := "cats" ]} "form" Lab.shop_loaded).1
    = exchanges Lab.shop_loaded ++ [(request, Ok response)] /\
    status_code response = 200 /\
    @BeautifulSoup Lab.shop (response_content response) = Ok soup /\
    current_url (@submit_form Lab.shop {[ "q" := "cats" ]} "form" Lab.shop_loaded).1
    = response_url response /\
    current_soup (@submit_form Lab.shop {[ "q" := "cats" ]} "form" Lab.shop_loaded).1
    = Some soup.
Proof.
  apply (@submit_form_true_means_loaded Lab.shop Lab.shop_loaded {[ "q" := "cats" ]} "form").
  - vm_compute. reflexivity.
  - vm_compute. reflexivity.
Defined.

Lemma submit_form_parse_failure_witness :
  (@submit_form Lab.broken_shop {[ "q" := "cats" ]} "form" Lab.broken_shop_loaded).2
  = Ok false /\
  current_url
    (@submit_form Lab.broken_shop {[ "q" := "cats" ]} "form" Lab.broken_shop_loaded).1
  = "https://shop/order" /\
  current_soup
    (@submit_form Lab.broken_shop {[ "q" := "cats" ]} "form" Lab.broken_shop_loaded).1
  = current_soup Lab.broken_shop_loaded.
Proof.
  apply (@submit_form_parse_failure_moves_url Lab.broken_shop Lab.broken_shop_loaded
           {[ "q" := "cats" ]} "form" Lab.order_request
           (mkResponse 200 "https://shop/order" Lab.garbage Lab.garbage)
           "ParserRejectedMarkup").
  - vm_compute. reflexivity.
  - vm_compute. reflexivity.
  - reflexivity.
  - reflexivity.
Defined.

Lemma submit_form_fields_have_a_source_witness :
  ({[ "q" := "cats" ]} : gmap string string) !! "note" = Some "none" \/
  (({[ "q" := "cats" ]} : gmap string string) !! "note" = None /\
   exists e, e ∈ form_controls Lab.order_form_tag /\
             field_default e = Some ("note", "none")).
Proof.
  apply (@submit_form_fields_have_a_source Lab.shop Lab.shop_loaded {[ "q" := "cats" ]}
           "form" Lab.order_form Lab.order_form_tag [] Lab.order_request Lab.order_answer
           "note" "none").
  - vm_compute. reflexivity.
  - vm_compute. reflexivity.
  - vm_compute. reflexivity.
  - vm_compute. reflexivity.
  - vm_compute. reflexivity.
Defined.

Lemma submit_form_request_shape_witness :
  req_timeout Lab.order_request = 30 /\
  (req_method Lab.order_request = POST <->
   exists method,
     bs4.get "method" Lab.order_form_tag = Some method /\ Str.lower method = "post") /\
  (bs4.get "action" Lab.order_form_tag = None ->
   req_url Lab.order_request = current_url Lab.shop_loaded).
Proof.
  apply (@submit_form_request_shape Lab.shop Lab.shop_loaded {[ "q" := "cats" ]}
           "form" Lab.order_form Lab.order_form_tag [] Lab.order_request Lab.order_answer).
  - vm_compute. reflexivity.
  - vm_compute. reflexivity.
  - vm_compute. reflexivity.
  - vm_compute. reflexivity.
Defined.

Lemma browser_mode_sends_no_requests_witness :
  browser_mode
    (@perform_all Lab.blank_browser
       [CallGoto "https://site/p"; CallSearchGoogle "cats"; CallExtractLinks]
       Lab.browser_bot).1 = Some tt /\
  exchanges
    (@perform_all Lab.blank_browser
       [CallGoto "https://site/p"; CallSearchGoogle "cats"; CallExtractLinks]
       Lab.browser_bot).1 = exchanges Lab.browser_bot.
Proof.
  apply (@browser_mode_sends_no_requests Lab.blank_browser
           [CallGoto "https://site/p"; CallSearchGoogle "cats"; CallExtractLinks]
           Lab.browser_bot tt).
  vm_compute. reflexivity.
Defined.

Lemma lookups_answer_from_the_document_witness :
  (@find Lab.site "a[href]" 10 Lab.site_loaded).1 = Lab.site_loaded /\
  (@wait_for Lab.site "a[href]" 10 Lab.site_loaded).2 = Ok true.
Proof.
  destruct (@lookups_answer_from_the_document Lab.site Lab.site_loaded "a[href]" 10 "href")
    as (H1 & H2 & _); [reflexivity|].
  rewrite H1, H2. split; [reflexivity | vm_compute; reflexivity].
Defined.

Lemma browser_only_methods_refuse_witness :
  @screenshot Lab.offline None Lab.offline_bot
  = (with_logger (logger Lab.offline_bot
                    ++ [(WARNING, "Screenshot requires browser mode")]) Lab.offline_bot,
     Ok EmptyString) /\
  @execute_js Lab.offline "return 1;" Lab.offline_bot
  = (with_logger (logger Lab.offline_bot
                    ++ [(WARNING, "JavaScript execution requires browser mode")])
                 Lab.offline_bot,
     Ok None) /\
  @scroll Lab.offline "down" 300 Lab.offline_bot = (Lab.offline_bot, Ok tt).
Proof.
  apply (@browser_only_methods_refuse Lab.offline Lab.offline_bot).
  reflexivity.
Defined.

Lemma extraction_reads_the_document_witness :
  (@extract_links Lab.site Lab.site_loaded).2
  = Ok (@document_links Lab.site (current_url Lab.site_loaded)
          (current_soup Lab.site_loaded)) /\
  (@extract_images Lab.site Lab.site_loaded).2
  = Ok (@document_images Lab.site (current_url Lab.site_loaded)
          (current_soup Lab.site_loaded)) /\
  agree Lab.site_loaded (@extract_links Lab.site Lab.site_loaded).1 /\
  agree Lab.site_loaded (@extract_images Lab.site Lab.site_loaded).1.
Proof.
  apply (@extraction_reads_the_document Lab.site Lab.site_loaded).
  vm_compute. reflexivity.
Defined.

Lemma get_page_info_before_any_load_witness :
  (@get_page_info Lab.offline Lab.offline_bot).2
  = Ok (mkInfo (current_url Lab.offline_bot) EmptyString EmptyString EmptyString
               0 0 0 0 "requests").
Proof.
  apply (@get_page_info_before_any_load Lab.offline Lab.offline_bot).
  - reflexivity.
  - reflexivity.
Defined.

Lemma extraction_within_the_counts_witness :
  exists info found_links found_images,
    (@get_page_info Lab.site Lab.site_loaded).2 = Ok info /\
    (@extract_links Lab.site Lab.site_loaded).2 = Ok found_links /\
    (@extract_images Lab.site Lab.site_loaded).2 = Ok found_images /\
    (length found_links <= links_count info)%nat /\
    (length found_images <= images_count info)%nat.
Proof.
  apply (@extraction_within_the_counts Lab.site Lab.site_loaded Lab.two_links
           [Tag "a" {[ "href" := "/a" ]} [NavigableString "X"];
            Tag "a" {[ "href" := "http://ext/b" ]} [NavigableString "Y"]] [] []).
  - vm_compute. reflexivity.
  - vm_compute. reflexivity.
  - vm_compute. reflexivity.
  - vm_compute. reflexivity.
  - vm_compute. reflexivity.
Defined.

Lemma search_sends_the_query_witness :
  searched "https://www.google.com" "cats" Lab.offline_bot
    (@search_google Lab.offline "cats" Lab.offline_bot).1 /\
  searched "https://www.bing.com" "cats" Lab.offline_bot
    (@search_bing Lab.offline "cats" Lab.offline_bot).1.
Proof.
  apply (@search_sends_the_query Lab.offline Lab.offline_bot "cats").
  reflexivity.
Defined.

Lemma spawn_failure_witness :
  exists effects,
    Supervisor.run_bot_loop Lab.unlaunchable
    = (effects, Raise "[Errno 2] No such file or directory: 'python3'") /\
    Supervisor.restarts effects = 1%nat /\
    last effects
    = Some (Supervisor.Spawn ["python3"; "-u"; "ultimate_bot_tor.py"; "--batch";
                              "--headless"; "--browser"; "--tor"]) /\
    Supervisor.LogClose ∉ effects.
Proof.
  apply (SupervisorBeyond.spawn_failure_stops_the_supervisor Lab.unlaunchable
           (fun _ => Supervisor.mkChild [] 0) 0).
  - intros i Hi. lia.
  - unfold Supervisor.budget. lia.
  - reflexivity.
Defined.

Lemma full_run_sleeps_witness :
  Supervisor.slept (Supervisor.run_bot_loop Lab.crashing).1 = 62000.
Proof.
  apply (SupervisorBeyond.full_run_sleeps Lab.crashing
           (fun _ => Supervisor.mkChild ["Traceback"] 1)).
  intros i _. reflexivity.
Defined.

Lemma save_page_writes_the_document_witness :
  (@save_page Lab.offline (Some "out.html") Lab.offline_bot).2 = Ok "out.html" /\
  world (@save_page Lab.offline (Some "out.html") Lab.offline_bot).1 = tt /\
  page (@save_page Lab.offline (Some "out.html") Lab.offline_bot).1 = page Lab.offline_bot.
Proof.
  apply (@save_page_writes_the_document Lab.offline Lab.offline_bot "out.html" tt (Ok tt)).
  - reflexivity.
  - reflexivity.
  - reflexivity.
Defined.

Lemma close_keeps_the_driver_witness :
  (@close Lab.blank_browser Lab.browser_bot).2 = Ok tt /\
  agree Lab.browser_bot (@close Lab.blank_browser Lab.browser_bot).1 /\
  browser_mode (@close Lab.blank_browser Lab.browser_bot).1 = Some tt /\
  @start_browser Lab.blank_browser (@close Lab.blank_browser Lab.browser_bot).1
  = ((@close Lab.blank_browser Lab.browser_bot).1, Ok true).
Proof.
  apply (@close_keeps_the_driver Lab.blank_browser Lab.browser_bot tt).
  vm_compute. reflexivity.
Defined.

Lemma only_navigation_moves_the_page_witness :
  current_url (@perform Lab.site CallExtractLinks Lab.site_loaded).1
  = current_url Lab.site_loaded /\
  exchanges (@perform Lab.site CallExtractLinks Lab.site_loaded).1
  = exchanges Lab.site_loaded /\
  (@empties_a_node Lab.site CallExtractLinks = false \/ browser_mode Lab.site_loaded = None ->
   current_soup (@perform Lab.site CallExtractLinks Lab.site_loaded).1
   = current_soup Lab.site_loaded).
Proof.
  apply (@only_navigation_moves_the_page Lab.site CallExtractLinks Lab.site_loaded).
  reflexivity.
Defined.

Lemma type_text_clear_empties_the_node_witness :
  current_soup Lab.plain_browser_loaded = Some Lab.plain_page /\
  (@type_text Lab.plain_browser (ByElement (SoupElement Lab.plain_page)) EmptyString true
     Lab.plain_browser_loaded).2 = Ok true /\
  current_soup
    (@type_text Lab.plain_browser (ByElement (SoupElement Lab.plain_page)) EmptyString true
       Lab.plain_browser_loaded).1
  = Some (Lab.document []).
Proof.
  split; [vm_compute; reflexivity|].
  destruct (@type_text_clear_empties_the_node Lab.plain_browser Lab.plain_browser_loaded tt
              "[document]" ∅
              [Tag "html" ∅ [Tag "body" ∅ [Tag "p" ∅ [NavigableString "hello"]]]] EmptyString)
    as (H1 & H2 & _); [vm_compute; reflexivity|].
  split; [exact H1 | etransitivity; [exact H2 | vm_compute; reflexivity]].
Defined.
